(** * SkyGate: the evidence-fusion core of the detection engine

    A shallow embedding of [backend/src/detection/detection_engine.py]
    ([DetectionEngine.detect], [aggregate_results], [update_metadata] and the
    detector adapters), of [generate_result_summary] and [allowed_file] from
    [backend/src/api/endpoints.py], of [analyze_exif_metadata] from
    [backend/src/utils/metadata_analysis.py], and of [extract_prnu_features]
    and [analyze_texture_smoothness] from
    [backend/src/utils/image_processing.py].

    Python's [float] is IEEE 754 binary64, and so is Rocq's primitive [float]:
    the arithmetic below is the arithmetic of the program, rounding included.
    Python dictionaries keyed by detector name are [gmap string _]; the
    registry, whose iteration order matters, is a list of named entries. *)

From Stdlib Require Import Floats ZArith String Ascii List Permutation
  DecimalString Reals Lra Lia.
From stdpp Require Import gmap strings list fin_maps.

#[local] Set Warnings "-inexact-float,-register-all,-clear-no-such-hyp".
#[local] Open Scope string_scope.

(** ** Exceptions *)

(** A Python call either returns a value or raises an [Exception] [e];
    [Raise] carries [str(e)]. *)
Inductive outcome (A : Type) : Type :=
| Return (a : A)
| Raise (msg : string).
Arguments Return {A} a.
Arguments Raise {A} msg.

#[global] Instance outcome_ret : MRet outcome := fun A a => Return a.
#[global] Instance outcome_bind : MBind outcome := fun A B k c =>
  match c with
  | Return a => k a
  | Raise e => Raise e
  end.

(** [try: c except Exception as e: h e] *)
Definition try_except {A} (c : outcome A) (h : string -> A) : A :=
  match c with
  | Return a => a
  | Raise e => h e
  end.

(** ** Data model *)

(** The dictionary a detection method returns.  The keys
    ['is_ai_generated'] and ['confidence_score'] are always present; the key
    ['error'] and the detector-specific keys may be absent. *)
Record method_result : Type := MethodResult {
  mr_is_ai_generated : bool;
  mr_confidence_score : float;
  mr_error : option string;
  mr_anomalies : option (list string);
  mr_error_level_score : option float;
  mr_ela_image_path : option string;
  mr_pattern_score : option float;
  mr_smoothness_score : option float;
  mr_processing_time : option float
}.

(** [{'is_ai_generated': False, 'confidence_score': 0.0, 'error': str(e)}] *)
Definition error_result (e : string) : method_result :=
  MethodResult false 0%float (Some e) None None None None None None.

(** An entry of [self.detection_methods]. *)
Record method_info : Type := MethodInfo {
  function : string -> outcome method_result;
  weight : float
}.

(** [self.detection_methods]: a dictionary in insertion order. *)
Abbreviation registry := (list (string * method_info)).

(** An entry of [results['contributing_factors']]. *)
Record contributing_factor : Type := ContributingFactor {
  cf_factor : string;
  cf_weight : float;
  cf_contribution : float
}.

(** The [results] dictionary of [detect]. *)
Record results : Type := Results {
  is_ai_generated : bool;
  confidence_score : float;
  processing_time : float;
  method_results : gmap string method_result;
  contributing_factors : list contributing_factor
}.

(** ** [DetectionEngine.aggregate_results] *)

(** The three locals of the loop: [weighted_sum], [total_weight],
    [contributing_factors]. *)
Record accumulators : Type := Accumulators {
  weighted_sum : float;
  total_weight : float;
  factors : list contributing_factor
}.

(** One iteration of [for method_name, method_info in
    self.detection_methods.items()]. *)
Definition aggregate_step (mrs : gmap string method_result)
    (acc : accumulators) (entry : string * method_info) : accumulators :=
  let '(method_name, info) := entry in
  match mrs !! method_name with
  | None => acc
  | Some method_result =>
      match mr_error method_result with
      | Some _ => acc
      | None =>
          let weight := weight info in
          let confidence := mr_confidence_score method_result in
          Accumulators
            (weighted_sum acc + weight * confidence)%float
            (total_weight acc + weight)%float
            (if mr_is_ai_generated method_result && (0.6 <? confidence)%float
             then factors acc ++ [ContributingFactor method_name weight confidence]
             else factors acc)
      end
  end.

Definition aggregate_loop (detection_methods : registry)
    (mrs : gmap string method_result) : accumulators :=
  fold_left (aggregate_step mrs) detection_methods
            (Accumulators 0%float 0%float []).

Definition final_confidence_of (acc : accumulators) : float :=
  if (0 <? total_weight acc)%float
  then (weighted_sum acc / total_weight acc)%float
  else 0%float.

Definition aggregate_results (detection_methods : registry) (r : results)
    : results :=
  let acc := aggregate_loop detection_methods (method_results r) in
  let final_confidence := final_confidence_of acc in
  let is_ai_generated := (0.5 <? final_confidence)%float in
  Results is_ai_generated final_confidence (processing_time r)
          (method_results r) (factors acc).

(** ** [DetectionEngine.update_metadata] *)

(** The nested documents of [update_data]. *)
Record analysis_result : Type := AnalysisResult {
  ar_is_suspicious : bool;
  ar_confidence : float;
  ar_anomalies : list string
}.

Record ela_results : Type := ElaResults {
  ela_error_level_score : float;
  ela_is_suspicious : bool;
  ela_confidence : float;
  ela_image_path : string
}.

Record prnu_results : Type := PrnuResults {
  prnu_pattern_score : float;
  prnu_is_suspicious : bool;
  prnu_confidence : float
}.

Record texture_analysis : Type := TextureAnalysis {
  tex_smoothness_score : float;
  tex_is_suspicious : bool;
  tex_confidence : float
}.

Record model_result : Type := ModelResult {
  model_name : string;
  model_version : string;
  model_is_ai_generated : bool;
  model_confidence : float;
  model_processing_time : float
}.

Record aggregated : Type := Aggregated {
  agg_is_ai_generated : bool;
  agg_confidence_score : float;
  agg_contributing_factors : list contributing_factor
}.

(** [update_data]: the key ["aggregated_results"] is always set, the others
    only when the corresponding [if] is taken.  [exif_data] holds the document
    under ["exif_data"]["analysis_result"]; the three pixel documents are the
    keys ["pixel_analysis.ela_results"], ["pixel_analysis.prnu_results"] and
    ["pixel_analysis.texture_analysis"]. *)
Record update_data : Type := UpdateData {
  aggregated_results : aggregated;
  exif_data : option analysis_result;
  pixel_ela_results : option ela_results;
  pixel_prnu_results : option prnu_results;
  pixel_texture_analysis : option texture_analysis;
  model_results : option (list model_result)
}.

Definition model_entry (name : string) (r : method_result) : model_result :=
  ModelResult name "1.0" (mr_is_ai_generated r) (mr_confidence_score r)
              (default 0%float (mr_processing_time r)).

(** The document [update_metadata] builds before handing it to the store. *)
Definition build_update_data (r : results) : update_data :=
  let mrs := method_results r in
  let model_results :=
    (option_list (model_entry "Vision Transformer" <$> mrs !! "vit_model") ++
     option_list (model_entry "ResNet50 NoDown" <$> mrs !! "resnet_model"))%list
  in
  UpdateData
    (Aggregated (is_ai_generated r) (confidence_score r)
                (contributing_factors r))
    ((fun m => AnalysisResult (mr_is_ai_generated m) (mr_confidence_score m)
                              (default [] (mr_anomalies m)))
       <$> mrs !! "metadata_analysis")
    ((fun m => ElaResults (default 0%float (mr_error_level_score m))
                          (mr_is_ai_generated m) (mr_confidence_score m)
                          (default "" (mr_ela_image_path m)))
       <$> mrs !! "ela_analysis")
    ((fun m => PrnuResults (default 0%float (mr_pattern_score m))
                           (mr_is_ai_generated m) (mr_confidence_score m))
       <$> mrs !! "prnu_analysis")
    ((fun m => TextureAnalysis (default 0%float (mr_smoothness_score m))
                               (mr_is_ai_generated m) (mr_confidence_score m))
       <$> mrs !! "texture_analysis")
    (match model_results with [] => None | _ => Some model_results end).

(** [MongoDBModel.update_detection_metadata] belongs to the document store:
    it is a parameter of the engine, and it may raise. *)
Abbreviation store := (string -> update_data -> outcome bool).

Definition update_metadata (update_detection_metadata : store)
    (metadata_id : string) (r : results) : outcome unit :=
  _ ← update_detection_metadata metadata_id (build_update_data r);
  mret tt.

(** ** [DetectionEngine.detect] *)

(** The loop over [self.detection_methods.items()] with its [try]/[except]:
    a method that raises leaves the error dictionary in its slot. *)
Definition run_method (image_path : string)
    (mrs : gmap string method_result) (entry : string * method_info)
    : gmap string method_result :=
  let '(method_name, info) := entry in
  <[method_name := try_except (function info image_path) error_result]> mrs.

Definition run_methods (detection_methods : registry) (image_path : string)
    : gmap string method_result :=
  fold_left (run_method image_path) detection_methods ∅.

(** Python's truth value of [metadata_id], which is [None] or a string. *)
Definition truthy_id (metadata_id : option string) : option string :=
  match metadata_id with
  | Some "" => None
  | other => other
  end.

(** [elapsed] is [(end_time - start_time).total_seconds()], read off the
    clock.  The outer [try]/[except] logs and re-raises, so an exception of
    the store is an exception of [detect]. *)
Definition detect (detection_methods : registry)
    (update_detection_metadata : store) (elapsed : float)
    (image_path : string) (metadata_id : option string) : outcome results :=
  let r := Results false 0%float 0%float
                   (run_methods detection_methods image_path) [] in
  let r := aggregate_results detection_methods r in
  let r := Results (is_ai_generated r) (confidence_score r) elapsed
                   (method_results r) (contributing_factors r) in
  match truthy_id metadata_id with
  | Some id => _ ← update_metadata update_detection_metadata id r; mret r
  | None => mret r
  end.

(** ** The detector adapters and the registry *)

(** What the adapters call outside the engine: the EXIF reader followed by
    [analyze_exif_metadata] (its [is_suspicious], [confidence] and
    [anomalies]), [extract_ela_features] (the mean of the features and the
    path of the ELA image), [extract_prnu_features] (the mean of the features)
    and [analyze_texture_smoothness].  Each may raise. *)
Record collaborators : Type := Collaborators {
  exif_metadata : string -> outcome (bool * float * list string);
  ela_features : string -> outcome (float * string);
  prnu_features : string -> outcome float;
  texture_smoothness : string -> outcome float
}.

(** Python's [min(a, b)] on floats: [b] only when [b < a]. *)
Definition py_min (a b : float) : float :=
  if (b <? a)%float then b else a.

(** [str.lower] on the ASCII letters (the only ones ['generated'] can match). *)
Definition lower_ascii (c : ascii) : ascii :=
  let n := N_of_ascii c in
  if ((65 <=? n) && (n <=? 90))%N then ascii_of_N (n + 32) else c.

Fixpoint lower (s : string) : string :=
  match s with
  | EmptyString => EmptyString
  | String c s' => String (lower_ascii c) (lower s')
  end.

(** [needle in haystack] *)
Definition contains (needle haystack : string) : bool :=
  match String.index 0 needle haystack with
  | Some _ => true
  | None => false
  end.

Section Adapters.
Variable ext : collaborators.

Definition analyze_metadata (image_path : string) : outcome method_result :=
  mret (try_except
    ('(is_suspicious, confidence, anomalies) ← exif_metadata ext image_path;
     mret (MethodResult is_suspicious confidence None (Some anomalies)
                        None None None None None))
    error_result).

Definition analyze_ela (image_path : string) : outcome method_result :=
  mret (try_except
    ('(error_level_score, ela_image_path) ← ela_features ext image_path;
     let is_ai_generated := (0.5 <? error_level_score)%float in
     let confidence_score := py_min error_level_score 0.95 in
     mret (MethodResult is_ai_generated confidence_score None None
                        (Some error_level_score) (Some ela_image_path)
                        None None None))
    error_result).

Definition analyze_prnu (image_path : string) : outcome method_result :=
  mret (try_except
    (pattern_score ← prnu_features ext image_path;
     let is_ai_generated := (pattern_score <? 0.3)%float in
     let confidence_score := py_min (1.0 - pattern_score)%float 0.95 in
     mret (MethodResult is_ai_generated confidence_score None None None None
                        (Some pattern_score) None None))
    error_result).

Definition analyze_texture (image_path : string) : outcome method_result :=
  mret (try_except
    (smoothness_score ← texture_smoothness ext image_path;
     let is_ai_generated := (0.6 <? smoothness_score)%float in
     let confidence_score := py_min smoothness_score 0.95 in
     mret (MethodResult is_ai_generated confidence_score None None None None
                        None (Some smoothness_score) None))
    error_result).

Definition predict_with_vit (image_path : string) : outcome method_result :=
  let is_ai_generated := contains "generated" (lower image_path) in
  let confidence_score := if is_ai_generated then 0.85%float else 0.25%float in
  mret (MethodResult is_ai_generated confidence_score None None None None
                     None None (Some 0.5%float)).

Definition predict_with_resnet (image_path : string) : outcome method_result :=
  let is_ai_generated := contains "generated" (lower image_path) in
  let confidence_score := if is_ai_generated then 0.9%float else 0.2%float in
  mret (MethodResult is_ai_generated confidence_score None None None None
                     None None (Some 0.3%float)).

(** [register_detection_methods]: the value it gives
    [self.detection_methods]. *)
Definition register_detection_methods : registry :=
  [ ("metadata_analysis", MethodInfo analyze_metadata 0.15);
    ("ela_analysis", MethodInfo analyze_ela 0.20);
    ("prnu_analysis", MethodInfo analyze_prnu 0.20);
    ("texture_analysis", MethodInfo analyze_texture 0.15);
    ("vit_model", MethodInfo predict_with_vit 0.15);
    ("resnet_model", MethodInfo predict_with_resnet 0.15) ].
End Adapters.

(** The registry of [register_detection_methods] with other functions in
    place of the adapters: same names, same weights, same order. *)
Definition registry_of (f_metadata f_ela f_prnu f_texture f_vit f_resnet
    : string -> outcome method_result) : registry :=
  [ ("metadata_analysis", MethodInfo f_metadata 0.15);
    ("ela_analysis", MethodInfo f_ela 0.20);
    ("prnu_analysis", MethodInfo f_prnu 0.20);
    ("texture_analysis", MethodInfo f_texture 0.15);
    ("vit_model", MethodInfo f_vit 0.15);
    ("resnet_model", MethodInfo f_resnet 0.15) ].

(** ** Python values, as far as [generate_result_summary] looks at them *)

(** [generate_result_summary] takes whatever dictionary it is given; what it
    does with a value depends on the value's type.  A dictionary keeps its
    insertion order, so it is an association list here. *)
Inductive value : Type :=
| VNone
| VBool (b : bool)
| VInt (n : Z)
| VFloat (f : float)
| VStr (s : string)
| VList (l : list value)
| VDict (d : list (string * value)).

Abbreviation dict := (list (string * value)).

Fixpoint dict_get (key : string) (d : dict) : option value :=
  match d with
  | [] => None
  | (k, v) :: d' => if String.eqb k key then Some v else dict_get key d'
  end.

(** [bool(v)] *)
Definition truthy (v : value) : bool :=
  match v with
  | VNone => false
  | VBool b => b
  | VInt n => negb (n =? 0)%Z
  | VFloat f => negb (f =? 0)%float
  | VStr s => negb (String.eqb s "")
  | VList l => match l with [] => false | _ => true end
  | VDict d => match d with [] => false | _ => true end
  end.

(** [d[key]] on a dictionary *)
Definition dict_item (d : dict) (key : string) : outcome value :=
  match dict_get key d with
  | Some v => Return v
  | None => Raise ("'" ++ key ++ "'")
  end.

(** [v[key]] with a string key: only a dictionary has such items. *)
Definition getitem (v : value) (key : string) : outcome value :=
  match v with
  | VDict d => dict_item d key
  | VStr _ => Raise "string indices must be integers"
  | VList _ => Raise "list indices must be integers or slices, not str"
  | _ => Raise "object is not subscriptable"
  end.

Fixpoint characters (s : string) : list value :=
  match s with
  | EmptyString => []
  | String c s' => VStr (String c EmptyString) :: characters s'
  end.

(** [for x in v] *)
Definition iterate (v : value) : outcome (list value) :=
  match v with
  | VList l => Return l
  | VDict d => Return (map (fun kv => VStr (fst kv)) d)
  | VStr s => Return (characters s)
  | _ => Raise "object is not iterable"
  end.

(** [float(n)] for an integer [n]: the nearest binary64, or [OverflowError]. *)
Definition float_of_int (n : Z) : outcome float :=
  let f := SF2Prim (binary_normalize prec emax n 0 false) in
  if is_infinity f then Raise "int too large to convert to float"
  else Return f.

(** [1 - v] *)
Definition one_minus (v : value) : outcome value :=
  match v with
  | VBool b => Return (VInt (1 - (if b then 1 else 0)))
  | VInt n => Return (VInt (1 - n))
  | VFloat f => Return (VFloat (1 - f))
  | _ => Raise "unsupported operand type(s) for -"
  end.

(** [v == name] for a string literal [name] *)
Definition is_str (v : value) (name : string) : bool :=
  match v with
  | VStr s => String.eqb s name
  | _ => false
  end.

(** ** [generate_result_summary] *)

Section Summary.
(** [format(x, '.1%')] on a float is Python's own; the generator is
    verified for any such function. *)
Variable percent : float -> string.

(** [f"{v:.1%}"]: floats, and integers through [float]; anything else has
    no [%] format. *)
Definition format_percent (v : value) : outcome string :=
  match v with
  | VFloat f => Return (percent f)
  | VInt n => f ← float_of_int n; mret (percent f)
  | VBool b => Return (percent (if b then 1 else 0)%float)
  | _ => Raise "unsupported format string"
  end.

(** The body of [for factor in contributing_factors]: the description it
    appends, if any. *)
Definition describe_factor (factor : value) : outcome (list string) :=
  factor_name ← getitem factor "factor";
  contribution ← getitem factor "contribution";
  if is_str factor_name "metadata_analysis" then
    p ← format_percent contribution;
    mret ["suspicious metadata patterns (" ++ p ++ " confidence)"]
  else if is_str factor_name "ela_analysis" then
    p ← format_percent contribution;
    mret ["error level analysis (" ++ p ++ " confidence)"]
  else if is_str factor_name "prnu_analysis" then
    p ← format_percent contribution;
    mret ["photo response non-uniformity (" ++ p ++ " confidence)"]
  else if is_str factor_name "texture_analysis" then
    p ← format_percent contribution;
    mret ["unnatural texture smoothness (" ++ p ++ " confidence)"]
  else if is_str factor_name "vit_model" then
    p ← format_percent contribution;
    mret ["Vision Transformer model detection (" ++ p ++ " confidence)"]
  else if is_str factor_name "resnet_model" then
    p ← format_percent contribution;
    mret ["ResNet model detection (" ++ p ++ " confidence)"]
  else mret [].

Fixpoint describe_factors (factors : list value)
    (factor_descriptions : list string) : outcome (list string) :=
  match factors with
  | [] => Return factor_descriptions
  | factor :: rest =>
      d ← describe_factor factor;
      describe_factors rest (factor_descriptions ++ d)%list
  end.

(** The body of the [try]. *)
Definition render_summary (detection_results : dict) : outcome string :=
  is_ai_generated ← dict_item detection_results "is_ai_generated";
  confidence ← dict_item detection_results "confidence_score";
  let contributing_factors :=
    default (VList []) (dict_get "contributing_factors" detection_results) in
  if truthy is_ai_generated then
    p ← format_percent confidence;
    let summary := "This image is likely AI-generated with " ++ p
                   ++ " confidence. " in
    if truthy contributing_factors then
      let summary := summary ++ "Key indicators include: " in
      factors ← iterate contributing_factors;
      factor_descriptions ← describe_factors factors [];
      mret (summary ++ String.concat ", " factor_descriptions ++ ".")
    else mret summary
  else
    rest ← one_minus confidence;
    p ← format_percent rest;
    mret ("This image appears to be authentic with " ++ p ++ " confidence. "
          ++ "No significant indicators of AI generation were detected.").

Definition generate_result_summary (detection_results : dict) : string :=
  try_except (render_summary detection_results)
             (fun _ => "Detection completed, but summary generation failed.").
End Summary.

(** The [results] dictionary of [detect] as it reaches
    [generate_result_summary]. *)
Definition optional_key {A} (key : string) (f : A -> value) (o : option A)
    : dict :=
  match o with
  | Some a => [(key, f a)]
  | None => []
  end.

Definition method_result_value (m : method_result) : value :=
  VDict ([("is_ai_generated", VBool (mr_is_ai_generated m));
          ("confidence_score", VFloat (mr_confidence_score m))]
         ++ optional_key "error" VStr (mr_error m)
         ++ optional_key "anomalies" (fun l => VList (map VStr l))
                         (mr_anomalies m)
         ++ optional_key "error_level_score" VFloat (mr_error_level_score m)
         ++ optional_key "ela_image_path" VStr (mr_ela_image_path m)
         ++ optional_key "pattern_score" VFloat (mr_pattern_score m)
         ++ optional_key "smoothness_score" VFloat (mr_smoothness_score m)
         ++ optional_key "processing_time" VFloat (mr_processing_time m))%list.

Definition factor_value (c : contributing_factor) : value :=
  VDict [("factor", VStr (cf_factor c));
         ("weight", VFloat (cf_weight c));
         ("contribution", VFloat (cf_contribution c))].

Definition results_dict (r : results) : dict :=
  [("is_ai_generated", VBool (is_ai_generated r));
   ("confidence_score", VFloat (confidence_score r));
   ("processing_time", VFloat (processing_time r));
   ("method_results",
    VDict (map (fun kv => (fst kv, method_result_value (snd kv)))
               (map_to_list (method_results r))));
   ("contributing_factors", VList (map factor_value (contributing_factors r)))].

(** ** A reading of [format(x, '.1%')] for the examples

    CPython multiplies by 100 in binary64 and prints the product with one
    decimal, correctly rounded (ties to even on the exact binary value). *)
Definition round_half_even (num den : Z) : Z :=
  let q := (num / den)%Z in
  match (2 * (num mod den) ?= den)%Z with
  | Lt => q
  | Gt => (q + 1)%Z
  | Eq => if Z.even q then q else (q + 1)%Z
  end.

Definition decimal (n : Z) : string :=
  NilZero.string_of_uint (N.to_uint (Z.to_N n)).

(** [format(x, '.1f')] *)
Definition fixed1 (x : float) : string :=
  match Prim2SF x with
  | S754_nan => "nan"
  | S754_infinity s => if s then "-inf" else "inf"
  | S754_zero s => if s then "-0.0" else "0.0"
  | S754_finite s m e =>
      let tenths :=
        if (0 <=? e)%Z then (10 * Z.pos m * 2 ^ e)%Z
        else round_half_even (10 * Z.pos m) (2 ^ (- e)) in
      (if s then "-" else "") ++ decimal (tenths / 10) ++ "."
      ++ decimal (tenths mod 10)
  end.

Definition percent1 (x : float) : string :=
  fixed1 (x * 100)%float ++ "%".

(** ** The outcomes of a run, and the sums the aggregation computes *)

(** What [detect] leaves in [results['method_results']] for one registry
    entry. *)
Definition invoke (image_path : string) (info : method_info) : method_result :=
  try_except (function info image_path) error_result.

(** A detector failed when its dictionary has the key ['error']. *)
Definition failed (m : method_result) : bool :=
  match mr_error m with
  | Some _ => true
  | None => false
  end.

(** The registry entries with their outcome, in registry order. *)
Definition outcomes (detection_methods : registry) (image_path : string)
    : list (string * float * method_result) :=
  map (fun entry => (fst entry, weight (snd entry), invoke image_path (snd entry)))
      detection_methods.

Definition non_failed (os : list (string * float * method_result))
    : list (string * float * method_result) :=
  List.filter (fun o => negb (failed (snd o))) os.

(** [S]: the sum of [weight * confidence], added up from [0.0] in the order
    of the list. *)
Definition sum_weighted (os : list (string * float * method_result)) : float :=
  fold_left (fun s o => (s + snd (fst o) * mr_confidence_score (snd o))%float)
            os 0%float.

(** [W]: the sum of the weights, added up from [0.0] in the order of the
    list. *)
Definition sum_weights (os : list (string * float * method_result)) : float :=
  fold_left (fun s o => (s + snd (fst o))%float) os 0%float.

(** [S / W], and [0.0] when [W] is not positive. *)
Definition weighted_average (os : list (string * float * method_result))
    : float :=
  if (0 <? sum_weights os)%float
  then (sum_weighted os / sum_weights os)%float
  else 0%float.

(** The factors the loop emits: detectors that said "AI-generated" with a
    confidence above 0.6. *)
Definition significant (o : string * float * method_result) : bool :=
  mr_is_ai_generated (snd o) && (0.6 <? mr_confidence_score (snd o))%float.

Definition factor_of (o : string * float * method_result)
    : contributing_factor :=
  ContributingFactor (fst (fst o)) (snd (fst o)) (mr_confidence_score (snd o)).

Definition significant_factors (os : list (string * float * method_result))
    : list contributing_factor :=
  map factor_of (List.filter significant (non_failed os)).

(** The contributing factors as the specification words them: the non-failed
    detectors whose verdict equals the final verdict and whose confidence is
    above 0.6. *)
Definition agreeing_factors (final_verdict : bool)
    (os : list (string * float * method_result)) : list contributing_factor :=
  map factor_of
      (List.filter
         (fun o => Bool.eqb (mr_is_ai_generated (snd o)) final_verdict
                   && (0.6 <? mr_confidence_score (snd o))%float)
         (non_failed os)).

(** The entries of the registry whose slot in [mrs] is filled, with the
    dictionary found there. *)
Definition recorded (detection_methods : registry)
    (mrs : gmap string method_result)
    : list (string * float * method_result) :=
  omap (fun entry => (fun m => (fst entry, weight (snd entry), m))
                       <$> mrs !! fst entry)
       detection_methods.

(** A detector outcome with a positive weight and a confidence in [[0,1]]. *)
Definition well_scaled (o : string * float * method_result) : Prop :=
  (0 <? snd (fst o))%float = true
  /\ (0 <=? mr_confidence_score (snd o))%float = true
  /\ (mr_confidence_score (snd o) <=? 1)%float = true.

(** The result [detect] returns when the store does not raise. *)
Definition fused (detection_methods : registry) (elapsed : float)
    (image_path : string) : results :=
  let r := aggregate_results detection_methods
             (Results false 0%float 0%float
                      (run_methods detection_methods image_path) []) in
  Results (is_ai_generated r) (confidence_score r) elapsed
          (method_results r) (contributing_factors r).

(** The store accepts whatever [detect] would hand it. *)
Definition store_accepts (update_detection_metadata : store)
    (metadata_id : option string) : Prop :=
  forall id doc, truthy_id metadata_id = Some id ->
                 exists b, update_detection_metadata id doc = Return b.

Module Examples.
(** An authentic-looking photograph: only the error-level analysis says
    "AI-generated"; the sensor-noise analysis says "authentic" with
    confidence 0.7. *)
Definition camera_photo : collaborators :=
  Collaborators (fun _ => Return (false, 0.1%float, []))
                (fun _ => Return (0.9%float, "ela.png"))
                (fun _ => Return 0.3%float)
                (fun _ => Return 0.1%float).

Definition no_store : store := fun _ _ => Return true.
End Examples.

(** The registry without the detector [name]. *)
Definition without (name : string) (ms : registry) : registry :=
  List.filter (fun entry => negb (String.eqb (fst entry) name)) ms.

Module Stubs.
(** Detector functions with a fixed behaviour, for the examples. *)
Definition says (detected : bool) (confidence : float)
    : string -> outcome method_result :=
  fun _ => Return (MethodResult detected confidence None None None None
                                None None None).

Definition raises (e : string) : string -> outcome method_result :=
  fun _ => Raise e.

(** Only the Vision Transformer predictor survives. *)
Definition only_vit : registry :=
  registry_of (raises "no EXIF reader") (raises "cannot decode")
              (raises "cannot decode") (raises "cannot decode")
              (says true 0.85) (raises "model not loaded").

(** Every detector fails: four raise, the two predictors return the error
    dictionary themselves. *)
Definition all_fail : registry :=
registry_of (raises "no EXIF reader") (raises "cannot decode")
            (raises "cannot decode") (raises "cannot decode")
            (fun _ => Return (error_result "model not loaded"))
            (fun _ => Return (error_result "model not loaded")).

(** The metadata analysis raises, the others answer. *)
Definition metadata_raises : registry :=
  registry_of (raises "no EXIF reader") (says true 0.9) (says true 0.8)
              (says false 0.3) (says true 0.85) (says true 0.9).
End Stubs.

Module Orders.
(** Six detectors that answer with fixed confidences, registered in the
    order of [register_detection_methods] and in another order. *)
Definition f_metadata := Stubs.says false 0.0.
Definition f_ela := Stubs.says false 0.0.
Definition f_prnu := Stubs.says false 0.4.
Definition f_texture := Stubs.says true 0.9.
Definition f_vit := Stubs.says true 0.9.
Definition f_resnet := Stubs.says true 1.0.

Definition registered : registry :=
  registry_of f_metadata f_ela f_prnu f_texture f_vit f_resnet.

Definition reordered : registry :=
  [ ("metadata_analysis", MethodInfo f_metadata 0.15);
    ("texture_analysis", MethodInfo f_texture 0.15);
    ("vit_model", MethodInfo f_vit 0.15);
    ("ela_analysis", MethodInfo f_ela 0.20);
    ("prnu_analysis", MethodInfo f_prnu 0.20);
    ("resnet_model", MethodInfo f_resnet 0.15) ].
End Orders.

Module Borderline.
(** Three EXIF anomalies (suspicious at 0.6), an error level of 0.6, a
    sensor-noise score of 0.3 and a smoothness of 0.6: no detector is
    both positive and above 0.6, yet the weighted average passes 0.5. *)
Definition image : collaborators :=
  Collaborators
    (fun _ => Return (true, 0.6%float,
                      ["No lens information"; "Incomplete exposure settings";
                       "No GPS information"]))
    (fun _ => Return (0.6%float, "ela.png"))
    (fun _ => Return 0.3%float)
    (fun _ => Return 0.6%float).
End Borderline.

(** ** Binary64 numbers as reals

    The definitions behind the facts about rounding that the bounds on the
    final confidence need: the value of a float, the rounding of a real to
    the format, and the data [binary_round_aux] works on. *)

Section Binary64Definitions.
#[local] Open Scope Z_scope.

(** Powers of two with integer exponents, as reals. *)
Definition pow2 (e : Z) : R := powerRZ 2 e.

(** The exponent of the binary64 format at magnitude [k]. *)
Definition fexp64 (k : Z) : Z := Z.max (k - 53) (-1074).

(** [y] lies in [[m, m+1)], at the place [l] says. *)
Definition loc_ok (y : R) (m : Z) (l : location) : Prop :=
  match l with
  | loc_Exact => y = IZR m
  | loc_Inexact Lt => (IZR m < y < IZR m + / 2)%R
  | loc_Inexact Eq => y = (IZR m + / 2)%R
  | loc_Inexact Gt => (IZR m + / 2 < y < IZR m + 1)%R
  end.

Definition rec_ok (y : R) (mrs : shr_record) : Prop :=
  0 <= shr_m mrs /\ loc_ok y (shr_m mrs) (loc_of_shr_record mrs).

Definition rne (y : R) (n : Z) : Prop :=
  (IZR n - / 2 <= y <= IZR n + / 2)%R
  /\ (y = (IZR n - / 2)%R \/ y = (IZR n + / 2)%R -> Z.even n = true).

(** The exponent at which a non-negative real is rounded: [-1074] below
    [2^-1021], and [k - 53] in the binade [[2^(k-1), 2^k)] otherwise. *)
Definition canonical_exp (x : R) (e : Z) : Prop :=
  (e = -1074 /\ (x < pow2 (-1021))%R) \/
  (exists k, (pow2 (k - 1) <= x < pow2 k)%R /\ e = k - 53 /\ -1074 <= k - 53).

(** [v] is [x] rounded to nearest, ties to even. *)
Definition is_rnd (x v : R) : Prop :=
  exists e n, canonical_exp x e /\ rne (x / pow2 e) n
              /\ v = (IZR n * pow2 e)%R.

(** The last step of [binary_round_aux] for a positive sign. *)
Definition finish (m e : Z) : spec_float :=
  match m with
  | Z0 => S754_zero false
  | Z.pos p => if e <=? 971 then S754_finite false p e else S754_infinity false
  | Z.neg _ => S754_nan
  end.

(** A non-negative finite binary64 number and its value. *)
Inductive nonneg_val : spec_float -> R -> Prop :=
| nonneg_zero s : nonneg_val (S754_zero s) 0
| nonneg_finite m e :
    SpecFloat.valid_binary prec emax (S754_finite false m e) = true ->
    nonneg_val (S754_finite false m e) (IZR (Z.pos m) * pow2 e).

(** The result of an operation: a zero, a finite number with its value, or
    an overflow. *)
Definition result_val (r : spec_float) (v : R) : Prop :=
  (exists s, r = S754_zero s /\ v = 0%R)
  \/ (exists m e, r = S754_finite false m e /\ v = (IZR (Z.pos m) * pow2 e)%R)
  \/ (r = S754_infinity false /\ (pow2 1024 <= v)%R).

(** [f] is a non-negative finite float of value [v]. *)
Definition nonneg (f : float) (v : R) : Prop := nonneg_val (Prim2SF f) v.

(** The invariant of the two sums of [aggregate_results]: the total weight
    has overflowed, or both sums are non-negative finite numbers and the
    weighted sum does not exceed the total weight. *)
Definition sums_ok (s t : float) : Prop :=
  Prim2SF t = S754_infinity false
  \/ exists vs vt, nonneg s vs /\ nonneg t vt /\ (vs <= vt)%R.

End Binary64Definitions.

(** ** Two runs compared *)

(** The invariant of two runs of the loop of [aggregate_results] over the
    same weights: the total weight has overflowed, or the three sums are
    non-negative finite numbers, the first weighted sum does not exceed the
    second, and the second does not exceed the total weight. *)
Definition sums_le (s s' t : float) : Prop :=
  Prim2SF t = S754_infinity false
  \/ exists vs vs' vt, nonneg s vs /\ nonneg s' vs' /\ nonneg t vt
                       /\ (vs <= vs')%R /\ (vs' <= vt)%R.

(** Two outcomes with the same weight, the second at least as confident as
    the first. *)
Definition no_more_confident (o o' : string * float * method_result) : Prop :=
  snd (fst o) = snd (fst o')
  /\ well_scaled o /\ well_scaled o'
  /\ (mr_confidence_score (snd o) <=? mr_confidence_score (snd o'))%float = true.

(** The same detectors fail in both runs, and every other one is at least
    as confident in the second run as in the first. *)
Definition same_failures_no_more_confident
    (o o' : string * float * method_result) : Prop :=
  failed (snd o) = failed (snd o')
  /\ (failed (snd o) = false -> no_more_confident o o').

(** The second dictionary reports a failure exactly when the first one
    does, and otherwise both confidences lie in [[0,1]], the second not
    below the first. *)
Definition at_most_as_confident (m m' : method_result) : Prop :=
  failed m = failed m'
  /\ (failed m = false ->
      (0 <=? mr_confidence_score m)%float = true
      /\ (mr_confidence_score m <=? mr_confidence_score m')%float = true
      /\ (mr_confidence_score m' <=? 1)%float = true).

(** An outcome with its confidence replaced. *)
Definition with_confidence (c : float) (o : string * float * method_result)
    : string * float * method_result :=
  (fst o, MethodResult (mr_is_ai_generated (snd o)) c None None None None None
                       None None).

(** ** [utils/metadata_analysis.py] and [utils/image_processing.py] *)

(** Python's [max(a, b)] on floats: [b] only when [b > a]. *)
Definition py_max (a b : float) : float :=
  if (a <? b)%float then b else a.

(** [ai_software_patterns], the regular expressions of
    [analyze_exif_metadata]. *)
Definition ai_software_patterns : list string :=
  [ "(?i)stable\s*diffusion"; "(?i)dall\s*[- ]?e"; "(?i)midjourney";
    "(?i)generative"; "(?i)gan"; "(?i)neural"; "(?i)deep\s*dream";
    "(?i)ai\s*image"; "(?i)openai" ].

(** [key in exif_tags] *)
Definition has_key (exif_tags : gmap string string) (key : string) : bool :=
  match exif_tags !! key with
  | Some _ => true
  | None => false
  end.

(** [if condition: results['anomalies'].append(anomaly)] *)
Definition note_if (condition : bool) (anomaly : string)
    (anomalies : list string) : list string :=
  if condition then (anomalies ++ [anomaly])%list else anomalies.

(** The last block of [analyze_exif_metadata]: verdict and confidence from
    the number of anomalies.  The count is an integer; multiplying it by a
    float converts it. *)
Definition suspicion_level (anomalies : list string)
    : outcome (bool * float * list string) :=
  let anomaly_count := Z.of_nat (length anomalies) in
  if (4 <=? anomaly_count)%Z then
    n ← float_of_int (anomaly_count - 4);
    mret (true, py_min (0.7 + n * 0.05) 0.9, anomalies)
  else if (2 <=? anomaly_count)%Z then
    n ← float_of_int (anomaly_count - 2);
    mret (true, (0.5 + n * 0.1)%float, anomalies)
  else
    n ← float_of_int anomaly_count;
    mret (false, py_max (0.3 - n * 0.15) 0.0, anomalies).

Section Utilities.
(** [re.search(pattern, text)] found a match: Python's own; the analysis is
    verified for any such function. *)
Variable re_search : string -> string -> bool.

(** The value of ['Image Software'] when one of the patterns matches it. *)
Definition ai_software (exif_tags : gmap string string) : option string :=
  match exif_tags !! "Image Software" with
  | Some software =>
      if existsb (fun pattern => re_search pattern software) ai_software_patterns
      then Some software else None
  | None => None
  end.

(** The anomalies noted before the software check. *)
Definition camera_anomalies (exif_tags : gmap string string) : list string :=
  let anomalies :=
    note_if (negb (has_key exif_tags "Image Make")
             && negb (has_key exif_tags "Image Model"))
            "No camera make or model information" [] in
  let anomalies :=
    note_if (negb (has_key exif_tags "EXIF LensModel")
             && negb (has_key exif_tags "EXIF LensInfo"))
            "No lens information" anomalies in
  note_if (negb (has_key exif_tags "EXIF ExposureTime")
           || negb (has_key exif_tags "EXIF FNumber")
           || negb (has_key exif_tags "EXIF ISOSpeedRatings"))
          "Incomplete exposure settings" anomalies.

(** The anomalies noted after it. *)
Definition context_anomalies (exif_tags : gmap string string)
    (anomalies : list string) : list string :=
  let anomalies :=
    note_if
      match exif_tags !! "EXIF DateTimeOriginal",
            exif_tags !! "EXIF DateTimeDigitized" with
      | Some original_date, Some digitized_date =>
          negb (String.eqb original_date digitized_date)
      | _, _ => false
      end
      "Inconsistent creation dates" anomalies in
  let has_gps :=
    existsb (fun key => String.prefix "GPS " key)
            (map fst (map_to_list exif_tags)) in
  note_if (negb has_gps) "No GPS information" anomalies.

(** The body of the [try] of [analyze_exif_metadata], on the dictionary of
    tags with each tag printed ([str(tag)]). *)
Definition exif_analysis (exif_tags : gmap string string)
    : outcome (bool * float * list string) :=
  if bool_decide (exif_tags = ∅) then
    mret (true, 0.7%float, ["No EXIF metadata found"])
  else
    let anomalies := camera_anomalies exif_tags in
    match ai_software exif_tags with
    | Some software =>
        mret (true, 0.95%float,
              (anomalies ++ [("AI software detected: " ++ software)%string])%list)
    | None => suspicion_level (context_anomalies exif_tags anomalies)
    end.

(** [analyze_exif_metadata]: [(is_suspicious, confidence, anomalies)]. *)
Definition analyze_exif_metadata (exif_tags : gmap string string)
    : bool * float * list string :=
  try_except (exif_analysis exif_tags)
             (fun e => (false, 0%float, ["Error during analysis: " ++ e])).

(** What the utilities call outside the repository: the EXIF reader
    ([open] and [exifread.process_file]), the error-level measurement with
    the mean of its features, the seven statistics of the noise residual,
    [np.mean], and the texture measurement up to [smoothness_score].  Each
    of the measurements may raise. *)
Variable read_exif : string -> outcome (gmap string string).
Variable ela_measure : string -> outcome (float * string).
Variable prnu_statistics : string -> outcome (list float).
Variable np_mean : list float -> float.
Variable texture_measure : string -> outcome float.

(** [extract_prnu_features]: [np.zeros(7)] on any exception. *)
Definition extract_prnu_features (image_path : string) : list float :=
  try_except (prnu_statistics image_path) (fun _ => repeat 0%float 7).

(** [analyze_texture_smoothness]: the score clamped by
    [min(max(smoothness_score, 0), 1)], and 0.5 on any exception.  (Python
    keeps the integers 0 and 1 of the clamp; they are the floats 0.0 and
    1.0 here.) *)
Definition analyze_texture_smoothness (image_path : string) : float :=
  try_except
    (smoothness_score ← texture_measure image_path;
     mret (py_min (py_max smoothness_score 0) 1))
    (fun _ => 0.5%float).

(** The adapters' collaborators, as these utilities provide them. *)
Definition utilities : collaborators :=
  Collaborators
    (fun image_path =>
       exif_tags ← read_exif image_path;
       mret (analyze_exif_metadata exif_tags))
    ela_measure
    (fun image_path => mret (np_mean (extract_prnu_features image_path)))
    (fun image_path => mret (analyze_texture_smoothness image_path)).
End Utilities.

Module Uploads.
(** No software tag matches. *)
Definition no_match : string -> string -> bool := fun _ _ => false.

(** A mean for the examples: the sum from left to right over the length. *)
Definition sequential_mean (l : list float) : float :=
  (fold_left (fun s x => s + x) l 0
   / SF2Prim (binary_normalize prec emax (Z.of_nat (length l)) 0 false))%float.

(** A flatbed scan: the scanner is named, and there is no lens, no exposure
    and no position. *)
Definition scanner_tags : gmap string string :=
  {[ "Image Make" := "Canon"; "Image Model" := "LiDE 300" ]}.

Definition read_scan : string -> outcome (gmap string string) :=
  fun _ => Return scanner_tags.

Definition ela_of_scan : string -> outcome (float * string) :=
  fun _ => Return (0.2%float, "ela.png").

Definition noise_of_scan : string -> outcome (list float) :=
  fun _ => Return [0.5; 0.75; 0.5; 1.0; 0.25; 0.5; 0.75]%float.

Definition texture_of_scan : string -> outcome float :=
  fun _ => Return 1.25%float.

Definition scan : collaborators :=
  utilities no_match read_scan ela_of_scan noise_of_scan sequential_mean
            texture_of_scan.

(** A file that is not an image: no EXIF tag is found, and neither the
    sensor noise nor the texture can be measured. *)
Definition read_nothing : string -> outcome (gmap string string) :=
  fun _ => Return ∅.

Definition cannot_load {A} : string -> outcome A :=
  fun _ => Raise "Could not load image".

Definition not_an_image : collaborators :=
  utilities no_match read_nothing ela_of_scan cannot_load sequential_mean
            cannot_load.
End Uploads.

Module Stores.
(** A document store that is down. *)
Definition unreachable : store := fun _ _ => Raise "connection refused".

(** A document store that finds no document to modify. *)
Definition unmodified : store := fun _ _ => Return false.
End Stores.

(** ** The wording of the summary *)

(** The wording [generate_result_summary] has for a detector, if any. *)
Definition indicator (factor_name : string) : option string :=
  if String.eqb factor_name "metadata_analysis" then
    Some "suspicious metadata patterns"
  else if String.eqb factor_name "ela_analysis" then
    Some "error level analysis"
  else if String.eqb factor_name "prnu_analysis" then
    Some "photo response non-uniformity"
  else if String.eqb factor_name "texture_analysis" then
    Some "unnatural texture smoothness"
  else if String.eqb factor_name "vit_model" then
    Some "Vision Transformer model detection"
  else if String.eqb factor_name "resnet_model" then
    Some "ResNet model detection"
  else None.

(** The description of a contributing factor: the wording of its detector
    and its contribution as a percentage. *)
Definition factor_description (percent : float -> string)
    (c : contributing_factor) : option string :=
  (fun wording => wording ++ " (" ++ percent (cf_contribution c) ++ " confidence)")
    <$> indicator (cf_factor c).

(** ** [allowed_file] *)

(** [s.rsplit(sep, 1)] for a one-character separator: the string itself
    when it has no separator, and otherwise what comes before the last
    separator and what comes after it. *)
Fixpoint rsplit1 (sep : ascii) (s : string) : list string :=
  match s with
  | EmptyString => [EmptyString]
  | String c s' =>
      match rsplit1 sep s' with
      | [tail] =>
          if Ascii.eqb c sep then [EmptyString; tail] else [String c tail]
      | head :: rest => String c head :: rest
      | [] => []
      end
  end.

(** [l[i]] *)
Definition list_item {A} (l : list A) (i : nat) : outcome A :=
  match l !! i with
  | Some x => Return x
  | None => Raise "list index out of range"
  end.

(** [ALLOWED_EXTENSIONS], as [create_app] configures it. *)
Definition ALLOWED_EXTENSIONS : gset string :=
  {[ "png"; "jpg"; "jpeg"; "gif"; "bmp"; "tiff"; "webp"; "mp4"; "mov"; "avi";
     "webm" ]}.

(** [allowed_file], for the configured set of extensions.  [lower] is
    [str.lower] on the ASCII letters; the only other character whose lower
    case is an ASCII letter is the Kelvin sign, for a k. *)
Definition allowed_file (allowed_extensions : gset string) (filename : string)
    : outcome bool :=
  if contains "." filename then
    extension ← list_item (rsplit1 "." filename) 1;
    mret (bool_decide (lower extension ∈ allowed_extensions))
  else mret false.


(** * Properties *)

(** ** Binary64 arithmetic *)

Section Binary64.
#[local] Open Scope Z_scope.

Lemma pow2_pos e : (0 < pow2 e)%R.
Proof. apply powerRZ_lt. lra. Qed.

Lemma pow2_add a b : pow2 (a + b) = (pow2 a * pow2 b)%R.
Proof. apply powerRZ_add. lra. Qed.

Lemma pow2_0 : pow2 0 = 1%R.
Proof. reflexivity. Qed.

Lemma pow2_1 : pow2 1 = 2%R.
Proof. unfold pow2. simpl. lra. Qed.

Lemma pow2_succ e : pow2 (e + 1) = (2 * pow2 e)%R.
Proof. rewrite pow2_add, pow2_1. lra. Qed.

Lemma pow2_sub a b : pow2 (a - b) = (pow2 a / pow2 b)%R.
Proof.
  assert (H : pow2 a = (pow2 (a - b) * pow2 b)%R).
  { rewrite <- pow2_add. f_equal. lia. }
  rewrite H. field. pose proof (pow2_pos b). lra.
Qed.

Lemma pow2_IZR n : 0 <= n -> pow2 n = IZR (2 ^ n).
Proof.
  intros Hn. unfold pow2. destruct n as [|p|p]; [reflexivity| |lia].
  unfold powerRZ. rewrite pow_IZR. f_equal.
  by rewrite positive_nat_Z.
Qed.

Lemma pow2_ge_1 n : 0 <= n -> (1 <= pow2 n)%R.
Proof.
  intros Hn. rewrite pow2_IZR by done. apply IZR_le.
  pose proof (Z.pow_pos_nonneg 2 n ltac:(lia) Hn). lia.
Qed.

Lemma pow2_le a b : a <= b -> (pow2 a <= pow2 b)%R.
Proof.
  intros H. replace b with (a + (b - a)) by lia. rewrite pow2_add.
  pose proof (pow2_pos a). pose proof (pow2_ge_1 (b - a) ltac:(lia)). nra.
Qed.

Lemma pow2_lt a b : a < b -> (pow2 a < pow2 b)%R.
Proof.
  intros H. replace b with (a + 1 + (b - a - 1)) by lia.
  rewrite pow2_add, pow2_succ.
  pose proof (pow2_pos a). pose proof (pow2_ge_1 (b - a - 1) ltac:(lia)). nra.
Qed.

Lemma pow2_lt_inv a b : (pow2 a < pow2 b)%R -> a < b.
Proof.
  intros H. destruct (Z_lt_le_dec a b) as [|Hle]; [done|].
  apply pow2_le in Hle. lra.
Qed.

Lemma pow2_le_inv a b : (pow2 a <= pow2 b)%R -> a <= b.
Proof.
  intros H. destruct (Z_le_gt_dec a b) as [|Hgt]; [done|].
  apply Z.gt_lt, pow2_lt in Hgt. lra.
Qed.

(** The number of binary digits. *)
Lemma digits2_pos_bounds m :
  2 ^ (Z.pos (digits2_pos m) - 1) <= Z.pos m < 2 ^ Z.pos (digits2_pos m).
Proof.
  induction m as [m IH|m IH|]; cbn [digits2_pos].
  - rewrite Pos2Z.inj_succ.
    replace (Z.succ (Z.pos (digits2_pos m)) - 1) with (Z.succ (Z.pos (digits2_pos m) - 1)) by lia.
    rewrite !Z.pow_succ_r by lia. lia.
  - rewrite Pos2Z.inj_succ.
    replace (Z.succ (Z.pos (digits2_pos m)) - 1) with (Z.succ (Z.pos (digits2_pos m) - 1)) by lia.
    rewrite !Z.pow_succ_r by lia. lia.
  - cbn. lia.
Qed.

Lemma Zdigits2_bounds m :
  0 < m -> 2 ^ (Zdigits2 m - 1) <= m < 2 ^ Zdigits2 m.
Proof. destruct m as [|p|p]; try lia. intros _. apply digits2_pos_bounds. Qed.

Lemma Zdigits2_pos m : 0 < m -> 0 < Zdigits2 m.
Proof. destruct m; cbn; lia. Qed.

Lemma Zdigits2_unique m d :
  0 < d -> 2 ^ (d - 1) <= m < 2 ^ d -> Zdigits2 m = d.
Proof.
  intros Hd [H1 H2].
  assert (Hm : 0 < m) by (pose proof (Z.pow_pos_nonneg 2 (d - 1) ltac:(lia) ltac:(lia)); lia).
  pose proof (Zdigits2_bounds m Hm) as [H3 H4].
  pose proof (Zdigits2_pos m Hm).
  assert (Zdigits2 m - 1 < d) by (apply (Z.pow_lt_mono_r_iff 2); lia).
  assert (d - 1 < Zdigits2 m) by (apply (Z.pow_lt_mono_r_iff 2); lia).
  lia.
Qed.

Lemma fexp_fexp64 k : fexp prec emax k = fexp64 k.
Proof. reflexivity. Qed.

(** ** Truncation with a location *)

Lemma loc_ok_bounds y m l : loc_ok y m l -> (IZR m <= y < IZR m + 1)%R.
Proof. destruct l as [|[]]; cbn; lra. Qed.

Lemma rec_ok_of_loc y m l :
  0 <= m -> loc_ok y m l -> rec_ok y (shr_record_of_loc m l).
Proof. intros Hm Hl. split; destruct l as [|[]]; cbn; done. Qed.

Lemma shr_1_ok y mrs : rec_ok y mrs -> rec_ok (y / 2) (shr_1 mrs).
Proof.
  destruct mrs as [m r s]. unfold rec_ok. cbn [shr_m]. intros [Hm Hl].
  destruct m as [|[p|p|]|p]; [| | | |lia].
  - destruct r, s; cbn [shr_1 shr_m loc_of_shr_record loc_ok orb] in *;
      (split; [lia|lra]).
  - destruct r, s; cbn [shr_1 shr_m loc_of_shr_record loc_ok orb] in *;
      rewrite (IZR_POS_xI p) in Hl; (split; [lia|lra]).
  - destruct r, s; cbn [shr_1 shr_m loc_of_shr_record loc_ok orb] in *;
      rewrite (IZR_POS_xO p) in Hl; (split; [lia|lra]).
  - destruct r, s; cbn [shr_1 shr_m loc_of_shr_record loc_ok orb] in *;
      (split; [lia|lra]).
Qed.

Lemma iter_shr_1_ok p : forall y mrs,
  rec_ok y mrs -> rec_ok (y / pow2 (Z.pos p)) (SpecFloat.iter_pos shr_1 p mrs).
Proof.
  induction p as [p IH|p IH|]; intros y mrs H; cbn [SpecFloat.iter_pos].
  - apply shr_1_ok, IH, IH in H.
    replace (y / pow2 (Z.pos p~1))%R with (y / 2 / pow2 (Z.pos p) / pow2 (Z.pos p))%R;
      [done|].
    replace (Z.pos p~1) with (Z.pos p + Z.pos p + 1) by lia.
    rewrite pow2_succ, pow2_add. field. pose proof (pow2_pos (Z.pos p)). lra.
  - apply IH, IH in H.
    replace (y / pow2 (Z.pos p~0))%R with (y / pow2 (Z.pos p) / pow2 (Z.pos p))%R;
      [done|].
    replace (Z.pos p~0) with (Z.pos p + Z.pos p) by lia.
    rewrite pow2_add. field. pose proof (pow2_pos (Z.pos p)). lra.
  - apply shr_1_ok in H. by rewrite pow2_1.
Qed.

Lemma shr_ok y mrs e n :
  rec_ok y mrs -> 0 <= n ->
  rec_ok (y / pow2 n) (fst (shr mrs e n)) /\ snd (shr mrs e n) = e + n.
Proof.
  intros H Hn. destruct n as [|p|p]; [| |lia]; cbn [shr fst snd].
  - split; [|lia]. rewrite pow2_0. by replace (y / 1)%R with y by lra.
  - split; [|done]. by apply iter_shr_1_ok.
Qed.

Lemma shr_nop mrs e n : n <= 0 -> shr mrs e n = (mrs, e).
Proof. destruct n; [done|lia|done]. Qed.

(** ** Rounding to the nearest integer, ties to even *)

Lemma round_nearest_even_ok y m l :
  loc_ok y m l -> rne y (round_nearest_even m l).
Proof.
  unfold rne. destruct l as [|[]]; cbn [loc_ok round_nearest_even]; intros H.
  - split; [lra|]. intros [|]; lra.
  - destruct (Z.even m) eqn:He.
    + split; [lra|]. done.
    + rewrite plus_IZR. split; [lra|]. intros _.
      by rewrite Z.even_add, He.
  - split; [lra|]. intros [|]; lra.
  - rewrite plus_IZR. split; [lra|]. intros [|]; lra.
Qed.

Lemma round_nearest_even_range m l :
  m <= round_nearest_even m l <= m + 1.
Proof. destruct l as [|[]]; cbn; try lia. destruct (Z.even m); lia. Qed.

Lemma rne_IZR n : rne (IZR n) n.
Proof. split; [lra|]. intros [|]; lra. Qed.

Lemma rne_mono y y' n n' : rne y n -> rne y' n' -> (y <= y')%R -> n <= n'.
Proof.
  intros [Hy Hey] [Hy' Hey'] Hle.
  destruct (Z_le_gt_dec n n') as [|Hgt]; [done|exfalso].
  assert (H1 : (IZR n' + 1 <= IZR n)%R).
  { rewrite <- plus_IZR. apply IZR_le. lia. }
  assert (E1 : y = (IZR n - / 2)%R) by lra.
  assert (E2 : y' = (IZR n' + / 2)%R) by lra.
  assert (E3 : IZR n = (IZR n' + 1)%R) by lra.
  rewrite <- plus_IZR in E3. apply eq_IZR in E3.
  pose proof (Hey (or_introl E1)) as Hn.
  pose proof (Hey' (or_intror E2)) as Hn'.
  rewrite E3, Z.even_add, Hn' in Hn. discriminate Hn.
Qed.

Lemma rne_le y n N : rne y n -> (y <= IZR N)%R -> n <= N.
Proof. intros H Hy. exact (rne_mono y (IZR N) n N H (rne_IZR N) Hy). Qed.

Lemma rne_ge y n N : rne y n -> (IZR N <= y)%R -> N <= n.
Proof. intros H Hy. exact (rne_mono (IZR N) y N n (rne_IZR N) H Hy). Qed.

(** ** The rounding of binary64, on real numbers *)

Lemma rne_scaled_mono x x' e n n' :
  rne (x / pow2 e) n -> rne (x' / pow2 e) n' -> (x <= x')%R ->
  (IZR n * pow2 e <= IZR n' * pow2 e)%R.
Proof.
  intros H H' Hx. pose proof (pow2_pos e) as He.
  assert (Hn : n <= n').
  { apply (rne_mono _ _ _ _ H H'). unfold Rdiv.
    apply Rmult_le_compat_r; [|done].
    left. by apply Rinv_0_lt_compat. }
  apply IZR_le in Hn. nra.
Qed.

Lemma rne_scaled_le x e n K :
  rne (x / pow2 e) n -> (x <= pow2 K)%R -> e <= K ->
  (IZR n * pow2 e <= pow2 K)%R.
Proof.
  intros H Hx HK. pose proof (pow2_pos e) as He.
  assert (Hn : n <= 2 ^ (K - e)).
  { apply (rne_le _ _ _ H). rewrite <- pow2_IZR by lia. rewrite pow2_sub.
    unfold Rdiv. apply Rmult_le_compat_r; [|done].
    left. by apply Rinv_0_lt_compat. }
  apply IZR_le in Hn. rewrite <- pow2_IZR in Hn by lia.
  assert (HK2 : pow2 K = (pow2 (K - e) * pow2 e)%R)
    by (rewrite <- pow2_add; f_equal; lia).
  nra.
Qed.

Lemma rne_scaled_ge x e n K :
  rne (x / pow2 e) n -> (pow2 K <= x)%R -> e <= K ->
  (pow2 K <= IZR n * pow2 e)%R.
Proof.
  intros H Hx HK. pose proof (pow2_pos e) as He.
  assert (Hn : 2 ^ (K - e) <= n).
  { apply (rne_ge _ _ _ H). rewrite <- pow2_IZR by lia. rewrite pow2_sub.
    unfold Rdiv. apply Rmult_le_compat_r; [|done].
    left. by apply Rinv_0_lt_compat. }
  apply IZR_le in Hn. rewrite <- pow2_IZR in Hn by lia.
  assert (HK2 : pow2 K = (pow2 (K - e) * pow2 e)%R)
    by (rewrite <- pow2_add; f_equal; lia).
  nra.
Qed.

(** Rounding is monotone. *)
Theorem is_rnd_mono x x' v v' :
  (x <= x')%R -> is_rnd x v -> is_rnd x' v' -> (v <= v')%R.
Proof.
  intros Hx (e & n & Hc & Hn & ->) (e' & n' & Hc' & Hn' & ->).
  destruct Hc as [[-> Hs]|(k & Hk & -> & Hmin)];
    destruct Hc' as [[-> Hs']|(k' & Hk' & -> & Hmin')].
  - exact (rne_scaled_mono x x' _ _ _ Hn Hn' Hx).
  - destruct (Z.eq_dec (k' - 53) (-1074)) as [Heq|Hne].
    + rewrite Heq in *. exact (rne_scaled_mono x x' _ _ _ Hn Hn' Hx).
    + apply Rle_trans with (pow2 (-1021)).
      * apply (rne_scaled_le x); [done|lra|lia].
      * apply Rle_trans with (pow2 (k' - 1)); [apply pow2_le; lia|].
        apply (rne_scaled_ge x'); [done|lra|lia].
  - assert (k - 1 < -1021) by (apply pow2_lt_inv; lra).
    replace (k - 53) with (-1074) in * by lia.
    exact (rne_scaled_mono x x' _ _ _ Hn Hn' Hx).
  - destruct (Z_dec k k') as [[Hlt|Hgt]|Heq].
    + apply Rle_trans with (pow2 k).
      * apply (rne_scaled_le x); [done|lra|lia].
      * apply Rle_trans with (pow2 (k' - 1)); [apply pow2_le; lia|].
        apply (rne_scaled_ge x'); [done|lra|lia].
    + exfalso. assert (pow2 k' <= pow2 (k - 1))%R by (apply pow2_le; lia). lra.
    + subst k'. exact (rne_scaled_mono x x' _ _ _ Hn Hn' Hx).
Qed.

(** A number of the format rounds to itself. *)
Lemma is_rnd_exact m e :
  0 < m -> -1074 <= e -> fexp64 (Zdigits2 m + e) <= e ->
  is_rnd (IZR m * pow2 e) (IZR m * pow2 e).
Proof.
  intros Hm He Hf. pose proof (Zdigits2_bounds m Hm) as [H1 H2].
  pose proof (Zdigits2_pos m Hm) as Hd.
  set (d := Zdigits2 m) in *. set (c := fexp64 (d + e)).
  assert (Hx : (pow2 (d + e - 1) <= IZR m * pow2 e < pow2 (d + e))%R).
  { pose proof (pow2_pos e).
    replace (d + e - 1) with (d - 1 + e) by lia. rewrite !pow2_add.
    rewrite (pow2_IZR (d - 1)), (pow2_IZR d) by lia.
    apply IZR_le in H1. apply IZR_lt in H2. nra. }
  exists c, (m * 2 ^ (e - c)). split; [|split].
  - unfold c, fexp64 in *. destruct (Z.max_spec (d + e - 53) (-1074)) as [[? ->]|[? ->]].
    + left. split; [done|]. apply Rlt_le_trans with (pow2 (d + e)); [lra|].
      apply pow2_le. lia.
    + right. exists (d + e). split; [done|]. lia.
  - replace (IZR m * pow2 e / pow2 c)%R with (IZR (m * 2 ^ (e - c)))%R;
      [apply rne_IZR|].
    rewrite mult_IZR, <- pow2_IZR by (unfold c; lia). rewrite pow2_sub.
    unfold Rdiv. ring.
  - rewrite mult_IZR, <- pow2_IZR by (unfold c; lia). rewrite pow2_sub.
    field. pose proof (pow2_pos c). lra.
Qed.

(** ** [binary_round_aux] computes that rounding *)

Lemma div_pow2_lt x e K :
  (x < pow2 K)%R -> (x / pow2 e < pow2 (K - e))%R.
Proof.
  intros H. rewrite pow2_sub. unfold Rdiv.
  apply Rmult_lt_compat_r; [|done]. apply Rinv_0_lt_compat, pow2_pos.
Qed.

Lemma div_pow2_le x e K :
  (pow2 K <= x)%R -> (pow2 (K - e) <= x / pow2 e)%R.
Proof.
  intros H. rewrite pow2_sub. unfold Rdiv.
  apply Rmult_le_compat_r; [|done]. left. apply Rinv_0_lt_compat, pow2_pos.
Qed.

Lemma mul_pow2_bounds y m e :
  (IZR m <= y / pow2 e < IZR m + 1)%R ->
  (IZR m * pow2 e <= y < (IZR m + 1) * pow2 e)%R.
Proof.
  intros [H1 H2]. pose proof (pow2_pos e) as He.
  assert (Hy : y = (y / pow2 e * pow2 e)%R) by (field; lra).
  split; rewrite Hy at 1 || rewrite Hy; nra.
Qed.

Lemma round_setup x mx ex lx :
  0 <= mx -> loc_ok (x / pow2 ex) mx lx ->
  ex <= fexp64 (Zdigits2 mx + ex) ->
  (mx = 0 -> ex <= -1074) ->
  canonical_exp x (fexp64 (Zdigits2 mx + ex))
  /\ (x / pow2 (fexp64 (Zdigits2 mx + ex)) < IZR (2 ^ 53))%R
  /\ (-1074 < fexp64 (Zdigits2 mx + ex) ->
      (IZR (2 ^ 52) <= x / pow2 (fexp64 (Zdigits2 mx + ex)))%R)
  /\ -1074 <= fexp64 (Zdigits2 mx + ex).
Proof.
  intros Hmx Hl Hex H0.
  apply loc_ok_bounds, mul_pow2_bounds in Hl. destruct Hl as [Hlo Hhi].
  assert (Hmin : -1074 <= fexp64 (Zdigits2 mx + ex)) by (unfold fexp64; lia).
  destruct (Z.eq_dec mx 0) as [->|Hne].
  - specialize (H0 eq_refl). cbn [Zdigits2] in *.
    replace (fexp64 (0 + ex)) with (-1074) in * by (unfold fexp64; lia).
    assert (Hx : (x < pow2 (-1074))%R).
    { apply Rlt_le_trans with (pow2 ex); [lra|]. by apply pow2_le. }
    split; [|split; [|split]].
    + left. split; [done|]. apply Rlt_trans with (pow2 (-1074)); [done|].
      by apply pow2_lt.
    + apply Rlt_le_trans with (pow2 (-1074 - -1074)).
      * by apply div_pow2_lt.
      * rewrite <- pow2_IZR by lia. apply pow2_le. lia.
    + lia.
    + lia.
  - assert (Hpos : 0 < mx) by lia.
    pose proof (Zdigits2_bounds mx Hpos) as [H1 H2].
    pose proof (Zdigits2_pos mx Hpos) as Hd.
    set (d := Zdigits2 mx) in *.
    assert (Hx : (pow2 (d + ex - 1) <= x < pow2 (d + ex))%R).
    { pose proof (pow2_pos ex).
      replace (d + ex - 1) with (d - 1 + ex) by lia. rewrite !pow2_add.
      rewrite (pow2_IZR (d - 1)), (pow2_IZR d) by lia.
      assert (H2' : mx + 1 <= 2 ^ d) by lia.
      apply IZR_le in H1. apply IZR_le in H2'. rewrite plus_IZR in H2'. nra. }
    destruct Hx as [Hx1 Hx2].
    split; [|split; [|split]].
    + unfold fexp64 in *.
      destruct (Z.max_spec (d + ex - 53) (-1074)) as [[? ->]|[? ->]].
      * left. split; [done|]. apply Rlt_le_trans with (pow2 (d + ex)); [done|].
        apply pow2_le. lia.
      * right. exists (d + ex). split; [done|]. lia.
    + apply Rlt_le_trans with (pow2 (d + ex - fexp64 (d + ex))).
      * by apply div_pow2_lt.
      * rewrite <- pow2_IZR by lia. apply pow2_le. unfold fexp64. lia.
    + intros Hn.
      apply Rle_trans with (pow2 (d + ex - 1 - fexp64 (d + ex))).
      * rewrite <- pow2_IZR by lia. apply pow2_le. unfold fexp64 in *. lia.
      * by apply div_pow2_le.
    + done.
Qed.

Lemma Zdigits2_le_53 m : 0 < m < 2 ^ 53 -> Zdigits2 m <= 53.
Proof.
  intros [H0 H1]. pose proof (Zdigits2_bounds m H0) as [H2 _].
  pose proof (Zdigits2_pos m H0).
  assert (Zdigits2 m - 1 < 53) by (apply (Z.pow_lt_mono_r_iff 2); lia).
  lia.
Qed.

(** The second [shr_fexp] of [binary_round_aux]: it only renormalises a
    mantissa that the rounding carried to [2^53]. *)
Lemma renormalise m1 e :
  0 <= m1 <= 2 ^ 53 -> -1074 <= e ->
  exists m2 e2,
    shr_fexp prec emax m1 e loc_Exact = (Build_shr_record m2 false false, e2)
    /\ (IZR m2 * pow2 e2 = IZR m1 * pow2 e)%R
    /\ ((m2 = m1 /\ e2 = e /\ m1 < 2 ^ 53)
        \/ (m2 = 2 ^ 52 /\ e2 = e + 1 /\ m1 = 2 ^ 53)).
Proof.
  intros Hm He. unfold shr_fexp. rewrite fexp_fexp64.
  cbn [shr_record_of_loc].
  destruct (Z.eq_dec m1 (2 ^ 53)) as [->|Hne].
  - exists (2 ^ 52), (e + 1).
    replace (fexp64 (Zdigits2 (2 ^ 53) + e) - e) with 1
      by (change (Zdigits2 (2 ^ 53)) with 54; unfold fexp64; lia).
    split; [reflexivity|]. split; [|right; done].
    rewrite pow2_succ. change (2 ^ 53) with (2 * 2 ^ 52). rewrite mult_IZR. ring.
  - exists m1, e. rewrite shr_nop.
    + split; [done|]. split; [done|]. left. lia.
    + destruct (Z.eq_dec m1 0) as [->|Hne0].
      * cbn [Zdigits2]. unfold fexp64. lia.
      * pose proof (Zdigits2_le_53 m1 ltac:(lia)). unfold fexp64. lia.
Qed.

(** What [binary_round_aux] returns for a non-negative real [x] given by a
    truncated mantissa and a location. *)
Theorem binary_round_aux_correct x mx ex lx :
  0 <= mx -> loc_ok (x / pow2 ex) mx lx ->
  ex <= fexp64 (Zdigits2 mx + ex) ->
  (mx = 0 -> ex <= -1074) ->
  exists m e,
    binary_round_aux prec emax false mx ex lx = finish m e
    /\ 0 <= m < 2 ^ 53 /\ -1074 <= e /\ (-1074 < e -> 2 ^ 52 <= m)
    /\ is_rnd x (IZR m * pow2 e).
Proof.
  intros Hmx Hl Hex H0.
  destruct (round_setup x mx ex lx Hmx Hl Hex H0) as (Hc & Hub & Hlb & Hmin).
  unfold binary_round_aux. unfold shr_fexp at 1. rewrite fexp_fexp64.
  set (e := fexp64 (Zdigits2 mx + ex)) in *.
  pose proof (shr_ok (x / pow2 ex) (shr_record_of_loc mx lx) ex (e - ex)
                (rec_ok_of_loc _ _ _ Hmx Hl) ltac:(lia)) as [[Hm' Hl'] He'].
  destruct (shr (shr_record_of_loc mx lx) ex (e - ex)) as [mrs' e'].
  cbn [fst snd] in *.
  assert (e' = e) by lia. subst e'.
  replace (x / pow2 ex / pow2 (e - ex))%R with (x / pow2 e)%R in Hl'.
  2:{ rewrite pow2_sub. field. split; apply Rgt_not_eq, pow2_pos. }
  pose proof (round_nearest_even_ok _ _ _ Hl') as Hrne.
  pose proof (round_nearest_even_range (shr_m mrs') (loc_of_shr_record mrs'))
    as Hrange.
  set (m1 := round_nearest_even (shr_m mrs') (loc_of_shr_record mrs')) in *.
  assert (Hm1 : 0 <= m1 <= 2 ^ 53).
  { split; [lia|]. apply (rne_le _ _ _ Hrne). lra. }
  replace (ex + (e - ex)) with e by lia.
  destruct (renormalise m1 e Hm1 Hmin) as (m2 & e2 & -> & Hval & Hcases).
  cbn [shr_m].
  exists m2, e2. split; [|split; [|split; [|split]]].
  - unfold finish. destruct m2; reflexivity.
  - destruct Hcases as [(-> & _ & ?)|(-> & _ & _)]; lia.
  - destruct Hcases as [(_ & -> & _)|(_ & -> & _)]; lia.
  - intros He2. destruct Hcases as [(-> & -> & _)|(-> & _ & _)]; [|lia].
    apply (rne_ge _ _ _ Hrne). by apply Hlb.
  - rewrite Hval. by exists e, m1.
Qed.

(** ** The three operations on non-negative numbers *)

Lemma is_rnd_0 : is_rnd 0 0.
Proof.
  exists (-1074), 0. split; [|split].
  - left. split; [done|]. apply pow2_pos.
  - replace (0 / pow2 (-1074))%R with (IZR 0); [apply rne_IZR|].
    unfold Rdiv. ring.
  - ring.
Qed.

(** What validity says of a finite number. *)
Lemma valid_finite s m e :
  SpecFloat.valid_binary prec emax (S754_finite s m e) = true ->
  -1074 <= e <= 971
  /\ fexp64 (Zdigits2 (Z.pos m) + e) = e
  /\ Z.pos m < 2 ^ 53
  /\ (-1074 < e -> 2 ^ 52 <= Z.pos m).
Proof.
  cbn [SpecFloat.valid_binary]. unfold bounded, canonical_mantissa.
  intros [Hc He]%andb_prop.
  apply Z.eqb_eq in Hc. apply Z.leb_le in He.
  change (emax - prec) with 971 in He.
  pose proof (Zdigits2_bounds (Z.pos m) ltac:(lia)) as [H1 H2].
  pose proof (Zdigits2_pos (Z.pos m) ltac:(lia)) as Hd.
  set (d := Zdigits2 (Z.pos m)) in *.
  change (Z.max (d + e - 53) (-1074) = e) in Hc.
  assert (Hd53 : d <= 53) by lia.
  split; [lia|]. split; [done|]. split.
  - apply Z.lt_le_trans with (2 ^ d); [done|].
    apply Z.pow_le_mono_r; lia.
  - intros Hn. assert (d = 53) by lia.
    replace 52 with (d - 1) by lia. done.
Qed.

Lemma nonneg_val_ge_0 f v : nonneg_val f v -> (0 <= v)%R.
Proof.
  intros [s|m e _]; [lra|].
  pose proof (pow2_pos e). assert (0 < IZR (Z.pos m))%R by (by apply IZR_lt).
  nra.
Qed.

Lemma nonneg_val_rnd f v : nonneg_val f v -> is_rnd v v.
Proof.
  intros [s|m e Hv]; [apply is_rnd_0|].
  apply valid_finite in Hv as (He & Hf & _).
  apply is_rnd_exact; lia.
Qed.

Lemma finish_result m e v :
  0 <= m -> (-1074 < e -> 2 ^ 52 <= m) -> v = (IZR m * pow2 e)%R ->
  result_val (finish m e) v.
Proof.
  intros Hm Hlow ->. destruct m as [|p|p]; [| |lia]; cbn [finish].
  - left. exists false. split; [done|]. ring.
  - destruct (e <=? 971) eqn:He; [right; left; by exists p, e|].
    right. right. split; [done|]. apply Z.leb_gt in He.
    specialize (Hlow ltac:(lia)). apply IZR_le in Hlow.
    rewrite <- pow2_IZR in Hlow by lia.
    assert (H1 : (pow2 972 <= pow2 e)%R) by (apply pow2_le; lia).
    assert (H2 : pow2 1024 = (pow2 52 * pow2 972)%R) by (by rewrite <- pow2_add).
    pose proof (pow2_pos 52). pose proof (pow2_pos 972). nra.
Qed.

Lemma result_nonneg r v :
  result_val r v -> SpecFloat.valid_binary prec emax r = true ->
  (v < pow2 1024)%R -> nonneg_val r v.
Proof.
  intros [(s & -> & ->)|[(m & e & -> & ->)|[_ H]]] Hv Hlt.
  - constructor.
  - by constructor.
  - lra.
Qed.

Lemma round_result x mx ex lx :
  0 <= mx -> loc_ok (x / pow2 ex) mx lx ->
  ex <= fexp64 (Zdigits2 mx + ex) ->
  (mx = 0 -> ex <= -1074) ->
  exists v, is_rnd x v
            /\ result_val (binary_round_aux prec emax false mx ex lx) v.
Proof.
  intros Hmx Hl Hex H0.
  destruct (binary_round_aux_correct x mx ex lx Hmx Hl Hex H0)
    as (m & e & -> & Hm & He & Hlow & Hr).
  exists (IZR m * pow2 e)%R. split; [done|].
  apply finish_result; [lia|done|done].
Qed.

(** *** Multiplication *)

Lemma Zdigits2_mul_ge m1 m2 :
  0 < m1 -> 0 < m2 -> Zdigits2 m1 + Zdigits2 m2 - 1 <= Zdigits2 (m1 * m2).
Proof.
  intros H1 H2.
  pose proof (Zdigits2_bounds m1 H1) as [L1 _].
  pose proof (Zdigits2_bounds m2 H2) as [L2 _].
  pose proof (Zdigits2_pos m1 H1). pose proof (Zdigits2_pos m2 H2).
  pose proof (Zdigits2_bounds (m1 * m2) ltac:(lia)) as [_ U].
  pose proof (Zdigits2_pos (m1 * m2) ltac:(lia)).
  assert (L : 2 ^ (Zdigits2 m1 - 1 + (Zdigits2 m2 - 1)) <= m1 * m2).
  { rewrite Z.pow_add_r by lia.
    pose proof (Z.pow_pos_nonneg 2 (Zdigits2 m1 - 1) ltac:(lia) ltac:(lia)).
    pose proof (Z.pow_pos_nonneg 2 (Zdigits2 m2 - 1) ltac:(lia) ltac:(lia)).
    nia. }
  assert (Zdigits2 m1 - 1 + (Zdigits2 m2 - 1) < Zdigits2 (m1 * m2))
    by (apply (Z.pow_lt_mono_r_iff 2); lia).
  lia.
Qed.

Lemma mul_result a b va vb :
  nonneg_val a va -> nonneg_val b vb ->
  exists v, is_rnd (va * vb) v /\ result_val (SF64mul a b) v.
Proof.
  intros [sa|ma ea Ha] [sb|mb eb Hb].
  - exists 0%R. rewrite Rmult_0_l. split; [apply is_rnd_0|].
    left. by exists (xorb sa sb).
  - exists 0%R. rewrite Rmult_0_l. split; [apply is_rnd_0|].
    left. by exists (xorb sa false).
  - exists 0%R. rewrite Rmult_0_r. split; [apply is_rnd_0|].
    left. by exists (xorb false sb).
  - apply valid_finite in Ha as (Hea & Hfa & _).
    apply valid_finite in Hb as (Heb & Hfb & _).
    unfold SF64mul, SFmul. cbn [xorb].
    apply round_result.
    + lia.
    + cbn [loc_ok]. rewrite Pos2Z.inj_mul, mult_IZR, pow2_add.
      field. split; apply Rgt_not_eq, pow2_pos.
    + pose proof (Zdigits2_mul_ge (Z.pos ma) (Z.pos mb) ltac:(lia) ltac:(lia)).
      pose proof (Zdigits2_pos (Z.pos ma) ltac:(lia)).
      pose proof (Zdigits2_pos (Z.pos mb) ltac:(lia)).
      rewrite Pos2Z.inj_mul. unfold fexp64 in *. lia.
    + intros H. lia.
Qed.

(** *** Addition *)

Lemma pos_iter_xO m d : Z.pos (Pos.iter xO m d) = Z.pos m * 2 ^ Z.pos d.
Proof.
  induction d as [|d IH] using Pos.peano_ind.
  - cbn. lia.
  - rewrite Pos.iter_succ, Pos2Z.inj_xO, IH, Pos2Z.inj_succ, Z.pow_succ_r by lia.
    lia.
Qed.

Lemma shl_align_spec m e e0 :
  snd (shl_align m e e0) = Z.min e e0
  /\ Z.pos (fst (shl_align m e e0)) = Z.pos m * 2 ^ (e - Z.min e e0).
Proof.
  unfold shl_align. destruct (e0 - e) as [|d|d] eqn:Hd; cbn [fst snd].
  - replace (Z.min e e0) with e by lia. rewrite Z.sub_diag. lia.
  - replace (Z.min e e0) with e by lia. rewrite Z.sub_diag. lia.
  - replace (Z.min e e0) with e0 by lia. split; [done|].
    rewrite pos_iter_xO. f_equal. f_equal. lia.
Qed.

Lemma shl_align_value m e e0 :
  (IZR (Z.pos (fst (shl_align m e e0))) * pow2 (snd (shl_align m e e0))
   = IZR (Z.pos m) * pow2 e)%R.
Proof.
  destruct (shl_align_spec m e e0) as [-> ->].
  rewrite mult_IZR, <- pow2_IZR by lia.
  rewrite Rmult_assoc, <- pow2_add. do 2 f_equal. lia.
Qed.

Lemma Zdigits2_shift m j :
  0 < m -> 0 <= j -> Zdigits2 (m * 2 ^ j) = Zdigits2 m + j.
Proof.
  intros Hm Hj. pose proof (Zdigits2_bounds m Hm) as [L U].
  pose proof (Zdigits2_pos m Hm).
  pose proof (Z.pow_pos_nonneg 2 j ltac:(lia) Hj).
  apply Zdigits2_unique; [lia|].
  replace (Zdigits2 m + j - 1) with (Zdigits2 m - 1 + j) by lia.
  rewrite !Z.pow_add_r by lia. nia.
Qed.

Lemma binary_round_result m e :
  exists v, is_rnd (IZR (Z.pos m) * pow2 e) v
            /\ result_val (binary_round prec emax false m e) v.
Proof.
  unfold binary_round. rewrite fexp_fexp64.
  change (Z.pos (digits2_pos m)) with (Zdigits2 (Z.pos m)).
  set (e0 := fexp64 (Zdigits2 (Z.pos m) + e)).
  pose proof (shl_align_spec m e e0) as [He' Hm'].
  pose proof (shl_align_value m e e0) as Hval.
  destruct (shl_align m e e0) as [mz ez]. cbn [fst snd] in *.
  apply round_result.
  - lia.
  - cbn [loc_ok]. rewrite <- Hval. field. apply Rgt_not_eq, pow2_pos.
  - rewrite Hm', Zdigits2_shift by lia. subst ez.
    replace (Zdigits2 (Z.pos m) + (e - Z.min e e0) + Z.min e e0)
      with (Zdigits2 (Z.pos m) + e) by lia.
    fold e0. lia.
  - lia.
Qed.

Lemma add_result a b va vb :
  nonneg_val a va -> nonneg_val b vb ->
  exists v, is_rnd (va + vb) v /\ result_val (SF64add a b) v.
Proof.
  intros [sa|ma ea Ha] [sb|mb eb Hb].
  - exists 0%R. rewrite Rplus_0_l. split; [apply is_rnd_0|].
    left. destruct sa, sb; eexists; split; reflexivity.
  - exists (IZR (Z.pos mb) * pow2 eb)%R. rewrite Rplus_0_l.
    split; [by apply (nonneg_val_rnd (S754_finite false mb eb)); constructor|].
    right. left. by exists mb, eb.
  - exists (IZR (Z.pos ma) * pow2 ea)%R. rewrite Rplus_0_r.
    split; [by apply (nonneg_val_rnd (S754_finite false ma ea)); constructor|].
    right. left. by exists ma, ea.
  - unfold SF64add, SFadd. cbn [cond_Zopp].
    pose proof (shl_align_spec ma ea (Z.min ea eb)) as [Hea Hma].
    pose proof (shl_align_spec mb eb (Z.min ea eb)) as [Heb Hmb].
    pose proof (shl_align_value ma ea (Z.min ea eb)) as Hva.
    pose proof (shl_align_value mb eb (Z.min ea eb)) as Hvb.
    destruct (shl_align ma ea (Z.min ea eb)) as [ma' ea'].
    destruct (shl_align mb eb (Z.min ea eb)) as [mb' eb'].
    cbn [fst snd] in *.
    replace (Z.min ea (Z.min ea eb)) with (Z.min ea eb) in * by lia.
    replace (Z.min eb (Z.min ea eb)) with (Z.min ea eb) in * by lia.
    subst ea' eb'.
    change (Z.pos ma' + Z.pos mb') with (Z.pos (ma' + mb')).
    cbn [binary_normalize].
    replace (IZR (Z.pos ma) * pow2 ea + IZR (Z.pos mb) * pow2 eb)%R
      with (IZR (Z.pos (ma' + mb')) * pow2 (Z.min ea eb))%R.
    + apply binary_round_result.
    + rewrite <- Hva, <- Hvb, Pos2Z.inj_add, plus_IZR. ring.
Qed.

(** *** Division *)

Lemma new_location_ok q r m2 :
  0 < m2 -> 0 <= r < m2 ->
  loc_ok (IZR q + IZR r / IZR m2) q (new_location m2 r).
Proof.
  intros Hm2 [Hr0 Hr].
  assert (Hm2' : (0 < IZR m2)%R) by (by apply IZR_lt).
  assert (Hinv : (0 < / IZR m2)%R) by (by apply Rinv_0_lt_compat).
  assert (Hone : (IZR m2 * / IZR m2 = 1)%R) by (field; lra).
  unfold new_location, new_location_even, new_location_odd.
  destruct (Z.even m2) eqn:Hev; destruct (r =? 0) eqn:Hr0'.
  - apply Z.eqb_eq in Hr0' as ->. cbn [loc_ok]. unfold Rdiv. lra.
  - apply Z.eqb_neq in Hr0'.
    assert (0 < IZR r)%R by (apply IZR_lt; lia).
    destruct (Z.compare_spec (2 * r) m2) as [Heq|Hlt|Hgt]; cbn [loc_ok];
      unfold Rdiv.
    + apply (f_equal IZR) in Heq. rewrite mult_IZR in Heq. nra.
    + apply IZR_lt in Hlt. rewrite mult_IZR in Hlt. nra.
    + apply IZR_lt in Hgt. rewrite mult_IZR in Hgt.
      apply IZR_lt in Hr. nra.
  - apply Z.eqb_eq in Hr0' as ->. cbn [loc_ok]. unfold Rdiv. lra.
  - apply Z.eqb_neq in Hr0'.
    assert (0 < IZR r)%R by (apply IZR_lt; lia).
    assert (Hodd : 2 * r <> m2).
    { intros <-. rewrite Z.even_mul in Hev. discriminate Hev. }
    destruct (Z.compare_spec (2 * r + 1) m2) as [Heq|Hlt|Hgt]; cbn [loc_ok];
      unfold Rdiv.
    + assert (Hlt : 2 * r < m2) by lia.
      apply IZR_lt in Hlt. rewrite mult_IZR in Hlt. nra.
    + assert (Hlt' : 2 * r < m2) by lia.
      apply IZR_lt in Hlt'. rewrite mult_IZR in Hlt'. nra.
    + assert (Hgt' : m2 < 2 * r) by lia.
      apply IZR_lt in Hgt'. rewrite mult_IZR in Hgt'.
      apply IZR_lt in Hr. nra.
Qed.

Lemma div_core_ok m1 e1 m2 e2 :
  exists q e l,
    SFdiv_core_binary prec emax (Z.pos m1) e1 (Z.pos m2) e2 = (q, e, l)
    /\ 0 <= q
    /\ loc_ok (IZR (Z.pos m1) * pow2 e1 / (IZR (Z.pos m2) * pow2 e2) / pow2 e)
              q l
    /\ e <= fexp64 (Zdigits2 q + e)
    /\ (q = 0 -> e <= -1074).
Proof.
  unfold SFdiv_core_binary. rewrite fexp_fexp64.
  set (d1 := Zdigits2 (Z.pos m1)). set (d2 := Zdigits2 (Z.pos m2)).
  set (k0 := d1 + e1 - (d2 + e2)).
  set (e := Z.min (fexp64 k0) (e1 - e2)).
  set (s := e1 - e2 - e).
  assert (Hs : 0 <= s) by (unfold s, e; lia).
  set (m' := match s with
             | 0 => Z.pos m1
             | Z.pos _ => Z.shiftl (Z.pos m1) s
             | Z.neg _ => 0
             end).
  assert (Hm' : m' = Z.pos m1 * 2 ^ s).
  { unfold m'. destruct s as [|p|p] eqn:Hsp; [lia| |lia].
    by rewrite Z.shiftl_mul_pow2. }
  clearbody m'.
  pose proof (Z_div_mod m' (Z.pos m2) ltac:(lia)) as Hdiv.
  destruct (Z.div_eucl m' (Z.pos m2)) as [q r]. destruct Hdiv as [Hqr Hr].
  exists q, e, (new_location (Z.pos m2) r). split; [done|].
  pose proof (Z.pow_pos_nonneg 2 s ltac:(lia) Hs) as Hp.
  assert (Hq : 0 <= q) by nia.
  split; [done|].
  pose proof (pow2_pos e1) as P1. pose proof (pow2_pos e2) as P2.
  pose proof (pow2_pos e) as P.
  assert (Hm2 : (0 < IZR (Z.pos m2))%R) by (by apply IZR_lt).
  assert (Hy : (IZR (Z.pos m1) * pow2 e1 / (IZR (Z.pos m2) * pow2 e2) / pow2 e
                = IZR q + IZR r / IZR (Z.pos m2))%R).
  { replace e1 with (s + e + e2) at 1 by (unfold s; lia).
    rewrite !pow2_add, (pow2_IZR s) by done.
    assert (HR : (IZR (Z.pos m1) * IZR (2 ^ s)
                  = IZR (Z.pos m2) * IZR q + IZR r)%R).
    { rewrite <- !mult_IZR, <- plus_IZR. f_equal. lia. }
    transitivity ((IZR (Z.pos m1) * IZR (2 ^ s)) / IZR (Z.pos m2))%R;
      [field; lra|].
    rewrite HR. field. lra. }
  split.
  { rewrite Hy. apply new_location_ok; lia. }
  (* the quotient lies above [2^(k0-1)] *)
  pose proof (Zdigits2_bounds (Z.pos m1) ltac:(lia)) as [L1 _].
  pose proof (Zdigits2_bounds (Z.pos m2) ltac:(lia)) as [_ U2].
  pose proof (Zdigits2_pos (Z.pos m1) ltac:(lia)) as D1.
  pose proof (Zdigits2_pos (Z.pos m2) ltac:(lia)) as D2.
  fold d1 in L1, D1. fold d2 in U2, D2.
  set (x := (IZR (Z.pos m1) * pow2 e1 / (IZR (Z.pos m2) * pow2 e2))%R) in *.
  assert (Hxlo : (pow2 (k0 - 1) < x)%R).
  { unfold x, k0.
    replace (d1 + e1 - (d2 + e2) - 1) with ((d1 - 1 + e1) - (d2 + e2)) by lia.
    rewrite pow2_sub, !pow2_add, (pow2_IZR (d1 - 1)), (pow2_IZR d2) by lia.
    apply IZR_le in L1. apply IZR_lt in U2.
    assert (0 < IZR (2 ^ (d1 - 1)))%R.
    { apply IZR_lt. apply Z.pow_pos_nonneg; lia. }
    apply Rlt_le_trans with (IZR (2 ^ (d1 - 1)) * pow2 e1 / (IZR (Z.pos m2) * pow2 e2))%R.
    - assert (A1 : (0 < IZR (Z.pos m2) * pow2 e2)%R) by nra.
      assert (A2 : (0 < IZR (2 ^ d2) * pow2 e2)%R) by nra.
      unfold Rdiv. apply Rmult_lt_compat_l; [nra|].
      apply Rinv_lt_contravar; [by apply Rmult_lt_0_compat|nra].
    - assert (A1 : (0 < IZR (Z.pos m2) * pow2 e2)%R) by nra.
      unfold Rdiv. apply Rmult_le_compat_r; [|nra].
      left. by apply Rinv_0_lt_compat. }
  assert (Hxhi : (x < (IZR q + 1) * pow2 e)%R).
  { assert (Hr' : (IZR r / IZR (Z.pos m2) < 1)%R).
    { apply Rmult_lt_reg_r with (IZR (Z.pos m2)); [done|].
      unfold Rdiv. rewrite Rmult_assoc, Rinv_l, Rmult_1_r, Rmult_1_l by lra.
      apply IZR_lt. lia. }
    assert (Hxe : x = (x / pow2 e * pow2 e)%R) by (field; lra).
    rewrite Hxe, Hy. nra. }
  destruct (Z.eq_dec q 0) as [->|Hq0].
  - assert (He : e <= -1074).
    { assert (k0 - 1 < e).
      { apply pow2_lt_inv. replace (IZR 0 + 1)%R with 1%R in Hxhi by lra. lra. }
      unfold e, fexp64 in *. lia. }
    split; [|done]. cbn [Zdigits2]. unfold fexp64. lia.
  - split; [|lia].
    pose proof (Zdigits2_bounds q ltac:(lia)) as [_ Uq].
    pose proof (Zdigits2_pos q ltac:(lia)) as Dq.
    assert (k0 - 1 < Zdigits2 q + e).
    { apply pow2_lt_inv. rewrite pow2_add, (pow2_IZR (Zdigits2 q)) by lia.
      assert (Hq1 : q + 1 <= 2 ^ Zdigits2 q) by lia.
      apply IZR_le in Hq1. rewrite plus_IZR in Hq1. nra. }
    unfold e at 1. unfold fexp64. lia.
Qed.

Lemma div_result a b va vb :
  nonneg_val a va -> nonneg_val b vb -> (0 < vb)%R ->
  exists v, is_rnd (va / vb) v /\ result_val (SF64div a b) v.
Proof.
  intros [sa|ma ea Ha] [sb|mb eb Hb] Hpos; try lra.
  - exists 0%R. unfold Rdiv. rewrite Rmult_0_l. split; [apply is_rnd_0|].
    left. by exists (xorb sa false).
  - unfold SF64div, SFdiv. cbn [xorb].
    destruct (div_core_ok ma ea mb eb) as (q & e & l & -> & Hq & Hl & He & H0).
    by apply round_result.
Qed.

(** ** Primitive floats *)

Lemma nonneg_lt_overflow f v : nonneg_val f v -> (v < pow2 1024)%R.
Proof.
  intros [s|m e Hv]; [apply pow2_pos|].
  apply valid_finite in Hv as (He & _ & Hm & _).
  apply IZR_lt in Hm. rewrite <- pow2_IZR in Hm by lia.
  assert (H1 : (pow2 e <= pow2 971)%R) by (apply pow2_le; lia).
  assert (H2 : pow2 1024 = (pow2 53 * pow2 971)%R) by (by rewrite <- pow2_add).
  pose proof (pow2_pos e). pose proof (pow2_pos 53).
  assert (0 < IZR (Z.pos m))%R by (by apply IZR_lt). nra.
Qed.

Lemma result_of_prim f v :
  result_val (Prim2SF f) v ->
  (v < pow2 1024)%R -> nonneg f v.
Proof.
  intros [(s & H & ->)|[(m & e & H & ->)|[_ H]]] Hlt.
  - unfold nonneg. rewrite H. constructor.
  - unfold nonneg. rewrite H. constructor.
    rewrite <- H. apply Prim2SF_valid.
  - lra.
Qed.

Lemma result_overflow f v :
  result_val (Prim2SF f) v ->
  Prim2SF f = S754_infinity false \/ nonneg f v.
Proof.
  intros [(s & H & ->)|[(m & e & H & ->)|[H _]]].
  - right. unfold nonneg. rewrite H. constructor.
  - right. unfold nonneg. rewrite H. constructor.
    rewrite <- H. apply Prim2SF_valid.
  - by left.
Qed.

Lemma mul_nonneg a b va vb :
  nonneg a va -> nonneg b vb ->
  exists v, is_rnd (va * vb) v /\ result_val (Prim2SF (a * b)) v.
Proof.
  intros Ha Hb. destruct (mul_result _ _ _ _ Ha Hb) as (v & Hr & Hv).
  exists v. split; [done|]. by rewrite mul_spec.
Qed.

Lemma add_nonneg a b va vb :
  nonneg a va -> nonneg b vb ->
  exists v, is_rnd (va + vb) v /\ result_val (Prim2SF (a + b)) v.
Proof.
  intros Ha Hb. destruct (add_result _ _ _ _ Ha Hb) as (v & Hr & Hv).
  exists v. split; [done|]. by rewrite add_spec.
Qed.

Lemma div_nonneg a b va vb :
  nonneg a va -> nonneg b vb -> (0 < vb)%R ->
  exists v, is_rnd (va / vb) v /\ result_val (Prim2SF (a / b)) v.
Proof.
  intros Ha Hb Hpos. destruct (div_result _ _ _ _ Ha Hb Hpos) as (v & Hr & Hv).
  exists v. split; [done|]. by rewrite div_spec.
Qed.

(** Adding to an overflowed sum, or adding the positive infinity. *)
Lemma add_infinity_l t w vw :
  Prim2SF t = S754_infinity false ->
  Prim2SF w = S754_infinity false \/ nonneg w vw ->
  Prim2SF (t + w) = S754_infinity false.
Proof.
  intros Ht Hw. rewrite add_spec, Ht. destruct Hw as [->|Hw]; [done|].
  unfold nonneg in Hw. by destruct Hw.
Qed.

Lemma add_infinity_r t w vt :
  Prim2SF t = S754_infinity false \/ nonneg t vt ->
  Prim2SF w = S754_infinity false ->
  Prim2SF (t + w) = S754_infinity false.
Proof.
  intros Ht Hw. rewrite add_spec, Hw. destruct Ht as [->|Ht]; [done|].
  unfold nonneg in Ht. by destruct Ht.
Qed.

Lemma is_rnd_1 : is_rnd 1 1.
Proof.
  pose proof (is_rnd_exact 1 0 ltac:(lia) ltac:(lia)
                ltac:(unfold fexp64; cbn [Zdigits2 digits2_pos]; lia)) as H.
  rewrite pow2_0 in H. by replace (1 * 1)%R with 1%R in H by lra.
Qed.

(** *** Comparisons *)

Lemma finite_lt_exp m1 e1 m2 e2 :
  SpecFloat.valid_binary prec emax (S754_finite false m1 e1) = true ->
  SpecFloat.valid_binary prec emax (S754_finite false m2 e2) = true ->
  e1 < e2 ->
  (IZR (Z.pos m1) * pow2 e1 < IZR (Z.pos m2) * pow2 e2)%R.
Proof.
  intros (He1 & _ & Hm1 & _)%valid_finite (He2 & _ & _ & Hm2)%valid_finite Hlt.
  specialize (Hm2 ltac:(lia)).
  apply IZR_lt in Hm1. apply IZR_le in Hm2.
  rewrite <- pow2_IZR in Hm1, Hm2 by lia.
  assert (H1 : (pow2 53 * pow2 e1 <= pow2 52 * pow2 e2)%R).
  { rewrite <- !pow2_add. apply pow2_le. lia. }
  pose proof (pow2_pos e1). pose proof (pow2_pos e2).
  pose proof (pow2_pos 52). pose proof (pow2_pos 53).
  assert (0 < IZR (Z.pos m1))%R by (by apply IZR_lt). nra.
Qed.

(** The comparison of two non-negative finite numbers is the comparison of
    their values. *)
Lemma SFcompare_nonneg a b va vb :
  nonneg_val a va -> nonneg_val b vb ->
  (SFcompare a b = Some Lt /\ (va < vb)%R)
  \/ (SFcompare a b = Some Eq /\ va = vb)
  \/ (SFcompare a b = Some Gt /\ (vb < va)%R).
Proof.
  intros [sa|ma ea Ha] [sb|mb eb Hb].
  - right. left. done.
  - left. split; [done|].
    pose proof (pow2_pos eb). assert (0 < IZR (Z.pos mb))%R by (by apply IZR_lt).
    nra.
  - right. right. split; [done|].
    pose proof (pow2_pos ea). assert (0 < IZR (Z.pos ma))%R by (by apply IZR_lt).
    nra.
  - cbn [SFcompare].
    destruct (Z.compare_spec ea eb) as [->|Hlt|Hgt].
    + change (Pos.compare_cont Eq ma mb) with (Pos.compare ma mb).
      pose proof (pow2_pos eb).
      destruct (Pos.compare_spec ma mb) as [->|Hm|Hm].
      * right. left. done.
      * left. split; [done|]. apply Pos2Z.pos_lt_pos, IZR_lt in Hm. nra.
      * right. right. split; [done|]. apply Pos2Z.pos_lt_pos, IZR_lt in Hm. nra.
    + left. split; [done|]. by apply finite_lt_exp.
    + right. right. split; [done|]. by apply finite_lt_exp.
Qed.

Lemma leb_nonneg a b va vb :
  nonneg a va -> nonneg b vb -> (a <=? b)%float = true <-> (va <= vb)%R.
Proof.
  intros Ha Hb. rewrite leb_spec. unfold SFleb.
  destruct (SFcompare_nonneg _ _ _ _ Ha Hb) as [[-> H]|[[-> H]|[-> H]]];
    split; intros H'; try done; try lra; discriminate H'.
Qed.

Lemma ltb_nonneg a b va vb :
  nonneg a va -> nonneg b vb -> (a <? b)%float = true <-> (va < vb)%R.
Proof.
  intros Ha Hb. rewrite ltb_spec. unfold SFltb.
  destruct (SFcompare_nonneg _ _ _ _ Ha Hb) as [[-> H]|[[-> H]|[-> H]]];
    split; intros H'; try done; try lra; discriminate H'.
Qed.

Lemma nonneg_0 : nonneg 0 0.
Proof. constructor. Qed.

Lemma nonneg_1 : nonneg 1 1.
Proof.
  unfold nonneg.
  assert (H : nonneg_val (Prim2SF 1) (IZR (Z.pos 4503599627370496) * pow2 (-52))).
  { pose proof (Prim2SF_valid 1) as Hv.
    change (Prim2SF 1) with (S754_finite false 4503599627370496 (-52)) in *.
    by constructor. }
  replace 1%R with (IZR (Z.pos 4503599627370496) * pow2 (-52))%R; [done|].
  change (Z.pos 4503599627370496) with (2 ^ 52).
  rewrite <- pow2_IZR, <- pow2_add by lia. apply pow2_0.
Qed.

(** A float that is not below zero is a non-negative finite number or
    the positive infinity. *)
Lemma leb_0_cases c :
  (0 <=? c)%float = true ->
  Prim2SF c = S754_infinity false \/ exists v, nonneg c v.
Proof.
  rewrite leb_spec. change (Prim2SF 0) with (S754_zero false). unfold nonneg.
  pose proof (Prim2SF_valid c) as Hv.
  destruct (Prim2SF c) as [s|s| |s m e]; intros H0.
  - right. eexists. constructor.
  - destruct s; [discriminate H0|by left].
  - discriminate H0.
  - destruct s; [discriminate H0|]. right. eexists. by constructor.
Qed.

(** [0 <= c <= 1] on floats. *)
Lemma unit_interval_nonneg c :
  (0 <=? c)%float = true -> (c <=? 1)%float = true ->
  exists v, nonneg c v /\ (v <= 1)%R.
Proof.
  intros H0 H1. destruct (leb_0_cases c H0) as [Hinf|[v Hv]].
  - exfalso. rewrite leb_spec, Hinf in H1.
    pose proof nonneg_1 as Hone. unfold nonneg in Hone.
    destruct Hone; discriminate H1.
  - exists v. split; [done|]. by apply (leb_nonneg c 1 v 1 Hv nonneg_1).
Qed.

Lemma nonneg_unit_interval f v :
  nonneg f v -> (v <= 1)%R ->
  (0 <=? f)%float = true /\ (f <=? 1)%float = true.
Proof.
  intros Hf Hle. split.
  - apply (leb_nonneg 0 f 0 v nonneg_0 Hf). by apply (nonneg_val_ge_0 (Prim2SF f)).
  - by apply (leb_nonneg f 1 v 1 Hf nonneg_1).
Qed.

(** [0 < w] on floats. *)
Lemma positive_cases w :
  (0 <? w)%float = true ->
  Prim2SF w = S754_infinity false \/ exists v, nonneg w v /\ (0 < v)%R.
Proof.
  rewrite ltb_spec. change (Prim2SF 0) with (S754_zero false). unfold nonneg.
  pose proof (Prim2SF_valid w) as Hv.
  destruct (Prim2SF w) as [s|s| |s m e]; try discriminate.
  - destruct s; [discriminate|]. by left.
  - destruct s; [discriminate|]. intros _. right.
    exists (IZR (Z.pos m) * pow2 e)%R. split; [by constructor|].
    pose proof (pow2_pos e). assert (0 < IZR (Z.pos m))%R by (by apply IZR_lt).
    nra.
Qed.

Lemma finite_cases w :
  (w <? infinity)%float = true -> Prim2SF w <> S754_infinity false.
Proof.
  rewrite ltb_spec. change (Prim2SF infinity) with (S754_infinity false).
  intros H Heq. rewrite Heq in H. discriminate H.
Qed.

(** *** The two sums of the aggregation *)

Lemma sums_ok_0 : sums_ok 0 0.
Proof. right. exists 0%R, 0%R. split; [|split]; [apply nonneg_0..|lra]. Qed.

(** One more detector with a positive weight and a confidence in [[0,1]]. *)
Lemma sums_ok_step s t w c :
  sums_ok s t ->
  (0 <? w)%float = true ->
  (0 <=? c)%float = true -> (c <=? 1)%float = true ->
  sums_ok (s + w * c) (t + w).
Proof.
  intros Hst Hw Hc0 Hc1.
  destruct (unit_interval_nonneg c Hc0 Hc1) as (vc & Hc & Hvc).
  pose proof (nonneg_val_ge_0 _ _ Hc) as Hvc0.
  destruct (positive_cases w Hw) as [Hinf|(vw & Hvw & Hpos)].
  { left. destruct Hst as [Ht|(vs & vt & _ & Ht & _)].
    - apply (add_infinity_r t w 0); [by left|done].
    - apply (add_infinity_r t w vt); [by right|done]. }
  destruct Hst as [Ht|(vs & vt & Hs & Ht & Hle)].
  { left. apply (add_infinity_l t w vw); [done|by right]. }
  destruct (add_nonneg t w vt vw Ht Hvw) as (vt' & Hrt & Hresult_t).
  destruct (result_overflow _ _ Hresult_t) as [Hover|Ht']; [by left|].
  right.
  destruct (mul_nonneg w c vw vc Hvw Hc) as (vp & Hrp & Hresult_p).
  assert (Hvp : (vp <= vw)%R).
  { apply (is_rnd_mono (vw * vc) vw); [nra|done|].
    by apply (nonneg_val_rnd (Prim2SF w)). }
  assert (Hp : nonneg (w * c) vp).
  { apply result_of_prim; [done|].
    pose proof (nonneg_lt_overflow _ _ Hvw). lra. }
  destruct (add_nonneg s (w * c) vs vp Hs Hp) as (vs' & Hrs & Hresult_s).
  assert (Hvs : (vs' <= vt')%R).
  { apply (is_rnd_mono (vs + vp) (vt + vw)); [lra|done|done]. }
  exists vs', vt'. split; [|split; [done|done]].
  apply result_of_prim; [done|].
  pose proof (nonneg_lt_overflow _ _ Ht'). lra.
Qed.

(** The quotient of two such sums. *)
Lemma sums_ok_quotient s t :
  sums_ok s t ->
  (0 <? t)%float = true -> (t <? infinity)%float = true ->
  (0 <=? s / t)%float = true /\ (s / t <=? 1)%float = true.
Proof.
  intros Hst Hpos Hfin.
  destruct Hst as [Ht|(vs & vt & Hs & Ht & Hle)];
    [by apply finite_cases in Hfin|].
  assert (Hvt : (0 < vt)%R) by (by apply (ltb_nonneg 0 t 0 vt nonneg_0 Ht)).
  pose proof (nonneg_val_ge_0 _ _ Hs) as Hvs.
  destruct (div_nonneg s t vs vt Hs Ht Hvt) as (v & Hr & Hresult).
  assert (Hv : (v <= 1)%R).
  { apply (is_rnd_mono (vs / vt) 1); [|done|apply is_rnd_1].
    apply Rmult_le_reg_r with vt; [done|].
    unfold Rdiv. rewrite Rmult_assoc, Rinv_l by lra. lra. }
  apply (nonneg_unit_interval _ v); [|done].
  apply result_of_prim; [done|].
  apply Rle_lt_trans with 1%R; [done|].
  rewrite <- pow2_0. by apply pow2_lt.
Qed.

(** *** One detector alone: the quotient [(0 + w * c) / w] *)

Lemma is_rnd_unique x v v' : is_rnd x v -> is_rnd x v' -> v = v'.
Proof.
  intros H H'. apply Rle_antisym.
  - apply (is_rnd_mono x x); [lra|done|done].
  - apply (is_rnd_mono x x); [lra|done|done].
Qed.

Lemma nonneg_val_unique f v v' : nonneg_val f v -> nonneg_val f v' -> v = v'.
Proof. intros H H'. destruct H; by inversion H'. Qed.

Lemma add_0_nonneg p vp : nonneg p vp -> nonneg (0 + p) vp.
Proof.
  intros Hp. destruct (add_nonneg 0 p 0 vp nonneg_0 Hp) as (v & Hr & Hres).
  rewrite Rplus_0_l in Hr.
  rewrite (is_rnd_unique vp v vp Hr (nonneg_val_rnd _ _ Hp)) in Hres.
  apply result_of_prim; [done|]. by apply (nonneg_lt_overflow (Prim2SF p)).
Qed.

(** The value of [(0 + w * c) / w]: the product rounded, then the quotient
    rounded. *)
Lemma lone_quotient w c vw vc :
  nonneg w vw -> (0 < vw)%R -> nonneg c vc -> (vc <= 1)%R ->
  exists v, (exists vp, is_rnd (vw * vc) vp /\ is_rnd (vp / vw) v)
            /\ nonneg ((0 + w * c) / w) v.
Proof.
  intros Hw Hpos Hc Hle.
  pose proof (nonneg_val_ge_0 _ _ Hc) as Hc0.
  destruct (mul_nonneg w c vw vc Hw Hc) as (vp & Hrp & Hresp).
  assert (Hvp : (vp <= vw)%R).
  { apply (is_rnd_mono (vw * vc) vw); [nra|done|].
    by apply (nonneg_val_rnd (Prim2SF w)). }
  assert (Hp : nonneg (w * c) vp).
  { apply result_of_prim; [done|].
    pose proof (nonneg_lt_overflow _ _ Hw). lra. }
  apply add_0_nonneg in Hp.
  destruct (div_nonneg _ w vp vw Hp Hw Hpos) as (v & Hrv & Hresv).
  exists v. split; [by exists vp|].
  apply result_of_prim; [done|].
  apply Rle_lt_trans with 1%R; [|rewrite <- pow2_0; by apply pow2_lt].
  apply (is_rnd_mono (vp / vw) 1); [|done|apply is_rnd_1].
  apply Rmult_le_reg_r with vw; [done|].
  unfold Rdiv. rewrite Rmult_assoc, Rinv_l by lra. lra.
Qed.

Lemma lone_quotient_mono vw vc vc' v v' :
  (0 < vw)%R -> (vc <= vc')%R ->
  (exists vp, is_rnd (vw * vc) vp /\ is_rnd (vp / vw) v) ->
  (exists vp, is_rnd (vw * vc') vp /\ is_rnd (vp / vw) v') ->
  (v <= v')%R.
Proof.
  intros Hpos Hle (vp & Hp & Hv) (vp' & Hp' & Hv').
  apply (is_rnd_mono (vp / vw) (vp' / vw)); [|done|done].
  apply Rmult_le_compat_r; [left; by apply Rinv_0_lt_compat|].
  apply (is_rnd_mono (vw * vc) (vw * vc')); [nra|done|done].
Qed.

Lemma nonneg_half : nonneg 0.5 (/ 2).
Proof.
  unfold nonneg.
  assert (H : nonneg_val (Prim2SF 0.5) (IZR (Z.pos 4503599627370496) * pow2 (-53))).
  { pose proof (Prim2SF_valid 0.5) as Hv.
    change (Prim2SF 0.5) with (S754_finite false 4503599627370496 (-53)) in *.
    by constructor. }
  replace (/ 2)%R with (IZR (Z.pos 4503599627370496) * pow2 (-53))%R; [done|].
  change (Z.pos 4503599627370496) with (2 ^ 52).
  rewrite <- pow2_IZR, <- pow2_add by lia.
  change (52 + -53) with (- (1)). unfold pow2. rewrite powerRZ_neg'.
  by rewrite powerRZ_1.
Qed.

(** The float that follows 0.5 is the least one above 0.5. *)
Lemma above_half c vc :
  nonneg c vc -> (/ 2 < vc)%R ->
  exists v1, nonneg 0.50000000000000011 v1 /\ (v1 <= vc)%R /\ (v1 <= 1)%R.
Proof.
  intros Hc Hlt.
  exists (IZR (2 ^ 52 + 1) * pow2 (-53))%R.
  assert (Hh : (pow2 52 * pow2 (-53) = / 2)%R).
  { rewrite <- pow2_add. change (52 + -53) with (- (1)). unfold pow2.
    rewrite powerRZ_neg'. by rewrite powerRZ_1. }
  pose proof (pow2_pos (-53)) as P53.
  assert (H52 : IZR (2 ^ 52) = pow2 52) by (by rewrite pow2_IZR by lia).
  split; [|split].
  - unfold nonneg. pose proof (Prim2SF_valid 0.50000000000000011) as Hv.
    change (Prim2SF 0.50000000000000011)
      with (S754_finite false 4503599627370497 (-53)) in *.
    change (2 ^ 52 + 1) with (Z.pos 4503599627370497). by constructor.
  - unfold nonneg in Hc. destruct Hc as [s|m e Hv]; [lra|].
    pose proof (valid_finite _ _ _ Hv) as (He & _ & Hm & Hlow).
    rewrite plus_IZR, H52.
    destruct (Z_lt_le_dec e (-53)) as [Hsmall|Hbig].
    + exfalso. apply IZR_lt in Hm. rewrite <- pow2_IZR in Hm by lia.
      assert (H1 : (pow2 e <= pow2 (-54))%R) by (apply pow2_le; lia).
      assert (H2 : (pow2 53 * pow2 (-54) = / 2)%R).
      { rewrite <- pow2_add. change (53 + -54) with (- (1)). unfold pow2.
        rewrite powerRZ_neg'. by rewrite powerRZ_1. }
      pose proof (pow2_pos e). pose proof (pow2_pos 53).
      assert (0 < IZR (Z.pos m))%R by (by apply IZR_lt). nra.
    + destruct (Z.eq_dec e (-53)) as [->|Hne].
      * assert (Hm1 : 2 ^ 52 + 1 <= Z.pos m).
        { assert (2 ^ 52 < Z.pos m); [|lia].
          apply lt_IZR. rewrite H52. nra. }
        apply IZR_le in Hm1. rewrite plus_IZR, H52 in Hm1. nra.
      * specialize (Hlow ltac:(lia)). apply IZR_le in Hlow.
        rewrite H52 in Hlow.
        assert (H1 : (pow2 (-52) <= pow2 e)%R) by (apply pow2_le; lia).
        assert (H2 : (pow2 (-52) = 2 * pow2 (-53))%R)
          by (rewrite <- pow2_succ; done).
        pose proof (pow2_pos 52). pose proof (pow2_pos e). nra.
  - rewrite plus_IZR, H52.
    assert (H2 : (pow2 (-53) <= / 2)%R).
    { rewrite <- Hh. pose proof (pow2_ge_1 52 ltac:(lia)). nra. }
    nra.
Qed.

End Binary64.

(** ** The loop of [aggregate_results] *)

Lemma aggregate_fold mrs (ms : registry) acc :
  fold_left (aggregate_step mrs) ms acc =
  Accumulators
    (fold_left (fun s o => (s + snd (fst o) * mr_confidence_score (snd o))%float)
               (non_failed (recorded ms mrs)) (weighted_sum acc))
    (fold_left (fun s o => (s + snd (fst o))%float)
               (non_failed (recorded ms mrs)) (total_weight acc))
    (factors acc ++ significant_factors (recorded ms mrs)).
Proof.
  revert acc. induction ms as [|[name info] ms IH]; intros acc.
  - destruct acc. cbn. by rewrite app_nil_r.
  - cbn [fold_left]. rewrite IH. clear IH.
    unfold aggregate_step, recorded, significant_factors, non_failed.
    cbn [omap list_omap fst snd].
    destruct (mrs !! name) as [m|] eqn:Hm; cbn [fmap option_fmap option_map];
      [|done].
    cbn [List.filter failed fst snd]. unfold failed.
    destruct (mr_error m) as [e|] eqn:He; cbn [negb]; [done|].
    cbn [fold_left List.filter weighted_sum total_weight factors fst snd].
    unfold significant at 2. cbn [snd].
    destruct (mr_is_ai_generated m && (0.6 <? mr_confidence_score m)%float);
      cbn [map]; [|done].
    by rewrite <- app_assoc.
Qed.

Lemma aggregate_loop_recorded (ms : registry) mrs :
  aggregate_loop ms mrs =
  Accumulators (sum_weighted (non_failed (recorded ms mrs)))
               (sum_weights (non_failed (recorded ms mrs)))
               (significant_factors (recorded ms mrs)).
Proof. unfold aggregate_loop. by rewrite aggregate_fold. Qed.

Lemma non_failed_elem (os : list (string * float * method_result)) o :
  o ∈ non_failed os <-> o ∈ os /\ failed (snd o) = false.
Proof.
  unfold non_failed. rewrite !list_elem_of_In, filter_In.
  by rewrite negb_true_iff.
Qed.

(** ** The loop of [detect] *)

Lemma run_method_fold_other path (ms : registry) mrs name :
  name ∉ ms.*1 ->
  fold_left (run_method path) ms mrs !! name = mrs !! name.
Proof.
  revert mrs. induction ms as [|[n info] ms IH]; intros mrs Hn; [done|].
  cbn in Hn. apply not_elem_of_cons in Hn as [Hne Hn].
  cbn [fold_left]. rewrite IH by done.
  unfold run_method. by rewrite lookup_insert_ne.
Qed.

Lemma run_method_fold_lookup path (ms : registry) mrs name info :
  NoDup ms.*1 -> (name, info) ∈ ms ->
  fold_left (run_method path) ms mrs !! name = Some (invoke path info).
Proof.
  revert mrs. induction ms as [|[n i] ms IH]; intros mrs Hnd Hin.
  - by apply elem_of_nil in Hin.
  - cbn in Hnd. apply NoDup_cons in Hnd as [Hn Hnd].
    cbn [fold_left]. apply elem_of_cons in Hin as [Heq|Hin].
    + injection Heq as -> ->. rewrite run_method_fold_other by done.
      unfold run_method. by rewrite lookup_insert_eq.
    + by apply IH.
Qed.

Lemma run_methods_lookup path (ms : registry) name info :
  NoDup ms.*1 -> (name, info) ∈ ms ->
  run_methods ms path !! name = Some (invoke path info).
Proof. apply run_method_fold_lookup. Qed.

Lemma recorded_sub path (ms' : registry) mrs :
  (forall name info, (name, info) ∈ ms' -> mrs !! name = Some (invoke path info)) ->
  recorded ms' mrs = outcomes ms' path.
Proof.
  induction ms' as [|[n i] ms' IH]; intros H; [done|].
  unfold recorded, outcomes in *. cbn [omap list_omap map fst snd].
  rewrite (H n i) by (apply elem_of_cons; by left). cbn.
  f_equal. apply IH. intros name info Hin. apply H. apply elem_of_cons. by right.
Qed.

Lemma recorded_run path (ms : registry) :
  NoDup ms.*1 -> recorded ms (run_methods ms path) = outcomes ms path.
Proof.
  intros Hnd. apply recorded_sub. intros name info Hin.
  by apply run_methods_lookup.
Qed.

(** ** What [detect] returns *)

Lemma detect_fused ms st elapsed path mid r :
  detect ms st elapsed path mid = Return r -> r = fused ms elapsed path.
Proof.
  unfold detect. fold (fused ms elapsed path).
  destruct (truthy_id mid) as [id|].
  - cbv [update_metadata mbind outcome_bind mret outcome_ret].
    destruct (st id _); congruence.
  - cbv [mret outcome_ret]. congruence.
Qed.

Lemma detect_returns ms st elapsed path mid :
  store_accepts st mid ->
  detect ms st elapsed path mid = Return (fused ms elapsed path).
Proof.
  intros Hst. unfold detect. fold (fused ms elapsed path).
  destruct (truthy_id mid) as [id|] eqn:Hid; [|done].
  cbv [update_metadata mbind outcome_bind mret outcome_ret].
  destruct (Hst id (build_update_data (fused ms elapsed path)) Hid) as [b ->].
  done.
Qed.

Lemma fused_confidence (ms : registry) elapsed path :
  confidence_score (fused ms elapsed path) =
  weighted_average (non_failed (recorded ms (run_methods ms path))).
Proof.
  unfold fused, aggregate_results. cbn.
  by rewrite aggregate_loop_recorded.
Qed.

Lemma fused_verdict (ms : registry) elapsed path :
  is_ai_generated (fused ms elapsed path) =
  (0.5 <? confidence_score (fused ms elapsed path))%float.
Proof. done. Qed.

Lemma fused_factors (ms : registry) elapsed path :
  contributing_factors (fused ms elapsed path) =
  significant_factors (recorded ms (run_methods ms path)).
Proof.
  unfold fused, aggregate_results. cbn.
  by rewrite aggregate_loop_recorded.
Qed.

Lemma fused_method_results (ms : registry) elapsed path :
  method_results (fused ms elapsed path) = run_methods ms path.
Proof. done. Qed.

(** ** The registry of [register_detection_methods] *)

Lemma registry_of_names f1 f2 f3 f4 f5 f6 :
  (registry_of f1 f2 f3 f4 f5 f6).*1 =
  ["metadata_analysis"; "ela_analysis"; "prnu_analysis"; "texture_analysis";
   "vit_model"; "resnet_model"].
Proof. reflexivity. Qed.

Lemma registry_of_distinct f1 f2 f3 f4 f5 f6 :
  NoDup (registry_of f1 f2 f3 f4 f5 f6).*1.
Proof.
  rewrite registry_of_names. apply (bool_decide_unpack _). vm_compute. exact I.
Qed.

Lemma register_detection_methods_distinct ext :
  NoDup (register_detection_methods ext).*1.
Proof. apply registry_of_distinct. Qed.

(** ** Contributing factors *)

(** C1, as the code has it: for every detection run over a registry with
    distinct names, [contributing_factors] lists exactly the non-failed
    detectors whose own verdict is "AI-generated" and whose confidence is
    strictly above 0.6, as name, weight and confidence, in registry order;
    the final verdict plays no part. *)
Theorem contributing_factors_significant
    (ms : registry) st elapsed path mid r :
  NoDup ms.*1 ->
  detect ms st elapsed path mid = Return r ->
  contributing_factors r = significant_factors (outcomes ms path).
Proof.
  intros Hnd Hr. apply detect_fused in Hr as ->.
  by rewrite fused_factors, recorded_run.
Qed.

Lemma contributing_factors_significant_witness :
  NoDup (register_detection_methods Examples.camera_photo).*1 /\
  contributing_factors
    (fused (register_detection_methods Examples.camera_photo) 0 "photo.jpg") =
  significant_factors
    (outcomes (register_detection_methods Examples.camera_photo) "photo.jpg").
Proof.
  split; [apply register_detection_methods_distinct|].
  apply (contributing_factors_significant _ Examples.no_store 0 "photo.jpg" None).
  - apply register_detection_methods_distinct.
  - reflexivity.
Defined.

(** C1 fails as stated: on this run the final verdict is "authentic", yet
    the list holds the error-level analysis, whose verdict is
    "AI-generated", and leaves out the sensor-noise analysis, which agrees
    with the final verdict at confidence 0.7. *)
Lemma contributing_factors_ignore_verdict :
  detect (register_detection_methods Examples.camera_photo) Examples.no_store
         0 "photo.jpg" None
  = Return (fused (register_detection_methods Examples.camera_photo) 0 "photo.jpg")
  /\ is_ai_generated
       (fused (register_detection_methods Examples.camera_photo) 0 "photo.jpg")
     = false
  /\ contributing_factors
       (fused (register_detection_methods Examples.camera_photo) 0 "photo.jpg")
     = [ContributingFactor "ela_analysis" 0.2 0.9]
  /\ (mr_is_ai_generated <$>
        method_results
          (fused (register_detection_methods Examples.camera_photo) 0 "photo.jpg")
        !! "ela_analysis") = Some true
  /\ agreeing_factors false
       (outcomes (register_detection_methods Examples.camera_photo) "photo.jpg")
     = [ContributingFactor "prnu_analysis" 0.2 0.7]
  /\ contributing_factors
       (fused (register_detection_methods Examples.camera_photo) 0 "photo.jpg")
     <> agreeing_factors
          (is_ai_generated
             (fused (register_detection_methods Examples.camera_photo) 0 "photo.jpg"))
          (outcomes (register_detection_methods Examples.camera_photo) "photo.jpg").
Proof.
  repeat split; try (vm_compute; reflexivity).
  vm_compute. discriminate.
Qed.

(** ** Weighted aggregation and the verdict threshold *)

Lemma outcomes_registry_of f1 f2 f3 f4 f5 f6 path :
  outcomes (registry_of f1 f2 f3 f4 f5 f6) path =
  [ ("metadata_analysis", 0.15%float, try_except (f1 path) error_result);
    ("ela_analysis", 0.20%float, try_except (f2 path) error_result);
    ("prnu_analysis", 0.20%float, try_except (f3 path) error_result);
    ("texture_analysis", 0.15%float, try_except (f4 path) error_result);
    ("vit_model", 0.15%float, try_except (f5 path) error_result);
    ("resnet_model", 0.15%float, try_except (f6 path) error_result) ].
Proof. reflexivity. Qed.

(** With the weights of [register_detection_methods], the total weight of
    any non-empty set of surviving detectors is positive: it depends on the
    survivors only, so the 64 cases are computed. *)
Lemma default_total_weight_positive (m1 m2 m3 m4 m5 m6 : method_result) :
  failed m1 && failed m2 && failed m3 && failed m4 && failed m5 && failed m6
    = false ->
  (0 <? sum_weights
          (non_failed [ ("metadata_analysis", 0.15%float, m1);
                        ("ela_analysis", 0.20%float, m2);
                        ("prnu_analysis", 0.20%float, m3);
                        ("texture_analysis", 0.15%float, m4);
                        ("vit_model", 0.15%float, m5);
                        ("resnet_model", 0.15%float, m6) ]))%float = true.
Proof.
  unfold non_failed. cbn [List.filter snd].
  destruct (failed m1), (failed m2), (failed m3), (failed m4), (failed m5),
    (failed m6); cbn [negb andb]; intros H; try discriminate H;
    vm_compute; reflexivity.
Qed.

Lemma some_non_failed (os : list (string * float * method_result)) :
  (exists o, o ∈ os /\ failed (snd o) = false) ->
  forallb (fun o => failed (snd o)) os = false.
Proof.
  intros (o & Ho & Hf). induction os as [|o' os IH]; cbn [forallb].
  - by apply elem_of_nil in Ho.
  - apply andb_false_iff. apply elem_of_cons in Ho as [Heq|Ho].
    + left. by rewrite <- Heq.
    + right. by apply IH.
Qed.

(** C2: with the registry of [register_detection_methods] (whatever the six
    functions do), if at least one detector did not fail then the returned
    confidence is [S / W], both sums taken over the non-failed detectors
    only, and the verdict is [final_confidence > 0.5], strictly: a
    confidence of exactly 0.5 gives the verdict "authentic". *)
Theorem weighted_average_and_threshold
    f1 f2 f3 f4 f5 f6 st elapsed path mid r :
  detect (registry_of f1 f2 f3 f4 f5 f6) st elapsed path mid = Return r ->
  (exists o, o ∈ outcomes (registry_of f1 f2 f3 f4 f5 f6) path
             /\ failed (snd o) = false) ->
  confidence_score r =
    (sum_weighted (non_failed (outcomes (registry_of f1 f2 f3 f4 f5 f6) path))
     / sum_weights (non_failed (outcomes (registry_of f1 f2 f3 f4 f5 f6) path)))%float
  /\ is_ai_generated r = (0.5 <? confidence_score r)%float
  /\ (confidence_score r = 0.5%float -> is_ai_generated r = false).
Proof.
  intros Hr Hsome. apply detect_fused in Hr as ->.
  assert (Hv : is_ai_generated (fused (registry_of f1 f2 f3 f4 f5 f6) elapsed path)
               = (0.5 <? confidence_score
                           (fused (registry_of f1 f2 f3 f4 f5 f6) elapsed path))%float)
    by apply fused_verdict.
  split; [|split; [exact Hv|]].
  - rewrite fused_confidence, recorded_run by apply registry_of_distinct.
    unfold weighted_average.
    apply some_non_failed in Hsome. rewrite outcomes_registry_of in *.
    cbn [forallb snd] in Hsome. rewrite andb_true_r, !andb_assoc in Hsome.
    by rewrite default_total_weight_positive.
  - intros H. rewrite Hv, H. reflexivity.
Qed.

Lemma weighted_average_and_threshold_witness :
  (exists o, o ∈ outcomes (register_detection_methods Examples.camera_photo)
                          "photo.jpg"
             /\ failed (snd o) = false)
  /\ confidence_score
       (fused (register_detection_methods Examples.camera_photo) 0 "photo.jpg")
     = (sum_weighted
          (non_failed (outcomes (register_detection_methods Examples.camera_photo)
                                "photo.jpg"))
        / sum_weights
            (non_failed (outcomes (register_detection_methods Examples.camera_photo)
                                  "photo.jpg")))%float.
Proof.
  assert (H : exists o,
             o ∈ outcomes (register_detection_methods Examples.camera_photo)
                          "photo.jpg"
             /\ failed (snd o) = false).
  { eexists. split; [apply elem_of_cons; left; reflexivity|reflexivity]. }
  split; [exact H|].
  apply (weighted_average_and_threshold _ _ _ _ _ _ Examples.no_store 0
           "photo.jpg" None _ eq_refl H).
Defined.

(** ** The final confidence stays in the unit interval *)

Lemma sums_ok_fold (os : list (string * float * method_result)) s t :
  sums_ok s t ->
  (forall o, o ∈ os -> well_scaled o) ->
  sums_ok
    (fold_left (fun s o => (s + snd (fst o) * mr_confidence_score (snd o))%float)
               os s)
    (fold_left (fun s o => (s + snd (fst o))%float) os t).
Proof.
  revert s t. induction os as [|o os IH]; intros s t Hst Hos; [done|].
  cbn [fold_left]. apply IH.
  - destruct (Hos o) as (Hw & Hc0 & Hc1); [apply elem_of_cons; by left|].
    by apply sums_ok_step.
  - intros o' Ho'. apply Hos. apply elem_of_cons. by right.
Qed.

(** The weighted average of outcomes with positive weights and confidences
    in [[0,1]] lies in [[0,1]], as long as the total weight has not
    overflowed. *)
Lemma weighted_average_unit (os : list (string * float * method_result)) :
  (forall o, o ∈ os -> well_scaled o) ->
  (sum_weights os <? infinity)%float = true ->
  (0 <=? weighted_average os)%float = true
  /\ (weighted_average os <=? 1)%float = true.
Proof.
  intros Hos Hfin. unfold weighted_average.
  destruct (0 <? sum_weights os)%float eqn:Hpos; [|by split].
  apply sums_ok_quotient; [|done|done].
  apply sums_ok_fold; [apply sums_ok_0|done].
Qed.

(** With the weights of [register_detection_methods] the total weight
    never overflows. *)
Lemma default_total_weight_finite (m1 m2 m3 m4 m5 m6 : method_result) :
  (sum_weights
     (non_failed [ ("metadata_analysis", 0.15%float, m1);
                   ("ela_analysis", 0.20%float, m2);
                   ("prnu_analysis", 0.20%float, m3);
                   ("texture_analysis", 0.15%float, m4);
                   ("vit_model", 0.15%float, m5);
                   ("resnet_model", 0.15%float, m6) ])
   <? infinity)%float = true.
Proof.
  unfold non_failed. cbn [List.filter snd].
  destruct (failed m1), (failed m2), (failed m3), (failed m4), (failed m5),
    (failed m6); cbn [negb]; vm_compute; reflexivity.
Qed.

(** C6: with the registry of [register_detection_methods] (positive
    weights), if the confidence of every non-failed detector lies in
    [[0,1]], then so does the final confidence. *)
Theorem final_confidence_in_unit_interval
    f1 f2 f3 f4 f5 f6 st elapsed path mid r :
  detect (registry_of f1 f2 f3 f4 f5 f6) st elapsed path mid = Return r ->
  (forall o, o ∈ outcomes (registry_of f1 f2 f3 f4 f5 f6) path ->
             failed (snd o) = false ->
             (0 <=? mr_confidence_score (snd o))%float = true
             /\ (mr_confidence_score (snd o) <=? 1)%float = true) ->
  (0 <=? confidence_score r)%float = true
  /\ (confidence_score r <=? 1)%float = true.
Proof.
  intros Hr Hconf. apply detect_fused in Hr as ->.
  rewrite fused_confidence, recorded_run by apply registry_of_distinct.
  apply weighted_average_unit.
  - intros o [Ho Hnf]%non_failed_elem.
    destruct (Hconf o Ho Hnf) as [H0 H1]. split; [|done].
    rewrite outcomes_registry_of in Ho.
    repeat (apply elem_of_cons in Ho as [->|Ho]; [reflexivity|]).
    by apply elem_of_nil in Ho.
  - rewrite outcomes_registry_of. apply default_total_weight_finite.
Qed.

Lemma final_confidence_in_unit_interval_witness :
  (0 <=? confidence_score
           (fused (register_detection_methods Examples.camera_photo) 0
                  "photo.jpg"))%float = true
  /\ (confidence_score
        (fused (register_detection_methods Examples.camera_photo) 0
               "photo.jpg") <=? 1)%float = true.
Proof.
  apply (final_confidence_in_unit_interval _ _ _ _ _ _ Examples.no_store 0
           "photo.jpg" None _ eq_refl).
  intros o Ho _. unfold register_detection_methods in Ho.
  change (o ∈ outcomes
             (registry_of (analyze_metadata Examples.camera_photo)
                          (analyze_ela Examples.camera_photo)
                          (analyze_prnu Examples.camera_photo)
                          (analyze_texture Examples.camera_photo)
                          predict_with_vit predict_with_resnet)
             "photo.jpg") in Ho.
  rewrite outcomes_registry_of in Ho.
  repeat (apply elem_of_cons in Ho as [->|Ho]; [split; reflexivity|]).
  by apply elem_of_nil in Ho.
Defined.

(** ** Total failure *)

Lemma run_method_fold_elem path (ms : registry) mrs name m :
  fold_left (run_method path) ms mrs !! name = Some m ->
  mrs !! name = Some m \/ exists info, (name, info) ∈ ms /\ m = invoke path info.
Proof.
  revert mrs. induction ms as [|[n i] ms IH]; intros mrs H; [by left|].
  cbn [fold_left] in H. apply IH in H as [H|(info & Hin & ->)].
  - unfold run_method in H. rewrite lookup_insert in H. case_decide as Hn.
    + right. exists i. split; [apply elem_of_cons; left; by rewrite Hn|].
      unfold invoke. cbn. congruence.
    + by left.
  - right. exists info. split; [apply elem_of_cons; by right|done].
Qed.

Lemma recorded_all_failed path (ms ms' : registry) :
  (forall name info, (name, info) ∈ ms -> failed (invoke path info) = true) ->
  non_failed (recorded ms' (run_methods ms path)) = [].
Proof.
  intros Hall. induction ms' as [|[n i] ms' IH]; [done|].
  unfold recorded in *. cbn [omap list_omap fst snd].
  destruct (run_methods ms path !! n) as [m|] eqn:Hm; cbn; [|exact IH].
  apply run_method_fold_elem in Hm as [Hm|(info & Hin & ->)].
  - by rewrite lookup_empty in Hm.
  - unfold non_failed in *. cbn [List.filter snd].
    by rewrite (Hall n info Hin).
Qed.

(** Every registered detector has its slot in [method_results], and nothing
    else has. *)
Lemma run_methods_dom (ms : registry) path :
  dom (run_methods ms path) = list_to_set ms.*1.
Proof.
  unfold run_methods.
  assert (G : forall mrs, dom (fold_left (run_method path) ms mrs)
                          = list_to_set ms.*1 ∪ dom mrs).
  { induction ms as [|[n i] ms' IH]; intros mrs; cbn [fold_left].
    - set_solver.
    - rewrite IH. unfold run_method. rewrite dom_insert_L. cbn. set_solver. }
  rewrite G. set_solver.
Qed.

(** C3: if every registered detector fails, [detect] still returns a
    result (it raises only if the document store does), with confidence
    exactly 0.0 and the verdict "authentic". *)
Theorem all_failed_is_defined (ms : registry) st elapsed path mid :
  (forall name info, (name, info) ∈ ms -> failed (invoke path info) = true) ->
  store_accepts st mid ->
  exists r, detect ms st elapsed path mid = Return r
            /\ confidence_score r = 0%float
            /\ is_ai_generated r = false
            /\ contributing_factors r = []
            /\ processing_time r = elapsed
            /\ dom (method_results r) = list_to_set ms.*1.
Proof.
  intros Hall Hst. exists (fused ms elapsed path).
  split; [by apply detect_returns|].
  assert (Hc : confidence_score (fused ms elapsed path) = 0%float).
  { rewrite fused_confidence, (recorded_all_failed path ms ms Hall). reflexivity. }
  split; [exact Hc|]. split; [by rewrite fused_verdict, Hc|].
  split.
  { rewrite fused_factors. unfold significant_factors.
    by rewrite (recorded_all_failed path ms ms Hall). }
  split; [done|].
  rewrite fused_method_results. apply run_methods_dom.
Qed.

Lemma all_failed_is_defined_witness :
  exists r, detect Stubs.all_fail Examples.no_store 0.25 "photo.jpg"
                   (Some "doc-1") = Return r
            /\ confidence_score r = 0%float
            /\ is_ai_generated r = false
            /\ contributing_factors r = []
            /\ processing_time r = 0.25%float
            /\ dom (method_results r) = list_to_set Stubs.all_fail.*1.
Proof.
  apply (all_failed_is_defined Stubs.all_fail Examples.no_store 0.25
           "photo.jpg" (Some "doc-1")).
  - intros name info Hin. unfold Stubs.all_fail, registry_of in Hin.
    repeat (apply elem_of_cons in Hin as [Heq|Hin];
            [injection Heq as -> ->; reflexivity|]).
    by apply elem_of_nil in Hin.
  - intros id doc _. exists true. reflexivity.
Defined.

(** ** Failure isolation *)

Lemma same_name_same_entry (ms : registry) name info info' :
  NoDup ms.*1 -> (name, info) ∈ ms -> (name, info') ∈ ms -> info' = info.
Proof.
  induction ms as [|[n i] ms IH]; intros Hnd H1 H2.
  - by apply elem_of_nil in H1.
  - cbn in Hnd. apply NoDup_cons in Hnd as [Hn Hnd].
    apply elem_of_cons in H1 as [H1|H1]; apply elem_of_cons in H2 as [H2|H2].
    + congruence.
    + injection H1 as -> ->. exfalso. apply Hn.
      apply list_elem_of_fmap. by exists (n, info').
    + injection H2 as -> ->. exfalso. apply Hn.
      apply list_elem_of_fmap. by exists (n, info).
    + by apply IH.
Qed.

Lemma non_failed_without path (ms : registry) name :
  (forall info, (name, info) ∈ ms -> failed (invoke path info) = true) ->
  non_failed (outcomes ms path) = non_failed (outcomes (without name ms) path).
Proof.
  induction ms as [|[n i] ms IH]; intros Hf; [done|].
  assert (IH' : non_failed (outcomes ms path)
                = non_failed (outcomes (without name ms) path)).
  { apply IH. intros info Hin. apply Hf. apply elem_of_cons. by right. }
  unfold outcomes, non_failed, without in *.
  cbn [map List.filter fst snd].
  destruct (String.eqb n name) eqn:Hn; cbn [negb map List.filter fst snd].
  - apply String.eqb_eq in Hn as ->.
    rewrite (Hf i) by (apply elem_of_cons; by left). cbn [negb]. exact IH'.
  - destruct (negb (failed (invoke path i))); [by f_equal|exact IH'].
Qed.

(** C4: if the invocation of one detector raises, its slot holds the failed
    outcome carrying the failure description, every registered detector
    still has its own outcome recorded, confidence, verdict and factors are
    those of the registry without the failed detector (its weight is in
    neither sum), and [detect] returns (it raises only if the document
    store does). *)
Theorem failure_is_isolated (ms : registry) st elapsed path mid name info e :
  NoDup ms.*1 ->
  (name, info) ∈ ms ->
  function info path = Raise e ->
  store_accepts st mid ->
  exists r, detect ms st elapsed path mid = Return r
    /\ method_results r !! name = Some (error_result e)
    /\ failed (error_result e) = true
    /\ mr_error (error_result e) = Some e
    /\ (forall n i, (n, i) ∈ ms -> method_results r !! n = Some (invoke path i))
    /\ confidence_score r
       = weighted_average (non_failed (outcomes (without name ms) path))
    /\ is_ai_generated r = (0.5 <? confidence_score r)%float
    /\ contributing_factors r
       = significant_factors (outcomes (without name ms) path).
Proof.
  intros Hnd Hin Hraise Hst. exists (fused ms elapsed path).
  assert (Hinv : invoke path info = error_result e)
    by (unfold invoke; by rewrite Hraise).
  assert (Hf : forall info', (name, info') ∈ ms ->
                             failed (invoke path info') = true).
  { intros info' Hin'.
    rewrite (same_name_same_entry ms name info info' Hnd Hin Hin'), Hinv.
    reflexivity. }
  split; [by apply detect_returns|].
  split.
  { rewrite fused_method_results, (run_methods_lookup path ms name info) by done.
    by rewrite Hinv. }
  split; [done|]. split; [done|].
  split.
  { intros n i Hi. rewrite fused_method_results. by apply run_methods_lookup. }
  split.
  { rewrite fused_confidence, recorded_run by done.
    by rewrite (non_failed_without path ms name Hf). }
  split; [apply fused_verdict|].
  rewrite fused_factors, recorded_run by done.
  unfold significant_factors.
  by rewrite (non_failed_without path ms name Hf).
Qed.

Lemma failure_is_isolated_witness :
  exists r, detect Stubs.metadata_raises Examples.no_store 0 "photo.jpg"
                   (Some "doc-1") = Return r
    /\ method_results r !! "metadata_analysis"
       = Some (error_result "no EXIF reader")
    /\ failed (error_result "no EXIF reader") = true
    /\ mr_error (error_result "no EXIF reader") = Some "no EXIF reader"
    /\ (forall n i, (n, i) ∈ Stubs.metadata_raises ->
                    method_results r !! n = Some (invoke "photo.jpg" i))
    /\ confidence_score r
       = weighted_average
           (non_failed (outcomes (without "metadata_analysis" Stubs.metadata_raises)
                                 "photo.jpg"))
    /\ is_ai_generated r = (0.5 <? confidence_score r)%float
    /\ contributing_factors r
       = significant_factors
           (outcomes (without "metadata_analysis" Stubs.metadata_raises)
                     "photo.jpg").
Proof.
  apply (failure_is_isolated Stubs.metadata_raises Examples.no_store 0
           "photo.jpg" (Some "doc-1") "metadata_analysis"
           (MethodInfo (Stubs.raises "no EXIF reader") 0.15) "no EXIF reader").
  - apply registry_of_distinct.
  - apply elem_of_cons. left. reflexivity.
  - reflexivity.
  - intros id doc _. exists true. reflexivity.
Defined.

(** ** A single surviving detector *)

(** Adding to the initial [0.0] leaves a positive weight unchanged. *)
Lemma add_zero_positive (w : float) :
  (0 <? w)%float = true -> (0 + w)%float = w.
Proof.
  intros Hw. apply Prim2SF_inj. rewrite add_spec.
  rewrite ltb_spec in Hw. change (Prim2SF 0) with (S754_zero false) in *.
  destruct (Prim2SF w) as [s|s| |s m e]; try discriminate Hw; reflexivity.
Qed.

(** When exactly one detector survives, with a positive weight [w], the
    final confidence is the binary64 quotient [(0.0 + w * c) / w]. *)
Lemma single_survivor_quotient (ms : registry) elapsed path name w m :
  NoDup ms.*1 ->
  non_failed (outcomes ms path) = [(name, w, m)] ->
  (0 <? w)%float = true ->
  confidence_score (fused ms elapsed path)
  = ((0 + w * mr_confidence_score m) / w)%float.
Proof.
  intros Hnd Hone Hw.
  rewrite fused_confidence, recorded_run, Hone by done.
  unfold weighted_average, sum_weights, sum_weighted. cbn [fold_left fst snd].
  by rewrite (add_zero_positive w Hw), Hw.
Qed.

(** With a weight of [register_detection_methods], that quotient is above
    0.5 exactly when the confidence is: the quotient is monotone in the
    confidence, it is 0.5 at 0.5 and above 0.5 at the next float. *)
Lemma lone_quotient_verdict (w c : float) :
  w = 0.15%float \/ w = 0.2%float ->
  (0 <=? c)%float = true -> (c <=? 1)%float = true ->
  (0.5 <? (0 + w * c) / w)%float = (0.5 <? c)%float.
Proof.
  intros Hw Hc0 Hc1.
  assert (Hpos : (0 <? w)%float = true) by (by destruct Hw as [->| ->]).
  assert (Hwfin : Prim2SF w <> S754_infinity false).
  { apply finite_cases. by destruct Hw as [->| ->]. }
  destruct (positive_cases w Hpos) as [Hinf|(vw & Hvw & Hvpos)]; [done|].
  destruct (unit_interval_nonneg c Hc0 Hc1) as (vc & Hc & Hvc).
  destruct (lone_quotient w c vw vc Hvw Hvpos Hc Hvc) as (v & Hq & Hv).
  destruct (0.5 <? c)%float eqn:Hhalf.
  - apply (ltb_nonneg 0.5 c (/ 2) vc nonneg_half Hc) in Hhalf.
    destruct (above_half c vc Hc Hhalf) as (v1 & Hc1' & Hv1 & Hv1').
    destruct (lone_quotient w _ vw v1 Hvw Hvpos Hc1' Hv1') as (u & Hqu & Hu).
    pose proof (lone_quotient_mono vw v1 vc u v Hvpos Hv1 Hqu Hq) as Hle.
    assert (Hux : (/ 2 < u)%R).
    { apply (ltb_nonneg 0.5 _ (/ 2) u nonneg_half Hu).
      by destruct Hw as [->| ->]. }
    apply (ltb_nonneg 0.5 _ (/ 2) v nonneg_half Hv). lra.
  - assert (Hvc' : (vc <= / 2)%R).
    { destruct (Rle_lt_dec vc (/ 2)) as [|Hgt]; [done|].
      apply (ltb_nonneg 0.5 c (/ 2) vc nonneg_half Hc) in Hgt. congruence. }
    assert (Hhle : (/ 2 <= 1)%R) by lra.
    destruct (lone_quotient w 0.5 vw (/ 2) Hvw Hvpos nonneg_half Hhle)
      as (u & Hqu & Hu).
    pose proof (lone_quotient_mono vw vc (/ 2) v u Hvpos Hvc' Hq Hqu) as Hle.
    assert (Hux : (u <= / 2)%R).
    { destruct (Rle_lt_dec u (/ 2)) as [|Hgt]; [done|].
      apply (ltb_nonneg 0.5 _ (/ 2) u nonneg_half Hu) in Hgt.
      destruct Hw as [->| ->]; discriminate Hgt. }
    destruct (0.5 <? (0 + w * c) / w)%float eqn:Hres; [|done].
    apply (ltb_nonneg 0.5 _ (/ 2) v nonneg_half Hv) in Hres. lra.
Qed.

(** C5, as the code has it: with the registry of
    [register_detection_methods], when exactly one detector survives, with
    weight [w], confidence [c] in [[0,1]] and verdict [d], the final
    confidence is the binary64 quotient [(0.0 + w * c) / w] (equal to [c] up
    to rounding only) and the final verdict is [c > 0.5], whichever detector
    it is and whatever [d] is. *)
Theorem single_survivor f1 f2 f3 f4 f5 f6 st elapsed path mid r name w m :
  non_failed (outcomes (registry_of f1 f2 f3 f4 f5 f6) path) = [(name, w, m)] ->
  (0 <=? mr_confidence_score m)%float = true ->
  (mr_confidence_score m <=? 1)%float = true ->
  detect (registry_of f1 f2 f3 f4 f5 f6) st elapsed path mid = Return r ->
  confidence_score r = ((0 + w * mr_confidence_score m) / w)%float
  /\ is_ai_generated r = (0.5 <? confidence_score r)%float
  /\ is_ai_generated r = (0.5 <? mr_confidence_score m)%float.
Proof.
  intros Hone Hc0 Hc1 Hr. apply detect_fused in Hr as ->.
  assert (Hw : w = 0.15%float \/ w = 0.2%float).
  { assert (Hin : (name, w, m) ∈ outcomes (registry_of f1 f2 f3 f4 f5 f6) path).
    { apply (non_failed_elem _ (name, w, m)). rewrite Hone.
      apply elem_of_cons. by left. }
    rewrite outcomes_registry_of in Hin.
    repeat (apply elem_of_cons in Hin as [Heq|Hin];
            [injection Heq as _ -> _; auto|]).
    by apply elem_of_nil in Hin. }
  assert (Hpos : (0 <? w)%float = true) by (by destruct Hw as [->| ->]).
  assert (Hc : confidence_score (fused (registry_of f1 f2 f3 f4 f5 f6) elapsed path)
               = ((0 + w * mr_confidence_score m) / w)%float).
  { apply (single_survivor_quotient _ _ _ name); [|done|done].
    apply registry_of_distinct. }
  split; [exact Hc|]. split; [apply fused_verdict|].
  rewrite fused_verdict, Hc. by apply lone_quotient_verdict.
Qed.

Lemma single_survivor_witness :
  confidence_score (fused Stubs.only_vit 0 "photo.jpg")
  = ((0 + 0.15 * 0.85) / 0.15)%float
  /\ is_ai_generated (fused Stubs.only_vit 0 "photo.jpg")
     = (0.5 <? confidence_score (fused Stubs.only_vit 0 "photo.jpg"))%float
  /\ is_ai_generated (fused Stubs.only_vit 0 "photo.jpg")
     = (0.5 <? 0.85)%float.
Proof.
  apply (single_survivor
           (Stubs.raises "no EXIF reader") (Stubs.raises "cannot decode")
           (Stubs.raises "cannot decode") (Stubs.raises "cannot decode")
           (Stubs.says true 0.85) (Stubs.raises "model not loaded")
           Examples.no_store 0 "photo.jpg" None
           _ "vit_model" 0.15
           (MethodResult true 0.85 None None None None None None None)).
  - reflexivity.
  - reflexivity.
  - reflexivity.
  - reflexivity.
Defined.

(** C5 fails as stated: the Vision Transformer predictor alone, with its
    weight 0.15 and its confidence 0.85, gives a final confidence that is
    not 0.85. *)
Lemma single_survivor_not_exact :
  non_failed (outcomes Stubs.only_vit "photo.jpg")
  = [("vit_model", 0.15%float,
      MethodResult true 0.85 None None None None None None None)]
  /\ detect Stubs.only_vit Examples.no_store 0 "photo.jpg" None
     = Return (fused Stubs.only_vit 0 "photo.jpg")
  /\ confidence_score (fused Stubs.only_vit 0 "photo.jpg")
     = 0.85000000000000009%float
  /\ (confidence_score (fused Stubs.only_vit 0 "photo.jpg") =? 0.85)%float
     = false
  /\ confidence_score (fused Stubs.only_vit 0 "photo.jpg") <> 0.85%float.
Proof.
  repeat split; try (vm_compute; reflexivity).
  intros H. apply (f_equal (fun x => (x =? 0.85)%float)) in H.
  vm_compute in H. discriminate H.
Qed.

(** ** Registry order *)

Lemma reordered_is_permutation : Orders.registered ≡ₚ Orders.reordered.
Proof.
  unfold Orders.registered, Orders.reordered, registry_of.
  apply perm_skip.
  apply (Permutation_app_tail
           [("resnet_model", MethodInfo Orders.f_resnet 0.15)]
           (Permutation_app_comm
              [("ela_analysis", MethodInfo Orders.f_ela 0.20);
               ("prnu_analysis", MethodInfo Orders.f_prnu 0.20)]
              [("texture_analysis", MethodInfo Orders.f_texture 0.15);
               ("vit_model", MethodInfo Orders.f_vit 0.15)])).
Qed.

Lemma non_failed_Permutation (os os' : list (string * float * method_result)) :
  os ≡ₚ os' -> non_failed os ≡ₚ non_failed os'.
Proof.
  unfold non_failed. induction 1 as [|o l l' _ IH|o o' l|l l' l'' _ IH1 _ IH2];
    cbn [List.filter].
  - done.
  - destruct (negb (failed (snd o))); [by constructor|done].
  - destruct (negb (failed (snd o))), (negb (failed (snd o'))); try done.
    apply perm_swap.
  - by etrans.
Qed.

Lemma run_methods_Permutation (ms ms' : registry) path :
  NoDup ms.*1 -> ms ≡ₚ ms' -> run_methods ms path = run_methods ms' path.
Proof.
  intros Hnd Hp.
  assert (Hnd' : NoDup ms'.*1) by (by rewrite <- Hp).
  apply map_eq. intros name.
  destruct (decide (name ∈ ms.*1)) as [Hin|Hin].
  - apply list_elem_of_fmap in Hin as ([n info] & -> & Hin). cbn [fst].
    rewrite (run_methods_lookup path ms n info) by done.
    rewrite (run_methods_lookup path ms' n info); [done|done|by rewrite <- Hp].
  - unfold run_methods. rewrite !run_method_fold_other; [done| |done].
    by rewrite <- Hp.
Qed.

(** C7, as the code has it: permuting the registry (distinct names) leaves
    every detector's recorded outcome unchanged and permutes the non-failed
    terms; each final confidence is [S / W] with both sums added up in the
    order of its own registry, so the two results are equal whenever the
    non-failed detectors come in the same relative order, and otherwise can
    differ by the rounding of the binary64 additions. *)
Theorem permuted_registry (ms ms' : registry) st elapsed path mid r r' :
  NoDup ms.*1 ->
  ms ≡ₚ ms' ->
  detect ms st elapsed path mid = Return r ->
  detect ms' st elapsed path mid = Return r' ->
  method_results r = method_results r'
  /\ non_failed (outcomes ms path) ≡ₚ non_failed (outcomes ms' path)
  /\ confidence_score r = weighted_average (non_failed (outcomes ms path))
  /\ confidence_score r' = weighted_average (non_failed (outcomes ms' path))
  /\ (non_failed (outcomes ms path) = non_failed (outcomes ms' path) ->
      confidence_score r = confidence_score r'
      /\ is_ai_generated r = is_ai_generated r').
Proof.
  intros Hnd Hp Hr Hr'.
  assert (Hnd' : NoDup ms'.*1) by (by rewrite <- Hp).
  apply detect_fused in Hr as ->. apply detect_fused in Hr' as ->.
  assert (Hc : confidence_score (fused ms elapsed path)
               = weighted_average (non_failed (outcomes ms path)))
    by (by rewrite fused_confidence, recorded_run).
  assert (Hc' : confidence_score (fused ms' elapsed path)
                = weighted_average (non_failed (outcomes ms' path)))
    by (by rewrite fused_confidence, recorded_run).
  split; [by apply run_methods_Permutation|].
  split.
  { apply non_failed_Permutation. unfold outcomes. by apply Permutation_map. }
  split; [exact Hc|]. split; [exact Hc'|].
  intros Heq. rewrite !fused_verdict, Hc, Hc', Heq. done.
Qed.

Lemma permuted_registry_witness :
  method_results (fused Orders.registered 0 "photo.jpg")
  = method_results (fused Orders.reordered 0 "photo.jpg")
  /\ non_failed (outcomes Orders.registered "photo.jpg")
     ≡ₚ non_failed (outcomes Orders.reordered "photo.jpg").
Proof.
  pose proof reordered_is_permutation as Hp.
  pose proof (permuted_registry Orders.registered Orders.reordered
                Examples.no_store 0 "photo.jpg" None _ _
                (registry_of_distinct _ _ _ _ _ _) Hp eq_refl eq_refl)
    as (H1 & H2 & _).
  split; [exact H1|exact H2].
Defined.

(** C7 fails as stated: the same six outcomes give 0.5 (verdict
    "authentic") in the order of [register_detection_methods] and
    0.5000000000000001 (verdict "AI-generated") in another order. *)
Lemma registry_order_changes_result :
  Orders.registered ≡ₚ Orders.reordered
  /\ run_methods Orders.registered "photo.jpg"
     = run_methods Orders.reordered "photo.jpg"
  /\ detect Orders.registered Examples.no_store 0 "photo.jpg" None
     = Return (fused Orders.registered 0 "photo.jpg")
  /\ detect Orders.reordered Examples.no_store 0 "photo.jpg" None
     = Return (fused Orders.reordered 0 "photo.jpg")
  /\ confidence_score (fused Orders.registered 0 "photo.jpg") = 0.5%float
  /\ confidence_score (fused Orders.reordered 0 "photo.jpg")
     = 0.50000000000000011%float
  /\ (confidence_score (fused Orders.registered 0 "photo.jpg")
      =? confidence_score (fused Orders.reordered 0 "photo.jpg"))%float = false
  /\ is_ai_generated (fused Orders.registered 0 "photo.jpg") = false
  /\ is_ai_generated (fused Orders.reordered 0 "photo.jpg") = true.
Proof.
  pose proof reordered_is_permutation as Hp.
  split; [exact Hp|].
  split; [apply run_methods_Permutation; [apply registry_of_distinct|exact Hp]|].
  repeat split; vm_compute; reflexivity.
Qed.

(** ** The summary *)

Lemma append_assoc (s1 s2 s3 : string) :
  (s1 ++ s2) ++ s3 = s1 ++ (s2 ++ s3).
Proof.
  induction s1 as [|c s1 IH]; [reflexivity|].
  change (String c ((s1 ++ s2) ++ s3) = String c (s1 ++ s2 ++ s3)).
  by rewrite IH.
Qed.

Lemma render_results_dict percent (r : results) :
  render_summary percent (results_dict r) =
  if is_ai_generated r then
    if contributing_factors r is [] then
      Return ("This image is likely AI-generated with "
              ++ percent (confidence_score r) ++ " confidence. ")
    else
      factor_descriptions ←
        describe_factors percent (map factor_value (contributing_factors r)) [];
      Return ("This image is likely AI-generated with "
              ++ percent (confidence_score r) ++ " confidence. "
              ++ "Key indicators include: "
              ++ String.concat ", " factor_descriptions ++ ".")
  else
    Return ("This image appears to be authentic with "
            ++ percent (1 - confidence_score r)%float ++ " confidence. "
            ++ "No significant indicators of AI generation were detected.").
Proof.
  unfold render_summary, results_dict.
  destruct (is_ai_generated r); cbn; [|done].
  destruct (contributing_factors r) as [|c l]; [done|].
  cbn -[describe_factors String.concat append].
  destruct (describe_factors percent _ []); cbn -[String.concat append];
    [|done].
  by rewrite !append_assoc.
Qed.

(** C8: for a fusion result whose verdict is "authentic" the summary says
    the image appears to be authentic, with [1 - final_confidence] as the
    percentage, followed by the fixed no-indicators sentence; and for any
    input on which the rendering raises, the generator returns the fixed
    fallback sentence. *)
Theorem authentic_summary_and_fallback percent (r : results) (d : dict) e :
  is_ai_generated r = false ->
  render_summary percent d = Raise e ->
  generate_result_summary percent (results_dict r)
  = "This image appears to be authentic with "
    ++ percent (1 - confidence_score r)%float ++ " confidence. "
    ++ "No significant indicators of AI generation were detected."
  /\ generate_result_summary percent d
     = "Detection completed, but summary generation failed.".
Proof.
  intros Hv Hraise. unfold generate_result_summary.
  by rewrite render_results_dict, Hv, Hraise.
Qed.

Lemma authentic_summary_and_fallback_witness :
  generate_result_summary percent1
    (results_dict (fused (register_detection_methods Examples.camera_photo)
                         0.25 "photo.jpg"))
  = "This image appears to be authentic with 58.2% confidence. No significant indicators of AI generation were detected."
  /\ generate_result_summary percent1 [("is_ai_generated", VBool false)]
     = "Detection completed, but summary generation failed.".
Proof.
  apply (authentic_summary_and_fallback percent1
           (fused (register_detection_methods Examples.camera_photo)
                  0.25 "photo.jpg")
           [("is_ai_generated", VBool false)] "'confidence_score'").
  - vm_compute. reflexivity.
  - vm_compute. reflexivity.
Defined.

(** The generator never raises: it is a total function into strings, and on
    a dictionary with the two keys holding a boolean and a float it does not
    fall back. *)
Lemma summary_of_authentic_dict percent (d : dict) c :
  dict_get "is_ai_generated" d = Some (VBool false) ->
  dict_get "confidence_score" d = Some (VFloat c) ->
  generate_result_summary percent d
  = "This image appears to be authentic with " ++ percent (1 - c)%float
    ++ " confidence. "
    ++ "No significant indicators of AI generation were detected.".
Proof.
  intros H1 H2. unfold generate_result_summary, render_summary, dict_item.
  rewrite H1, H2. reflexivity.
Qed.

(** ** What is persisted for a failed detector *)

(** The document handed to the store is [build_update_data] of the result
    that [detect] returns. *)
Lemma detect_persists ms st elapsed path mid id r :
  truthy_id mid = Some id ->
  detect ms st elapsed path mid = Return r ->
  exists b, st id (build_update_data r) = Return b.
Proof.
  intros Hid Hr. pose proof (detect_fused _ _ _ _ _ _ Hr) as ->.
  unfold detect in Hr. fold (fused ms elapsed path) in Hr. rewrite Hid in Hr.
  cbv [update_metadata mbind outcome_bind mret outcome_ret] in Hr.
  destruct (st id _) as [b|]; [by exists b|discriminate Hr].
Qed.

(** C9: when the invocation of a detector raises, its slot in
    [method_results] holds [is_ai_generated = False] and
    [confidence_score = 0.0] next to the error text, and the document
    handed to the store carries that [False] and [0.0] as the detector's
    [is_suspicious] and [confidence] (the detector-specific score defaults
    to [0.0], the anomalies to the empty list, the image path to the empty
    string). *)
Theorem failed_detector_placeholders
    (ms : registry) st elapsed path mid name info e r :
  NoDup ms.*1 ->
  (name, info) ∈ ms ->
  function info path = Raise e ->
  detect ms st elapsed path mid = Return r ->
  method_results r !! name
  = Some (MethodResult false 0 (Some e) None None None None None None)
  /\ (forall id, truthy_id mid = Some id ->
                 exists b, st id (build_update_data r) = Return b)
  /\ (name = "metadata_analysis" ->
      exif_data (build_update_data r) = Some (AnalysisResult false 0 []))
  /\ (name = "ela_analysis" ->
      pixel_ela_results (build_update_data r) = Some (ElaResults 0 false 0 ""))
  /\ (name = "prnu_analysis" ->
      pixel_prnu_results (build_update_data r) = Some (PrnuResults 0 false 0))
  /\ (name = "texture_analysis" ->
      pixel_texture_analysis (build_update_data r)
      = Some (TextureAnalysis 0 false 0)).
Proof.
  intros Hnd Hin Hraise Hr.
  assert (Hslot : method_results r !! name = Some (error_result e)).
  { pose proof (detect_fused _ _ _ _ _ _ Hr) as ->.
    rewrite fused_method_results, (run_methods_lookup path ms name info) by done.
    unfold invoke. by rewrite Hraise. }
  split; [exact Hslot|].
  split; [intros id Hid; by eapply detect_persists|].
  unfold build_update_data. cbn.
  repeat split; intros ->; by rewrite Hslot.
Qed.

Lemma failed_detector_placeholders_witness :
  method_results (fused Stubs.metadata_raises 0 "photo.jpg")
    !! "metadata_analysis"
  = Some (MethodResult false 0 (Some "no EXIF reader") None None None None
                       None None)
  /\ exif_data (build_update_data (fused Stubs.metadata_raises 0 "photo.jpg"))
     = Some (AnalysisResult false 0 []).
Proof.
  pose proof (failed_detector_placeholders Stubs.metadata_raises
                Examples.no_store 0 "photo.jpg" (Some "doc-1")
                "metadata_analysis"
                (MethodInfo (Stubs.raises "no EXIF reader") 0.15)
                "no EXIF reader" _
                (registry_of_distinct _ _ _ _ _ _)
                ltac:(apply elem_of_cons; left; reflexivity)
                eq_refl eq_refl) as (H1 & _ & H2 & _).
  split; [exact H1|exact (H2 eq_refl)].
Defined.

(** The two model predictors go to [model_results] with the same
    placeholders, under [is_ai_generated] and [confidence]. *)
Lemma failed_model_placeholders (ms : registry) elapsed path info e :
  NoDup ms.*1 ->
  ("vit_model", info) ∈ ms ->
  function info path = Raise e ->
  exists rest,
    model_results (build_update_data (fused ms elapsed path))
    = Some (ModelResult "Vision Transformer" "1.0" false 0 0 :: rest).
Proof.
  intros Hnd Hin Hraise. unfold build_update_data.
  rewrite fused_method_results.
  rewrite (run_methods_lookup path ms "vit_model" info Hnd Hin).
  unfold invoke. rewrite Hraise. cbn. eexists. reflexivity.
Qed.

(** ** A verdict without factors *)

(** C10: a result can have the verdict "AI-generated" and no contributing
    factor (here on the registry of [register_detection_methods]), and for
    every such result the summary is the "likely AI-generated" sentence
    alone, with no indicators clause. *)
Theorem verdict_without_factors percent :
  (exists ext path,
      is_ai_generated (fused (register_detection_methods ext) 0 path) = true
      /\ (0.5 <? confidence_score (fused (register_detection_methods ext) 0 path))%float
         = true
      /\ contributing_factors (fused (register_detection_methods ext) 0 path) = []
      /\ detect (register_detection_methods ext) Examples.no_store 0 path None
         = Return (fused (register_detection_methods ext) 0 path))
  /\ (forall r : results,
        is_ai_generated r = true ->
        contributing_factors r = [] ->
        generate_result_summary percent (results_dict r)
        = "This image is likely AI-generated with "
          ++ percent (confidence_score r) ++ " confidence. ").
Proof.
  split.
  - exists Borderline.image, "upload.jpg". repeat split; vm_compute; reflexivity.
  - intros r Hv Hf. unfold generate_result_summary.
    by rewrite render_results_dict, Hv, Hf.
Qed.

(** * Further properties *)

(** ** Two runs with the same weights *)

Lemma sums_le_0 : sums_le 0 0 0.
Proof.
  right. exists 0%R, 0%R, 0%R.
  repeat split; try apply nonneg_0; lra.
Qed.

Lemma sums_le_step s s' t w c c' :
  sums_le s s' t ->
  (0 <? w)%float = true ->
  (0 <=? c)%float = true -> (c <=? 1)%float = true ->
  (0 <=? c')%float = true -> (c' <=? 1)%float = true ->
  (c <=? c')%float = true ->
  sums_le (s + w * c) (s' + w * c') (t + w).
Proof.
  intros Hst Hw Hc0 Hc1 Hc0' Hc1' Hle.
  destruct (unit_interval_nonneg c Hc0 Hc1) as (vc & Hc & Hvc).
  destruct (unit_interval_nonneg c' Hc0' Hc1') as (vc' & Hc' & Hvc').
  pose proof (nonneg_val_ge_0 _ _ Hc) as Hvc0.
  pose proof (nonneg_val_ge_0 _ _ Hc') as Hvc0'.
  apply (leb_nonneg c c' vc vc' Hc Hc') in Hle.
  destruct (positive_cases w Hw) as [Hinf|(vw & Hvw & Hpos)].
  { left. destruct Hst as [Ht|(vs & vs' & vt & _ & _ & Ht & _)].
    - apply (add_infinity_r t w 0); [by left|done].
    - apply (add_infinity_r t w vt); [by right|done]. }
  destruct Hst as [Ht|(vs & vs' & vt & Hs & Hs' & Ht & Hss & Hst)].
  { left. apply (add_infinity_l t w vw); [done|by right]. }
  destruct (add_nonneg t w vt vw Ht Hvw) as (vt' & Hrt & Hresult_t).
  destruct (result_overflow _ _ Hresult_t) as [Hover|Ht']; [by left|].
  right.
  destruct (mul_nonneg w c vw vc Hvw Hc) as (vp & Hrp & Hresult_p).
  destruct (mul_nonneg w c' vw vc' Hvw Hc') as (vp' & Hrp' & Hresult_p').
  assert (Hpp : (vp <= vp')%R).
  { apply (is_rnd_mono (vw * vc) (vw * vc')); [nra|done|done]. }
  assert (Hvp' : (vp' <= vw)%R).
  { apply (is_rnd_mono (vw * vc') vw); [nra|done|].
    by apply (nonneg_val_rnd (Prim2SF w)). }
  pose proof (nonneg_lt_overflow _ _ Hvw) as Hwlt.
  assert (Hp : nonneg (w * c) vp) by (apply result_of_prim; [done|lra]).
  assert (Hp' : nonneg (w * c') vp') by (apply result_of_prim; [done|lra]).
  destruct (add_nonneg s (w * c) vs vp Hs Hp) as (vs1 & Hrs & Hresult_s).
  destruct (add_nonneg s' (w * c') vs' vp' Hs' Hp') as (vs1' & Hrs' & Hresult_s').
  assert (H1 : (vs1 <= vs1')%R).
  { apply (is_rnd_mono (vs + vp) (vs' + vp')); [lra|done|done]. }
  assert (H2 : (vs1' <= vt')%R).
  { apply (is_rnd_mono (vs' + vp') (vt + vw)); [lra|done|done]. }
  pose proof (nonneg_lt_overflow _ _ Ht') as Htlt.
  exists vs1, vs1', vt'.
  split; [apply result_of_prim; [done|lra]|].
  split; [apply result_of_prim; [done|lra]|].
  done.
Qed.

Lemma sums_le_quotient s s' t :
  sums_le s s' t ->
  (0 <? t)%float = true -> (t <? infinity)%float = true ->
  exists v v', nonneg (s / t) v /\ nonneg (s' / t) v'
               /\ (v <= v')%R /\ (v' <= 1)%R.
Proof.
  intros Hst Hpos Hfin.
  destruct Hst as [Ht|(vs & vs' & vt & Hs & Hs' & Ht & Hss & Hle)];
    [by apply finite_cases in Hfin|].
  assert (Hvt : (0 < vt)%R) by (by apply (ltb_nonneg 0 t 0 vt nonneg_0 Ht)).
  pose proof (nonneg_val_ge_0 _ _ Hs) as Hvs.
  destruct (div_nonneg s t vs vt Hs Ht Hvt) as (v & Hr & Hresult).
  destruct (div_nonneg s' t vs' vt Hs' Ht Hvt) as (v' & Hr' & Hresult').
  assert (Hinv : (0 < / vt)%R) by (by apply Rinv_0_lt_compat).
  assert (Hv' : (v' <= 1)%R).
  { apply (is_rnd_mono (vs' / vt) 1); [|done|apply is_rnd_1].
    apply Rmult_le_reg_r with vt; [done|].
    unfold Rdiv. rewrite Rmult_assoc, Rinv_l by lra. lra. }
  assert (Hvv : (v <= v')%R).
  { apply (is_rnd_mono (vs / vt) (vs' / vt)); [|done|done].
    unfold Rdiv. by apply Rmult_le_compat_r; [lra|]. }
  assert (H1lt : (1 < pow2 1024)%R) by (rewrite <- pow2_0; by apply pow2_lt).
  exists v, v'.
  split; [apply result_of_prim; [done|lra]|].
  split; [apply result_of_prim; [done|lra]|].
  done.
Qed.

Lemma sums_le_fold (os os' : list (string * float * method_result)) s s' t :
  sums_le s s' t ->
  Forall2 no_more_confident os os' ->
  sums_le
    (fold_left (fun s o => (s + snd (fst o) * mr_confidence_score (snd o))%float)
               os s)
    (fold_left (fun s o => (s + snd (fst o) * mr_confidence_score (snd o))%float)
               os' s')
    (fold_left (fun s o => (s + snd (fst o))%float) os t).
Proof.
  intros Hst HF. revert s s' t Hst.
  induction HF as [|o o' os os' (Hw & (Hpos & Hc0 & Hc1) & (_ & Hc0' & Hc1') & Hle) _ IH];
    intros s s' t Hst; [done|].
  cbn [fold_left]. apply IH. rewrite <- Hw. by apply sums_le_step.
Qed.

Lemma sum_weights_Forall2 (os os' : list (string * float * method_result)) :
  Forall2 no_more_confident os os' -> sum_weights os = sum_weights os'.
Proof.
  intros HF. unfold sum_weights. generalize 0%float.
  induction HF as [|o o' os os' (Hw & _) _ IH]; intros t; [done|].
  cbn [fold_left]. rewrite Hw. apply IH.
Qed.

(** Raising confidences never lowers the weighted average. *)
Lemma weighted_average_mono (os os' : list (string * float * method_result)) :
  Forall2 no_more_confident os os' ->
  (sum_weights os <? infinity)%float = true ->
  exists v v', nonneg (weighted_average os) v /\ nonneg (weighted_average os') v'
               /\ (v <= v')%R /\ (v' <= 1)%R.
Proof.
  intros HF Hfin. unfold weighted_average.
  rewrite <- (sum_weights_Forall2 os os' HF).
  destruct (0 <? sum_weights os)%float eqn:Hpos.
  - apply sums_le_quotient; [|done|done].
    apply sums_le_fold; [apply sums_le_0|done].
  - exists 0%R, 0%R. repeat split; try apply nonneg_0; lra.
Qed.

Lemma non_failed_Forall2 (os os' : list (string * float * method_result)) :
  Forall2 same_failures_no_more_confident os os' ->
  Forall2 no_more_confident (non_failed os) (non_failed os').
Proof.
  unfold non_failed.
  induction 1 as [|o o' os os' [Hf Hc] _ IH]; cbn [List.filter]; [constructor|].
  rewrite <- Hf. destruct (failed (snd o)); cbn [negb]; [done|].
  constructor; [by apply Hc|done].
Qed.

(** [0 <= c <= c' <= 1] on floats: both ends are in the unit interval. *)
Lemma leb_chain c c' :
  (0 <=? c)%float = true -> (c <=? c')%float = true -> (c' <=? 1)%float = true ->
  (c <=? 1)%float = true /\ (0 <=? c')%float = true.
Proof.
  intros H0 Hle H1.
  assert (H0' : (0 <=? c')%float = true).
  { rewrite leb_spec in *. change (Prim2SF 0) with (S754_zero false) in *.
    pose proof nonneg_1 as Hone. unfold nonneg in Hone.
    destruct (Prim2SF c) as [s|s| |s m e], (Prim2SF c') as [s'|s'| |s' m' e'];
      try done; try (by destruct s); try (by destruct s').
    - by destruct s, s'.
    - by destruct s, s'. }
  split; [|done].
  destruct (unit_interval_nonneg c' H0' H1) as (v' & Hc' & Hv').
  destruct (leb_0_cases c H0) as [Hinf|[v Hc]].
  - exfalso. rewrite leb_spec, Hinf in Hle. unfold nonneg in Hc'.
    destruct Hc'; discriminate Hle.
  - apply (leb_nonneg c 1 v 1 Hc nonneg_1).
    apply (leb_nonneg c c' v v' Hc Hc') in Hle. lra.
Qed.

Lemma at_most_as_confident_outcome n n' w m m' :
  at_most_as_confident m m' -> (0 <? w)%float = true ->
  same_failures_no_more_confident (n, w, m) (n', w, m').
Proof.
  intros [Hf Hc] Hw. split; [exact Hf|]. cbn [fst snd]. intros Hnf.
  destruct (Hc Hnf) as (H0 & Hle & H1).
  destruct (leb_chain _ _ H0 Hle H1) as [H1' H0'].
  split; [reflexivity|]. by repeat split.
Qed.

Lemma outcomes_at_most_as_confident f1 f2 f3 f4 f5 f6 g1 g2 g3 g4 g5 g6 path :
  Forall2 (fun o o' => at_most_as_confident (snd o) (snd o'))
          (outcomes (registry_of f1 f2 f3 f4 f5 f6) path)
          (outcomes (registry_of g1 g2 g3 g4 g5 g6) path) ->
  Forall2 no_more_confident
          (non_failed (outcomes (registry_of f1 f2 f3 f4 f5 f6) path))
          (non_failed (outcomes (registry_of g1 g2 g3 g4 g5 g6) path)).
Proof.
  intros H. apply non_failed_Forall2. rewrite !outcomes_registry_of in *.
  repeat (let H1 := fresh "H1" in
          apply Forall2_cons in H as [H1 H]; apply Forall2_cons; split;
          [apply at_most_as_confident_outcome; [exact H1|reflexivity]|]).
  constructor.
Qed.

Lemma weighted_average_le_verdict
    (os os' : list (string * float * method_result)) :
  Forall2 no_more_confident os os' ->
  (sum_weights os <? infinity)%float = true ->
  (weighted_average os <=? weighted_average os')%float = true
  /\ ((0.5 <? weighted_average os)%float = true ->
      (0.5 <? weighted_average os')%float = true).
Proof.
  intros HF Hfin.
  destruct (weighted_average_mono os os' HF Hfin) as (v & v' & Hv & Hv' & Hle & _).
  split; [by apply (leb_nonneg _ _ v v' Hv Hv')|].
  intros H. apply (ltb_nonneg 0.5 _ (/ 2) v nonneg_half Hv) in H.
  apply (ltb_nonneg 0.5 _ (/ 2) v' nonneg_half Hv'). lra.
Qed.

(** X1: raising the confidence of detectors never lowers the final confidence,
    and never turns the verdict from "AI-generated" into "authentic". *)
Theorem fusion_is_monotone
    f1 f2 f3 f4 f5 f6 g1 g2 g3 g4 g5 g6 st st' elapsed elapsed' path mid mid'
    r r' :
  detect (registry_of f1 f2 f3 f4 f5 f6) st elapsed path mid = Return r ->
  detect (registry_of g1 g2 g3 g4 g5 g6) st' elapsed' path mid' = Return r' ->
  Forall2 (fun o o' => at_most_as_confident (snd o) (snd o'))
          (outcomes (registry_of f1 f2 f3 f4 f5 f6) path)
          (outcomes (registry_of g1 g2 g3 g4 g5 g6) path) ->
  (confidence_score r <=? confidence_score r')%float = true
  /\ (is_ai_generated r = true -> is_ai_generated r' = true).
Proof.
  intros Hr Hr' H. apply detect_fused in Hr as ->. apply detect_fused in Hr' as ->.
  rewrite !fused_verdict, !fused_confidence, !recorded_run
    by apply registry_of_distinct.
  apply weighted_average_le_verdict.
  - by apply outcomes_at_most_as_confident.
  - rewrite outcomes_registry_of. apply default_total_weight_finite.
Qed.

Lemma fusion_is_monotone_witness :
  (confidence_score (fused Stubs.metadata_raises 0 "photo.jpg")
   <=? confidence_score
         (fused (registry_of (Stubs.raises "no EXIF reader") (Stubs.says true 0.9)
                             (Stubs.says true 0.8) (Stubs.says true 0.95)
                             (Stubs.says true 0.85) (Stubs.says true 0.9))
                0 "photo.jpg"))%float = true.
Proof.
  refine (proj1 (fusion_is_monotone
           (Stubs.raises "no EXIF reader") (Stubs.says true 0.9)
           (Stubs.says true 0.8) (Stubs.says false 0.3)
           (Stubs.says true 0.85) (Stubs.says true 0.9)
           (Stubs.raises "no EXIF reader") (Stubs.says true 0.9)
           (Stubs.says true 0.8) (Stubs.says true 0.95)
           (Stubs.says true 0.85) (Stubs.says true 0.9)
           Examples.no_store Examples.no_store 0 0 "photo.jpg" None None
           _ _ eq_refl eq_refl _)).
  rewrite !outcomes_registry_of.
  repeat (apply Forall2_cons; split;
          [split; [reflexivity|]; cbn; intros H;
           first [discriminate H|repeat split; reflexivity]|]).
  constructor.
Defined.

(** ** Unanimous detectors *)

Lemma pinned_above (os : list (string * float * method_result)) c0 :
  (0 <=? c0)%float = true -> (c0 <=? 1)%float = true ->
  (forall o, o ∈ os ->
             well_scaled o /\ (mr_confidence_score (snd o) <=? c0)%float = true) ->
  Forall2 no_more_confident os (map (with_confidence c0) os).
Proof.
  intros H0 H1. induction os as [|o os IH]; intros H; cbn [map]; constructor.
  - destruct (H o) as [(Hw & Hc0 & Hc1) Hle]; [apply elem_of_cons; by left|].
    repeat split; assumption.
  - apply IH. intros o' Ho'. apply H. apply elem_of_cons. by right.
Qed.

Lemma pinned_below (os : list (string * float * method_result)) c0 :
  (0 <=? c0)%float = true -> (c0 <=? 1)%float = true ->
  (forall o, o ∈ os ->
             well_scaled o /\ (c0 <=? mr_confidence_score (snd o))%float = true) ->
  Forall2 no_more_confident (map (with_confidence c0) os) os.
Proof.
  intros H0 H1. induction os as [|o os IH]; intros H; cbn [map]; constructor.
  - destruct (H o) as [(Hw & Hc0 & Hc1) Hle]; [apply elem_of_cons; by left|].
    repeat split; assumption.
  - apply IH. intros o' Ho'. apply H. apply elem_of_cons. by right.
Qed.

Lemma sum_weights_with_confidence c0
    (os : list (string * float * method_result)) :
  sum_weights (map (with_confidence c0) os) = sum_weights os.
Proof.
  unfold sum_weights. generalize 0%float.
  induction os as [|o os IH]; intros t; [done|]. cbn [map fold_left]. apply IH.
Qed.

(** With the weights of [register_detection_methods], survivors that all
    report 0.5 average to 0.5 at most, and survivors that all report the
    next float average to more than 0.5: the 64 cases are computed. *)
Lemma default_all_half (m1 m2 m3 m4 m5 m6 : method_result) :
  (0.5 <? weighted_average
            (map (with_confidence 0.5)
               (non_failed [ ("metadata_analysis", 0.15%float, m1);
                             ("ela_analysis", 0.20%float, m2);
                             ("prnu_analysis", 0.20%float, m3);
                             ("texture_analysis", 0.15%float, m4);
                             ("vit_model", 0.15%float, m5);
                             ("resnet_model", 0.15%float, m6) ])))%float = false.
Proof.
  unfold non_failed. cbn [List.filter snd].
  destruct (failed m1), (failed m2), (failed m3), (failed m4), (failed m5),
    (failed m6); cbn [negb]; vm_compute; reflexivity.
Qed.

Lemma default_all_above_half (m1 m2 m3 m4 m5 m6 : method_result) :
  failed m1 && failed m2 && failed m3 && failed m4 && failed m5 && failed m6
    = false ->
  (0.5 <? weighted_average
            (map (with_confidence 0.50000000000000011)
               (non_failed [ ("metadata_analysis", 0.15%float, m1);
                             ("ela_analysis", 0.20%float, m2);
                             ("prnu_analysis", 0.20%float, m3);
                             ("texture_analysis", 0.15%float, m4);
                             ("vit_model", 0.15%float, m5);
                             ("resnet_model", 0.15%float, m6) ])))%float = true.
Proof.
  unfold non_failed. cbn [List.filter snd].
  destruct (failed m1), (failed m2), (failed m3), (failed m4), (failed m5),
    (failed m6); cbn [negb andb]; intros H; try discriminate H;
    vm_compute; reflexivity.
Qed.

Lemma default_weights_positive f1 f2 f3 f4 f5 f6 path o :
  o ∈ outcomes (registry_of f1 f2 f3 f4 f5 f6) path ->
  (0 <? snd (fst o))%float = true.
Proof.
  rewrite outcomes_registry_of. intros Ho.
  repeat (apply elem_of_cons in Ho as [->|Ho]; [reflexivity|]).
  by apply elem_of_nil in Ho.
Qed.

(** X2: when no surviving detector is more than 50% confident, the image is
    not flagged. *)
Theorem unanimous_doubt_is_authentic
    f1 f2 f3 f4 f5 f6 st elapsed path mid r :
  detect (registry_of f1 f2 f3 f4 f5 f6) st elapsed path mid = Return r ->
  (forall o, o ∈ outcomes (registry_of f1 f2 f3 f4 f5 f6) path ->
             failed (snd o) = false ->
             (0 <=? mr_confidence_score (snd o))%float = true
             /\ (mr_confidence_score (snd o) <=? 0.5)%float = true) ->
  is_ai_generated r = false /\ (confidence_score r <=? 0.5)%float = true.
Proof.
  intros Hr Hconf. apply detect_fused in Hr as ->.
  rewrite fused_verdict, fused_confidence, recorded_run
    by apply registry_of_distinct.
  set (os := non_failed (outcomes (registry_of f1 f2 f3 f4 f5 f6) path)).
  assert (HF : Forall2 no_more_confident os (map (with_confidence 0.5) os)).
  { apply pinned_above; [reflexivity|reflexivity|].
    intros o [Ho Hnf]%non_failed_elem.
    destruct (Hconf o Ho Hnf) as [H0 Hh]. split; [|done].
    split; [by eapply default_weights_positive|]. split; [done|].
    by apply (leb_chain _ 0.5). }
  assert (Hfin : (sum_weights os <? infinity)%float = true).
  { unfold os. rewrite outcomes_registry_of. apply default_total_weight_finite. }
  destruct (weighted_average_mono _ _ HF Hfin) as (v & v' & Hv & Hv' & Hle & _).
  assert (Hhalf : (v' <= / 2)%R).
  { destruct (Rle_lt_dec v' (/ 2)) as [|Hgt]; [done|].
    apply (ltb_nonneg 0.5 _ (/ 2) v' nonneg_half Hv') in Hgt.
    unfold os in Hgt. rewrite outcomes_registry_of, default_all_half in Hgt.
    discriminate Hgt. }
  split.
  - destruct (0.5 <? weighted_average os)%float eqn:H; [|done].
    apply (ltb_nonneg 0.5 _ (/ 2) v nonneg_half Hv) in H. lra.
  - apply (leb_nonneg _ 0.5 v (/ 2) Hv nonneg_half). lra.
Qed.

Lemma unanimous_doubt_is_authentic_witness :
  is_ai_generated
    (fused (registry_of (Stubs.raises "no EXIF reader") (Stubs.says true 0.5)
                        (Stubs.says true 0.4) (Stubs.says false 0.3)
                        (Stubs.says false 0.25) (Stubs.says false 0.2))
           0 "photo.jpg") = false.
Proof.
  refine (proj1 (unanimous_doubt_is_authentic
           (Stubs.raises "no EXIF reader") (Stubs.says true 0.5)
           (Stubs.says true 0.4) (Stubs.says false 0.3)
           (Stubs.says false 0.25) (Stubs.says false 0.2)
           Examples.no_store 0 "photo.jpg" None _ eq_refl _)).
  intros o Ho Hnf. rewrite outcomes_registry_of in Ho.
  repeat (apply elem_of_cons in Ho as [->|Ho];
          [first [discriminate Hnf|split; reflexivity]|]).
  by apply elem_of_nil in Ho.
Defined.

(** A float above 0.5 is not below zero. *)
Lemma above_half_nonneg c :
  (0.5 <? c)%float = true -> (0 <=? c)%float = true.
Proof.
  rewrite ltb_spec, leb_spec.
  change (Prim2SF 0.5) with (S754_finite false 4503599627370496 (-53)).
  change (Prim2SF 0) with (S754_zero false).
  destruct (Prim2SF c) as [s|s| |s m e]; intros H.
  - discriminate H.
  - by destruct s.
  - discriminate H.
  - destruct s; [discriminate H|reflexivity].
Qed.

(** X3: when every surviving detector is more than 50% confident (and at least
    one survives), the image is flagged. *)
Theorem unanimous_suspicion_is_flagged
    f1 f2 f3 f4 f5 f6 st elapsed path mid r :
  detect (registry_of f1 f2 f3 f4 f5 f6) st elapsed path mid = Return r ->
  (exists o, o ∈ outcomes (registry_of f1 f2 f3 f4 f5 f6) path
             /\ failed (snd o) = false) ->
  (forall o, o ∈ outcomes (registry_of f1 f2 f3 f4 f5 f6) path ->
             failed (snd o) = false ->
             (0.5 <? mr_confidence_score (snd o))%float = true
             /\ (mr_confidence_score (snd o) <=? 1)%float = true) ->
  is_ai_generated r = true.
Proof.
  intros Hr Hsome Hconf. apply detect_fused in Hr as ->.
  rewrite fused_verdict, fused_confidence, recorded_run
    by apply registry_of_distinct.
  set (os := non_failed (outcomes (registry_of f1 f2 f3 f4 f5 f6) path)).
  assert (HF : Forall2 no_more_confident
                 (map (with_confidence 0.50000000000000011) os) os).
  { apply pinned_below; [reflexivity|reflexivity|].
    intros o [Ho Hnf]%non_failed_elem.
    destruct (Hconf o Ho Hnf) as [Hh H1].
    pose proof (above_half_nonneg _ Hh) as H0.
    split.
    - split; [by eapply default_weights_positive|done].
    - destruct (unit_interval_nonneg _ H0 H1) as (vc & Hc & Hvc).
      apply (ltb_nonneg 0.5 _ (/ 2) vc nonneg_half Hc) in Hh.
      destruct (above_half _ vc Hc Hh) as (v1 & Hv1 & Hle & _).
      by apply (leb_nonneg _ _ v1 vc Hv1 Hc). }
  assert (Hfin : (sum_weights (map (with_confidence 0.50000000000000011) os)
                  <? infinity)%float = true).
  { rewrite sum_weights_with_confidence. unfold os.
    rewrite outcomes_registry_of. apply default_total_weight_finite. }
  apply (proj2 (weighted_average_le_verdict _ _ HF Hfin)).
  unfold os. rewrite outcomes_registry_of.
  apply default_all_above_half.
  apply some_non_failed in Hsome. rewrite outcomes_registry_of in Hsome.
  cbn [forallb snd] in Hsome. by rewrite andb_true_r, !andb_assoc in Hsome.
Qed.

Lemma unanimous_suspicion_is_flagged_witness :
  is_ai_generated
    (fused (registry_of (Stubs.raises "no EXIF reader") (Stubs.says false 0.55)
                        (Stubs.says false 0.6) (Stubs.says false 0.7)
                        (Stubs.says true 0.85) (Stubs.says true 0.9))
           0 "photo.jpg") = true.
Proof.
  refine (unanimous_suspicion_is_flagged
           (Stubs.raises "no EXIF reader") (Stubs.says false 0.55)
           (Stubs.says false 0.6) (Stubs.says false 0.7)
           (Stubs.says true 0.85) (Stubs.says true 0.9)
           Examples.no_store 0 "photo.jpg" None _ eq_refl _ _).
  - eexists. split; [apply elem_of_cons; right; apply elem_of_cons; left;
                     reflexivity|reflexivity].
  - intros o Ho Hnf. rewrite outcomes_registry_of in Ho.
    repeat (apply elem_of_cons in Ho as [->|Ho];
            [first [discriminate Hnf|split; reflexivity]|]).
    by apply elem_of_nil in Ho.
Defined.

(** ** Subtraction in binary64 *)

Section Binary64Subtraction.
#[local] Open Scope Z_scope.

(** *** Subtraction *)

Lemma sub_result a b va vb :
  nonneg_val a va -> nonneg_val b vb -> (vb <= va)%R ->
  exists v, is_rnd (va - vb) v /\ result_val (SF64sub a b) v.
Proof.
  intros [sa|ma ea Ha] [sb|mb eb Hb] Hle.
  - exists 0%R. rewrite Rminus_0_r. split; [apply is_rnd_0|].
    left. destruct sa, sb; eexists; split; reflexivity.
  - exfalso. pose proof (pow2_pos eb).
    assert (0 < IZR (Z.pos mb))%R by (by apply IZR_lt). nra.
  - exists (IZR (Z.pos ma) * pow2 ea)%R. rewrite Rminus_0_r.
    split; [by apply (nonneg_val_rnd (S754_finite false ma ea)); constructor|].
    right. left. by exists ma, ea.
  - unfold SF64sub, SFsub. cbn [cond_Zopp].
    pose proof (shl_align_spec ma ea (Z.min ea eb)) as [Hea Hma].
    pose proof (shl_align_spec mb eb (Z.min ea eb)) as [Heb Hmb].
    pose proof (shl_align_value ma ea (Z.min ea eb)) as Hva.
    pose proof (shl_align_value mb eb (Z.min ea eb)) as Hvb.
    destruct (shl_align ma ea (Z.min ea eb)) as [ma' ea'].
    destruct (shl_align mb eb (Z.min ea eb)) as [mb' eb'].
    cbn [fst snd] in *.
    replace (Z.min ea (Z.min ea eb)) with (Z.min ea eb) in * by lia.
    replace (Z.min eb (Z.min ea eb)) with (Z.min ea eb) in * by lia.
    subst ea' eb'.
    assert (Hval : (IZR (Z.pos ma) * pow2 ea - IZR (Z.pos mb) * pow2 eb
                    = IZR (Z.pos ma' - Z.pos mb') * pow2 (Z.min ea eb))%R).
    { rewrite <- Hva, <- Hvb, minus_IZR. ring. }
    rewrite Hval.
    assert (Hge : Z.pos mb' <= Z.pos ma').
    { apply le_IZR. pose proof (pow2_pos (Z.min ea eb)).
      rewrite <- Hva, <- Hvb in Hle. nra. }
    destruct (Z.pos ma' - Z.pos mb') as [|p|p] eqn:Hd; [| |lia].
    + exists 0%R. rewrite Rmult_0_l. split; [apply is_rnd_0|].
      left. by exists false.
    + cbn [binary_normalize]. apply binary_round_result.
Qed.

(** Subtracting a negative number adds its magnitude. *)
Lemma sub_negative_result a va mb eb :
  nonneg_val a va ->
  SpecFloat.valid_binary prec emax (S754_finite true mb eb) = true ->
  exists v, is_rnd (va + IZR (Z.pos mb) * pow2 eb) v
            /\ result_val (SF64sub a (S754_finite true mb eb)) v.
Proof.
  intros [sa|ma ea Ha] Hb.
  - exists (IZR (Z.pos mb) * pow2 eb)%R. rewrite Rplus_0_l. split.
    + apply (nonneg_val_rnd (S754_finite false mb eb)). by constructor.
    + right. left. by exists mb, eb.
  - unfold SF64sub, SFsub. cbn [cond_Zopp].
    pose proof (shl_align_spec ma ea (Z.min ea eb)) as [Hea Hma].
    pose proof (shl_align_spec mb eb (Z.min ea eb)) as [Heb Hmb].
    pose proof (shl_align_value ma ea (Z.min ea eb)) as Hva.
    pose proof (shl_align_value mb eb (Z.min ea eb)) as Hvb.
    destruct (shl_align ma ea (Z.min ea eb)) as [ma' ea'].
    destruct (shl_align mb eb (Z.min ea eb)) as [mb' eb'].
    cbn [fst snd] in *.
    replace (Z.min ea (Z.min ea eb)) with (Z.min ea eb) in * by lia.
    replace (Z.min eb (Z.min ea eb)) with (Z.min ea eb) in * by lia.
    subst ea' eb'.
    change (Z.pos ma' - - Z.pos mb') with (Z.pos (ma' + mb')).
    cbn [binary_normalize].
    replace (IZR (Z.pos ma) * pow2 ea + IZR (Z.pos mb) * pow2 eb)%R
      with (IZR (Z.pos (ma' + mb')) * pow2 (Z.min ea eb))%R.
    + apply binary_round_result.
    + rewrite <- Hva, <- Hvb, Pos2Z.inj_add, plus_IZR. ring.
Qed.

Lemma sub_nonneg a b va vb :
  nonneg a va -> nonneg b vb -> (vb <= va)%R ->
  exists v, is_rnd (va - vb) v /\ nonneg (a - b) v.
Proof.
  intros Ha Hb Hle. destruct (sub_result _ _ _ _ Ha Hb Hle) as (v & Hr & Hv).
  exists v. split; [done|]. apply result_of_prim; [by rewrite sub_spec|].
  pose proof (nonneg_val_ge_0 _ _ Hb).
  pose proof (nonneg_lt_overflow _ _ Ha).
  pose proof (nonneg_val_rnd _ _ Ha) as Hra.
  assert (v <= va)%R; [|lra].
  apply (is_rnd_mono (va - vb) va); [lra|done|done].
Qed.

(** What [1.0 - p] can be. *)
Lemma one_minus_cases p :
  Prim2SF p = S754_nan
  \/ Prim2SF p = S754_infinity false
  \/ Prim2SF (1 - p) = S754_infinity false
  \/ (exists v, nonneg (1 - p) v /\ (1 <= v)%R)
  \/ (exists vp, nonneg p vp).
Proof.
  pose proof (Prim2SF_valid p) as Hv. pose proof nonneg_1 as H1.
  unfold nonneg in *.
  destruct (Prim2SF p) as [s|s| |s m e] eqn:Hp.
  - do 4 right. exists 0%R. constructor.
  - destruct s; [|by right; left]. right. right. left.
    rewrite sub_spec, Hp. by destruct H1.
  - by left.
  - destruct s; [|do 4 right; eexists; by constructor].
    destruct (sub_negative_result _ 1 m e H1 Hv) as (v & Hr & Hres).
    rewrite <- Hp, <- sub_spec in Hres.
    assert (Hge : (1 <= v)%R).
    { apply (is_rnd_mono 1 (1 + IZR (Z.pos m) * pow2 e)); [|apply is_rnd_1|done].
      pose proof (pow2_pos e). assert (0 < IZR (Z.pos m))%R by (by apply IZR_lt).
      nra. }
    destruct (result_overflow _ _ Hres) as [Hinf|Hq].
    + right. right. by left.
    + right. right. right. left. by exists v.
Qed.

End Binary64Subtraction.

(** ** The thresholds of the adapters *)

Lemma nonneg_leb_0 f v : nonneg f v -> (0 <=? f)%float = true.
Proof.
  intros Hf. apply (leb_nonneg 0 f 0 v nonneg_0 Hf).
  by apply (nonneg_val_ge_0 (Prim2SF f)).
Qed.

(** [min(score, 0.95)] of a score that is not below zero lies in [[0,1]]. *)
Lemma capped_confidence_unit s :
  (0 <=? s)%float = true ->
  (0 <=? py_min s 0.95)%float = true /\ (py_min s 0.95 <=? 1)%float = true.
Proof.
  intros H0. unfold py_min.
  destruct (0.95 <? s)%float eqn:Hcap; [by split|]. split; [done|].
  destruct (unit_interval_nonneg 0.95 eq_refl eq_refl) as (v95 & H95 & Hv95).
  destruct (leb_0_cases s H0) as [Hinf|[v Hs]].
  - rewrite ltb_spec, Hinf in Hcap. unfold nonneg in H95.
    destruct H95; discriminate Hcap.
  - apply (leb_nonneg s 1 v 1 Hs nonneg_1).
    destruct (Rle_lt_dec v v95) as [|Hgt]; [lra|].
    apply (ltb_nonneg 0.95 s v95 v H95 Hs) in Hgt. congruence.
Qed.

(** [min(score, 0.95)] never exceeds 0.95, whatever the score. *)
Lemma capped_confidence s : (0.95 <? py_min s 0.95)%float = false.
Proof. unfold py_min. by destruct (0.95 <? s)%float eqn:Hcap. Qed.

(** A texture score above 0.6 gives a confidence above 0.6. *)
Lemma texture_confident s :
  (0.6 <? s)%float = true -> (0.6 <? py_min s 0.95)%float = true.
Proof. intros H. unfold py_min. by destruct (0.95 <? s)%float. Qed.

(** A sensor-noise score below 0.3 gives a confidence above 0.6. *)
Lemma prnu_confident p :
  (p <? 0.3)%float = true -> (0.6 <? py_min (1 - p) 0.95)%float = true.
Proof.
  intros Hp. unfold py_min.
  destruct (0.95 <? 1 - p)%float eqn:Hcap; [reflexivity|].
  destruct (unit_interval_nonneg 0.6 eq_refl eq_refl) as (v06 & H06 & Hv06).
  assert (Hlt1 : (v06 < 1)%R)
    by (by apply (ltb_nonneg 0.6 1 v06 1 H06 nonneg_1)).
  destruct (one_minus_cases p) as [Hn|[Hi|[Hq|[(v & Hq & Hv)|(vp & Hvp)]]]].
  - rewrite ltb_spec, Hn in Hp. discriminate Hp.
  - rewrite ltb_spec, Hi in Hp. discriminate Hp.
  - rewrite ltb_spec, Hq in Hcap. discriminate Hcap.
  - apply (ltb_nonneg 0.6 _ v06 v H06 Hq). lra.
  - destruct (unit_interval_nonneg 0.3 eq_refl eq_refl) as (v03 & H03 & Hv03).
    apply (ltb_nonneg p 0.3 vp v03 Hvp H03) in Hp.
    destruct (sub_nonneg 1 p 1 vp nonneg_1 Hvp ltac:(lra)) as (v & Hr & Hq).
    destruct (sub_nonneg 1 0.3 1 v03 nonneg_1 H03 Hv03) as (v07 & Hr07 & H07).
    assert (Hle : (v07 <= v)%R)
      by (apply (is_rnd_mono (1 - v03) (1 - vp)); [lra|done|done]).
    assert (Hlt : (v06 < v07)%R)
      by (by apply (ltb_nonneg 0.6 (1 - 0.3) v06 v07 H06 H07)).
    apply (ltb_nonneg 0.6 _ v06 v H06 Hq). lra.
Qed.

(** A sensor-noise score of at most 1 gives a confidence in [[0,1]]. *)
Lemma prnu_confidence_unit p :
  (p <=? 1)%float = true ->
  (0 <=? py_min (1 - p) 0.95)%float = true
  /\ (py_min (1 - p) 0.95 <=? 1)%float = true.
Proof.
  intros Hp. apply capped_confidence_unit.
  destruct (one_minus_cases p) as [Hn|[Hi|[Hq|[(v & Hq & Hv)|(vp & Hvp)]]]].
  - rewrite leb_spec, Hn in Hp. discriminate Hp.
  - rewrite leb_spec, Hi in Hp. discriminate Hp.
  - by rewrite leb_spec, Hq.
  - by apply (nonneg_leb_0 _ v).
  - apply (leb_nonneg p 1 vp 1 Hvp nonneg_1) in Hp.
    destruct (sub_nonneg 1 p 1 vp nonneg_1 Hvp Hp) as (v & Hr & Hq).
    by apply (nonneg_leb_0 _ v).
Qed.

(** [min(max(score, 0), 1)] lies in [[0,1]] unless the score is not a
    number. *)
Lemma clamp_unit s :
  is_nan s = false ->
  (0 <=? py_min (py_max s 0) 1)%float = true
  /\ (py_min (py_max s 0) 1 <=? 1)%float = true.
Proof.
  intros Hnan. unfold is_nan in Hnan. apply negb_false_iff in Hnan.
  rewrite FloatAxioms.eqb_spec in Hnan.
  pose proof (Prim2SF_valid s) as Hv.
  unfold py_max.
  destruct (Prim2SF s) as [sg|sg| |sg m e] eqn:Hs.
  - assert (Hz : (s <? 0)%float = false) by (by rewrite ltb_spec, Hs).
    rewrite Hz. unfold py_min.
    assert (H1 : (1 <? s)%float = false).
    { rewrite ltb_spec, Hs. pose proof nonneg_1 as H. unfold nonneg in H.
      by destruct H. }
    rewrite H1. split.
    + by rewrite leb_spec, Hs.
    + rewrite leb_spec, Hs. pose proof nonneg_1 as H. unfold nonneg in H.
      by destruct H.
  - destruct sg.
    + assert (Hz : (s <? 0)%float = true) by (by rewrite ltb_spec, Hs).
      by rewrite Hz.
    + assert (Hz : (s <? 0)%float = false) by (by rewrite ltb_spec, Hs).
      rewrite Hz. unfold py_min.
      assert (H1 : (1 <? s)%float = true).
      { rewrite ltb_spec, Hs. pose proof nonneg_1 as H. unfold nonneg in H.
        by destruct H. }
      by rewrite H1.
  - discriminate Hnan.
  - destruct sg.
    + assert (Hz : (s <? 0)%float = true) by (by rewrite ltb_spec, Hs).
      by rewrite Hz.
    + assert (Hn : nonneg s (IZR (Z.pos m) * pow2 e)).
      { unfold nonneg. rewrite Hs. by constructor. }
      assert (Hz : (s <? 0)%float = false) by (by rewrite ltb_spec, Hs).
      rewrite Hz. unfold py_min.
      destruct (1 <? s)%float eqn:H1; [by split|].
      split; [by eapply nonneg_leb_0|].
      apply (leb_nonneg s 1 _ 1 Hn nonneg_1).
      destruct (Rle_lt_dec (IZR (Z.pos m) * pow2 e) 1) as [|Hgt]; [done|].
      apply (ltb_nonneg 1 s 1 _ nonneg_1 Hn) in Hgt. congruence.
Qed.

(** ** The table of the EXIF analysis *)

Lemma note_if_length condition anomaly anomalies :
  length (note_if condition anomaly anomalies)
  = (length anomalies + (if condition then 1 else 0))%nat.
Proof.
  unfold note_if. destruct condition; [|lia].
  rewrite length_app. reflexivity.
Qed.

Lemma camera_anomalies_length exif_tags :
  (length (camera_anomalies exif_tags) <= 3)%nat.
Proof.
  unfold camera_anomalies. rewrite !note_if_length. cbn [length].
  repeat match goal with |- context [if ?b then _ else _] => destruct b end; lia.
Qed.

Lemma context_anomalies_length exif_tags anomalies :
  (length (context_anomalies exif_tags anomalies) <= length anomalies + 2)%nat.
Proof.
  unfold context_anomalies. rewrite !note_if_length.
  repeat match goal with |- context [if ?b then _ else _] => destruct b end; lia.
Qed.

(** The table of [suspicion_level]: with at most five anomalies nothing
    raises, the cap of 0.9 is not reached, and the confidence is read off
    the number of anomalies. *)
Lemma suspicion_level_table anomalies :
  (length anomalies <= 5)%nat ->
  suspicion_level anomalies
  = Return (nth (length anomalies)
                [(false, 0.3%float); (false, 0.15%float); (true, 0.5%float);
                 (true, 0.6%float); (true, 0.7%float); (true, 0.75%float)]
                (false, 0%float),
            anomalies).
Proof.
  intros Hn. unfold suspicion_level.
  destruct anomalies as [|a1 [|a2 [|a3 [|a4 [|a5 [|a6 l]]]]]];
    cbn [length] in *; try lia; vm_compute; reflexivity.
Qed.

(** ** The adapters in the registry *)

Lemma significant_factors_elem (os : list (string * float * method_result)) c :
  c ∈ significant_factors os
  <-> exists o, o ∈ os /\ failed (snd o) = false /\ significant o = true
                /\ c = factor_of o.
Proof.
  unfold significant_factors. rewrite list_elem_of_fmap. split.
  - intros (o & -> & Ho). apply list_elem_of_In, filter_In in Ho as [Ho Hs].
    apply list_elem_of_In, non_failed_elem in Ho as [Ho Hf]. by exists o.
  - intros (o & Ho & Hf & Hs & ->). exists o. split; [done|].
    apply list_elem_of_In, filter_In. split; [|done].
    apply list_elem_of_In, non_failed_elem. by split.
Qed.

(** What each adapter leaves in its slot. *)
Lemma invoke_analyze_metadata ext path :
  try_except (analyze_metadata ext path) error_result
  = match exif_metadata ext path with
    | Return (is_suspicious, confidence, anomalies) =>
        MethodResult is_suspicious confidence None (Some anomalies)
                     None None None None None
    | Raise e => error_result e
    end.
Proof.
  unfold analyze_metadata. cbn.
  by destruct (exif_metadata ext path) as [[[s c] a]|e].
Qed.

Lemma invoke_analyze_ela ext path :
  try_except (analyze_ela ext path) error_result
  = match ela_features ext path with
    | Return (error_level_score, ela_image_path) =>
        MethodResult (0.5 <? error_level_score)%float
                     (py_min error_level_score 0.95) None None
                     (Some error_level_score) (Some ela_image_path)
                     None None None
    | Raise e => error_result e
    end.
Proof.
  unfold analyze_ela. cbn. by destruct (ela_features ext path) as [[s q]|e].
Qed.

Lemma invoke_analyze_prnu ext path :
  try_except (analyze_prnu ext path) error_result
  = match prnu_features ext path with
    | Return pattern_score =>
        MethodResult (pattern_score <? 0.3)%float
                     (py_min (1 - pattern_score) 0.95) None None None None
                     (Some pattern_score) None None
    | Raise e => error_result e
    end.
Proof.
  unfold analyze_prnu. cbn. by destruct (prnu_features ext path) as [p|e].
Qed.

Lemma invoke_analyze_texture ext path :
  try_except (analyze_texture ext path) error_result
  = match texture_smoothness ext path with
    | Return smoothness_score =>
        MethodResult (0.6 <? smoothness_score)%float
                     (py_min smoothness_score 0.95) None None None None
                     None (Some smoothness_score) None
    | Raise e => error_result e
    end.
Proof.
  unfold analyze_texture. cbn.
  by destruct (texture_smoothness ext path) as [s|e].
Qed.

Lemma outcomes_register_detection_methods ext path :
  outcomes (register_detection_methods ext) path =
  [ ("metadata_analysis", 0.15%float,
     try_except (analyze_metadata ext path) error_result);
    ("ela_analysis", 0.20%float,
     try_except (analyze_ela ext path) error_result);
    ("prnu_analysis", 0.20%float,
     try_except (analyze_prnu ext path) error_result);
    ("texture_analysis", 0.15%float,
     try_except (analyze_texture ext path) error_result);
    ("vit_model", 0.15%float,
     try_except (predict_with_vit path) error_result);
    ("resnet_model", 0.15%float,
     try_except (predict_with_resnet path) error_result) ].
Proof. reflexivity. Qed.

Lemma predictors_do_not_fail path :
  failed (try_except (predict_with_vit path) error_result) = false
  /\ failed (try_except (predict_with_resnet path) error_result) = false.
Proof. by split. Qed.

(** X4: the two model predictors never fail, so with the registry of
    [register_detection_methods] some detector always survives: the final
    confidence is always the quotient [S / W] over the survivors, never the
    0.0 of a total failure. *)
Theorem shipped_registry_always_averages ext st elapsed path mid r :
  detect (register_detection_methods ext) st elapsed path mid = Return r ->
  (mr_error <$> method_results r !! "vit_model") = Some None
  /\ (mr_error <$> method_results r !! "resnet_model") = Some None
  /\ (0 <? sum_weights
             (non_failed (outcomes (register_detection_methods ext) path)))%float
     = true
  /\ confidence_score r =
     (sum_weighted (non_failed (outcomes (register_detection_methods ext) path))
      / sum_weights (non_failed (outcomes (register_detection_methods ext) path)))%float.
Proof.
  intros Hr. apply detect_fused in Hr as ->.
  assert (Hpos : (0 <? sum_weights
                         (non_failed (outcomes (register_detection_methods ext)
                                               path)))%float = true).
  { rewrite outcomes_register_detection_methods.
    apply default_total_weight_positive.
    destruct (predictors_do_not_fail path) as [-> _].
    by rewrite andb_false_r. }
  split; [|split; [|split; [exact Hpos|]]].
  - rewrite fused_method_results.
    by rewrite (run_methods_lookup path _ "vit_model"
                  (MethodInfo predict_with_vit 0.15)
                  (register_detection_methods_distinct ext))
      by (unfold register_detection_methods; set_solver).
  - rewrite fused_method_results.
    by rewrite (run_methods_lookup path _ "resnet_model"
                  (MethodInfo predict_with_resnet 0.15)
                  (register_detection_methods_distinct ext))
      by (unfold register_detection_methods; set_solver).
  - rewrite fused_confidence, recorded_run
      by apply register_detection_methods_distinct.
    unfold weighted_average. by rewrite Hpos.
Qed.

Lemma shipped_registry_always_averages_witness :
  confidence_score
    (fused (register_detection_methods Examples.camera_photo) 0 "photo.jpg")
  = (sum_weighted
       (non_failed (outcomes (register_detection_methods Examples.camera_photo)
                             "photo.jpg"))
     / sum_weights
         (non_failed (outcomes (register_detection_methods Examples.camera_photo)
                               "photo.jpg")))%float.
Proof.
  apply (shipped_registry_always_averages Examples.camera_photo
           Examples.no_store 0 "photo.jpg" None _ eq_refl).
Defined.



(** X6: for the sensor-noise analysis, the texture analysis and the two model
    predictors, a verdict "AI-generated" always comes with a confidence
    above 0.6: such a detector is always listed among the contributing
    factors, with its confidence. *)
Theorem positive_verdict_is_listed ext st elapsed path mid r name m :
  detect (register_detection_methods ext) st elapsed path mid = Return r ->
  name ∈ ["prnu_analysis"; "texture_analysis"; "vit_model"; "resnet_model"] ->
  method_results r !! name = Some m ->
  mr_is_ai_generated m = true ->
  exists w, ContributingFactor name w (mr_confidence_score m)
            ∈ contributing_factors r.
Proof.
  intros Hr Hname Hm Hpos. apply detect_fused in Hr as ->.
  rewrite fused_method_results in Hm.
  rewrite fused_factors, recorded_run by apply register_detection_methods_distinct.
  pose proof (register_detection_methods_distinct ext) as Hnd.
  rewrite outcomes_register_detection_methods.
  repeat (apply elem_of_cons in Hname as [->|Hname]).
  - rewrite (run_methods_lookup path _ "prnu_analysis"
               (MethodInfo (analyze_prnu ext) 0.2) Hnd) in Hm
      by (unfold register_detection_methods; set_solver).
    injection Hm as <-. unfold invoke in *. cbn [function] in *.
    exists 0.2%float. apply significant_factors_elem.
    eexists. split; [do 2 (apply elem_of_cons; right); apply elem_of_cons; by left|].
    rewrite invoke_analyze_prnu in *.
    destruct (prnu_features ext path) as [p|e]; [|discriminate Hpos].
    cbn in Hpos. split; [done|]. split; [|done].
    unfold significant. cbn. by rewrite Hpos, prnu_confident.
  - rewrite (run_methods_lookup path _ "texture_analysis"
               (MethodInfo (analyze_texture ext) 0.15) Hnd) in Hm
      by (unfold register_detection_methods; set_solver).
    injection Hm as <-. unfold invoke in *. cbn [function] in *.
    exists 0.15%float. apply significant_factors_elem.
    eexists. split; [do 3 (apply elem_of_cons; right); apply elem_of_cons; by left|].
    rewrite invoke_analyze_texture in *.
    destruct (texture_smoothness ext path) as [p|e]; [|discriminate Hpos].
    cbn in Hpos. split; [done|]. split; [|done].
    unfold significant. cbn. by rewrite Hpos, texture_confident.
  - rewrite (run_methods_lookup path _ "vit_model"
               (MethodInfo predict_with_vit 0.15) Hnd) in Hm
      by (unfold register_detection_methods; set_solver).
    injection Hm as <-. unfold invoke in *. cbn [function] in *.
    exists 0.15%float. apply significant_factors_elem.
    eexists. split; [do 4 (apply elem_of_cons; right); apply elem_of_cons; by left|].
    unfold predict_with_vit in *. cbn in Hpos |- *.
    split; [done|]. split; [|done].
    unfold significant. cbn. by rewrite Hpos.
  - rewrite (run_methods_lookup path _ "resnet_model"
               (MethodInfo predict_with_resnet 0.15) Hnd) in Hm
      by (unfold register_detection_methods; set_solver).
    injection Hm as <-. unfold invoke in *. cbn [function] in *.
    exists 0.15%float. apply significant_factors_elem.
    eexists. split; [do 5 (apply elem_of_cons; right); apply elem_of_cons; by left|].
    unfold predict_with_resnet in *. cbn in Hpos |- *.
    split; [done|]. split; [|done].
    unfold significant. cbn. by rewrite Hpos.
  - by apply elem_of_nil in Hname.
Qed.

Lemma positive_verdict_is_listed_witness :
  exists w, ContributingFactor "prnu_analysis" w 0.95
            ∈ contributing_factors
                (fused (register_detection_methods
                          (Collaborators (fun _ => Return (false, 0.3%float, []))
                                         (fun _ => Return (0.1%float, "ela.png"))
                                         (fun _ => Return 0.01%float)
                                         (fun _ => Return 0.2%float)))
                       0 "photo.jpg").
Proof.
  refine (positive_verdict_is_listed
            (Collaborators (fun _ => Return (false, 0.3%float, []))
                           (fun _ => Return (0.1%float, "ela.png"))
                           (fun _ => Return 0.01%float)
                           (fun _ => Return 0.2%float))
            Examples.no_store 0 "photo.jpg" None _ "prnu_analysis"
            (MethodResult true 0.95 None None None None (Some 0.01%float)
                          None None)
            eq_refl _ _ eq_refl).
  - apply elem_of_cons. by left.
  - vm_compute. reflexivity.
Defined.

(** X7: for the error-level, sensor-noise and texture analyses and the two
    model predictors, the recorded confidence never exceeds 0.95, whatever
    the measured score is (a failed detector records 0.0). *)
Theorem confidence_never_exceeds_cap ext st elapsed path mid r name m :
  detect (register_detection_methods ext) st elapsed path mid = Return r ->
  name ∈ ["ela_analysis"; "prnu_analysis"; "texture_analysis"; "vit_model";
          "resnet_model"] ->
  method_results r !! name = Some m ->
  (0.95 <? mr_confidence_score m)%float = false.
Proof.
  intros Hr Hname Hm. apply detect_fused in Hr as ->.
  rewrite fused_method_results in Hm.
  pose proof (register_detection_methods_distinct ext) as Hnd.
  repeat (apply elem_of_cons in Hname as [->|Hname]).
  - rewrite (run_methods_lookup path _ "ela_analysis"
               (MethodInfo (analyze_ela ext) 0.2) Hnd) in Hm
      by (unfold register_detection_methods; set_solver).
    injection Hm as <-. unfold invoke. cbn [function].
    rewrite invoke_analyze_ela.
    destruct (ela_features ext path) as [[s q]|e]; [|reflexivity].
    apply capped_confidence.
  - rewrite (run_methods_lookup path _ "prnu_analysis"
               (MethodInfo (analyze_prnu ext) 0.2) Hnd) in Hm
      by (unfold register_detection_methods; set_solver).
    injection Hm as <-. unfold invoke. cbn [function].
    rewrite invoke_analyze_prnu.
    destruct (prnu_features ext path) as [p|e]; [|reflexivity].
    apply capped_confidence.
  - rewrite (run_methods_lookup path _ "texture_analysis"
               (MethodInfo (analyze_texture ext) 0.15) Hnd) in Hm
      by (unfold register_detection_methods; set_solver).
    injection Hm as <-. unfold invoke. cbn [function].
    rewrite invoke_analyze_texture.
    destruct (texture_smoothness ext path) as [s|e]; [|reflexivity].
    apply capped_confidence.
  - rewrite (run_methods_lookup path _ "vit_model"
               (MethodInfo predict_with_vit 0.15) Hnd) in Hm
      by (unfold register_detection_methods; set_solver).
    injection Hm as <-. unfold invoke, predict_with_vit. cbn.
    by destruct (contains "generated" (lower path)).
  - rewrite (run_methods_lookup path _ "resnet_model"
               (MethodInfo predict_with_resnet 0.15) Hnd) in Hm
      by (unfold register_detection_methods; set_solver).
    injection Hm as <-. unfold invoke, predict_with_resnet. cbn.
    by destruct (contains "generated" (lower path)).
  - by apply elem_of_nil in Hname.
Qed.

Lemma confidence_never_exceeds_cap_witness :
  (0.95 <? mr_confidence_score
             (MethodResult true 0.9 None None (Some 0.9%float) (Some "ela.png")
                           None None None))%float = false.
Proof.
  apply (confidence_never_exceeds_cap Examples.camera_photo Examples.no_store
           0 "photo.jpg" None _ "ela_analysis"
           (MethodResult true 0.9 None None (Some 0.9%float) (Some "ela.png")
                         None None None)
           eq_refl).
  - apply elem_of_cons. by left.
  - vm_compute. reflexivity.
Defined.

(** ** The EXIF analysis *)

Lemma analyze_exif_metadata_cases re_search exif_tags :
  analyze_exif_metadata re_search exif_tags
  = if bool_decide (exif_tags = ∅) then
      (true, 0.7%float, ["No EXIF metadata found"])
    else
      match ai_software re_search exif_tags with
      | Some software =>
          (true, 0.95%float,
           (camera_anomalies exif_tags
            ++ [("AI software detected: " ++ software)%string])%list)
      | None =>
          let anomalies :=
            context_anomalies exif_tags (camera_anomalies exif_tags) in
          (nth (length anomalies)
               [(false, 0.3%float); (false, 0.15%float); (true, 0.5%float);
                (true, 0.6%float); (true, 0.7%float); (true, 0.75%float)]
               (false, 0%float),
           anomalies)
      end.
Proof.
  unfold analyze_exif_metadata, exif_analysis.
  destruct (bool_decide (exif_tags = ∅)); [done|].
  destruct (ai_software re_search exif_tags) as [software|]; [done|].
  rewrite suspicion_level_table; [done|].
  pose proof (context_anomalies_length exif_tags (camera_anomalies exif_tags)).
  pose proof (camera_anomalies_length exif_tags). lia.
Qed.

Lemma anomalies_at_most_five exif_tags :
  (length (context_anomalies exif_tags (camera_anomalies exif_tags)) <= 5)%nat.
Proof.
  pose proof (context_anomalies_length exif_tags (camera_anomalies exif_tags)).
  pose proof (camera_anomalies_length exif_tags). lia.
Qed.

(** The confidence of the EXIF analysis lies in [[0,1]]. *)
Lemma exif_confidence_unit re_search exif_tags :
  (0 <=? (analyze_exif_metadata re_search exif_tags).1.2)%float = true
  /\ ((analyze_exif_metadata re_search exif_tags).1.2 <=? 1)%float = true.
Proof.
  rewrite analyze_exif_metadata_cases.
  destruct (bool_decide (exif_tags = ∅)); [by split|].
  destruct (ai_software re_search exif_tags) as [software|]; [by split|].
  cbn beta iota zeta. pose proof (anomalies_at_most_five exif_tags) as Hn.
  destruct (length _) as [|[|[|[|[|[|n]]]]]]; try lia; by split.
Qed.

(** The verdict "suspicious" comes with a confidence above 0.6 only
    without any EXIF data, with an AI-software tag, or with four anomalies
    or more. *)
Lemma exif_significant re_search exif_tags :
  (analyze_exif_metadata re_search exif_tags).1.1
  && (0.6 <? (analyze_exif_metadata re_search exif_tags).1.2)%float = true
  <-> exif_tags = ∅ \/ is_Some (ai_software re_search exif_tags)
      \/ (4 <= length (analyze_exif_metadata re_search exif_tags).2)%nat.
Proof.
  rewrite analyze_exif_metadata_cases.
  destruct (bool_decide (exif_tags = ∅)) eqn:Hempty.
  { apply bool_decide_eq_true in Hempty. split; [by left|done]. }
  apply bool_decide_eq_false in Hempty.
  destruct (ai_software re_search exif_tags) as [software|].
  { split; [by right; left|done]. }
  cbn beta iota zeta. pose proof (anomalies_at_most_five exif_tags) as Hn.
  assert (Hnone : ~ is_Some (@None string)) by (intros [x Hx]; discriminate Hx).
  destruct (length _) as [|[|[|[|[|[|n]]]]]]; try lia; cbn [nth fst snd];
    (split; [intros Hc; first [discriminate Hc|right; right; lia]
            |intros [?|[?|?]]; first [done|lia]]).
Qed.

(** X8: [analyze_exif_metadata] never takes its [except] branch on a
    dictionary of tags: the body returns.  Its confidence is one of seven
    values (the cap of 0.9 is never reached), the verdict is "suspicious"
    exactly when the confidence is at least 0.5, and at most five anomalies
    are reported. *)
Theorem exif_confidence_levels re_search exif_tags :
  let '(is_suspicious, confidence, anomalies) :=
    analyze_exif_metadata re_search exif_tags in
  exif_analysis re_search exif_tags
  = Return (is_suspicious, confidence, anomalies)
  /\ confidence ∈ [0.15; 0.3; 0.5; 0.6; 0.7; 0.75; 0.95]%float
  /\ is_suspicious = (0.5 <=? confidence)%float
  /\ (length anomalies <= 5)%nat.
Proof.
  unfold analyze_exif_metadata, exif_analysis.
  pose proof (anomalies_at_most_five exif_tags) as Hn.
  destruct (bool_decide (exif_tags = ∅)).
  { cbn. split; [done|]. split; [set_solver|]. split; [done|lia]. }
  destruct (ai_software re_search exif_tags) as [software|].
  { cbn. split; [done|]. split; [set_solver|]. split; [done|].
    rewrite length_app. pose proof (camera_anomalies_length exif_tags).
    cbn [length]. lia. }
  rewrite suspicion_level_table by done. cbn [try_except].
  destruct (length _) as [|[|[|[|[|[|n]]]]]]; try lia; cbn [nth];
    (split; [done|]); (split; [set_solver|]); (split; [done|]); lia.
Qed.

(** ** The texture score *)

(** X9: [analyze_texture_smoothness] returns 0.5 when the measurement
    raises, and otherwise the measured score clamped into [[0,1]] (unless
    the measured score is not a number). *)
Theorem texture_smoothness_in_unit_interval texture_measure path :
  (forall s, texture_measure path = Return s -> is_nan s = false) ->
  (0 <=? analyze_texture_smoothness texture_measure path)%float = true
  /\ (analyze_texture_smoothness texture_measure path <=? 1)%float = true
  /\ (forall e, texture_measure path = Raise e ->
                analyze_texture_smoothness texture_measure path = 0.5%float).
Proof.
  intros Hnan. unfold analyze_texture_smoothness.
  destruct (texture_measure path) as [s|e]; cbn.
  - destruct (clamp_unit s (Hnan s eq_refl)) as [H0 H1]. by repeat split.
  - by repeat split.
Qed.

Lemma texture_smoothness_in_unit_interval_witness :
  (0 <=? analyze_texture_smoothness Uploads.texture_of_scan "scan.png")%float
  = true
  /\ (analyze_texture_smoothness Uploads.texture_of_scan "scan.png" <=? 1)%float
     = true.
Proof.
  pose proof (texture_smoothness_in_unit_interval
                Uploads.texture_of_scan "scan.png") as H.
  destruct H as (H0 & H1 & _); [|by split].
  intros s Hs. injection Hs as <-. reflexivity.
Defined.

(** ** The engine with the utilities of the repository *)

Section WithUtilities.
Variable re_search : string -> string -> bool.
Variable read_exif : string -> outcome (gmap string string).
Variable ela_measure : string -> outcome (float * string).
Variable prnu_statistics : string -> outcome (list float).
Variable np_mean : list float -> float.
Variable texture_measure : string -> outcome float.

#[local] Abbreviation ext :=
  (utilities re_search read_exif ela_measure prnu_statistics np_mean
             texture_measure).

(** X10: with the EXIF analysis of the repository, the metadata detector is
    a contributing factor exactly when the image has no EXIF data, carries
    an AI-software tag, or shows four anomalies or more: with two or three
    anomalies its verdict is "suspicious" and yet it is never listed. *)
Theorem metadata_factor_needs_four_anomalies
    st elapsed path mid r exif_tags :
  detect (register_detection_methods ext) st elapsed path mid = Return r ->
  read_exif path = Return exif_tags ->
  (exists c, c ∈ contributing_factors r /\ cf_factor c = "metadata_analysis")
  <-> exif_tags = ∅ \/ is_Some (ai_software re_search exif_tags)
      \/ (4 <= length (analyze_exif_metadata re_search exif_tags).2)%nat.
Proof.
  intros Hr Hread. apply detect_fused in Hr as ->.
  rewrite fused_factors, recorded_run by apply register_detection_methods_distinct.
  rewrite outcomes_register_detection_methods, invoke_analyze_metadata.
  unfold utilities at 1. cbn [exif_metadata].
  rewrite Hread. cbn [mbind outcome_bind mret outcome_ret].
  rewrite <- exif_significant.
  destruct (analyze_exif_metadata re_search exif_tags) as [[s c] a].
  cbn [fst snd]. split.
  - intros (f & (o & Ho & Hnf & Hsig & ->)%significant_factors_elem & Hname).
    repeat (apply elem_of_cons in Ho as [->|Ho]; [try discriminate Hname|]).
    + exact Hsig.
    + by apply elem_of_nil in Ho.
  - intros Hc. exists (ContributingFactor "metadata_analysis" 0.15 c).
    split; [|done].
    apply significant_factors_elem. eexists.
    split; [apply elem_of_cons; by left|]. by split.
Qed.

(** X11: when the extraction of the sensor-noise features fails, the
    features are seven zeros, and (their mean being zero) the detector
    reports "AI-generated" with confidence 0.95 instead of a failure: it is
    counted in the average and listed as a contributing factor. *)
Theorem prnu_failure_reads_as_generated st elapsed path mid r e :
  detect (register_detection_methods ext) st elapsed path mid = Return r ->
  prnu_statistics path = Raise e ->
  np_mean (repeat 0%float 7) = 0%float ->
  method_results r !! "prnu_analysis"
  = Some (MethodResult true 0.95 None None None None (Some 0%float) None None)
  /\ ContributingFactor "prnu_analysis" 0.2 0.95 ∈ contributing_factors r.
Proof.
  intros Hr Hraise Hmean. apply detect_fused in Hr as ->.
  assert (Hslot : try_except (analyze_prnu ext path) error_result
                  = MethodResult true 0.95 None None None None (Some 0%float)
                                 None None).
  { rewrite invoke_analyze_prnu. unfold utilities. cbn [prnu_features].
    unfold extract_prnu_features. rewrite Hraise. cbn [try_except].
    rewrite Hmean. reflexivity. }
  split.
  - rewrite fused_method_results.
    rewrite (run_methods_lookup path _ "prnu_analysis"
               (MethodInfo (analyze_prnu ext) 0.2)
               (register_detection_methods_distinct ext))
      by (unfold register_detection_methods; set_solver).
    unfold invoke. cbn [function]. by rewrite Hslot.
  - rewrite fused_factors, recorded_run
      by apply register_detection_methods_distinct.
    rewrite outcomes_register_detection_methods, Hslot.
    apply significant_factors_elem. eexists.
    split; [do 2 (apply elem_of_cons; right); apply elem_of_cons; by left|].
    done.
Qed.

(** X12: when the texture measurement fails, the score is the neutral 0.5:
    the detector reports "authentic" with confidence 0.5 instead of a
    failure, is counted in the average, and is not a contributing
    factor. *)
Theorem texture_failure_reads_as_neutral st elapsed path mid r e :
  detect (register_detection_methods ext) st elapsed path mid = Return r ->
  texture_measure path = Raise e ->
  method_results r !! "texture_analysis"
  = Some (MethodResult false 0.5 None None None None None (Some 0.5%float) None)
  /\ ("texture_analysis", 0.15%float,
      MethodResult false 0.5 None None None None None (Some 0.5%float) None)
     ∈ non_failed (outcomes (register_detection_methods ext) path)
  /\ ~ exists c, c ∈ contributing_factors r /\ cf_factor c = "texture_analysis".
Proof.
  intros Hr Hraise. apply detect_fused in Hr as ->.
  assert (Hslot : try_except (analyze_texture ext path) error_result
                  = MethodResult false 0.5 None None None None None
                                 (Some 0.5%float) None).
  { rewrite invoke_analyze_texture. unfold utilities.
    cbn [texture_smoothness]. unfold analyze_texture_smoothness.
    rewrite Hraise. reflexivity. }
  split; [|split].
  - rewrite fused_method_results.
    rewrite (run_methods_lookup path _ "texture_analysis"
               (MethodInfo (analyze_texture ext) 0.15)
               (register_detection_methods_distinct ext))
      by (unfold register_detection_methods; set_solver).
    unfold invoke. cbn [function]. by rewrite Hslot.
  - apply non_failed_elem. split; [|done].
    rewrite outcomes_register_detection_methods, Hslot.
    do 3 (apply elem_of_cons; right). apply elem_of_cons. by left.
  - rewrite fused_factors, recorded_run
      by apply register_detection_methods_distinct.
    rewrite outcomes_register_detection_methods, Hslot.
    intros (f & (o & Ho & Hnf & Hsig & ->)%significant_factors_elem & Hname).
    repeat (apply elem_of_cons in Ho as [->|Ho]; [try discriminate Hname|]).
    + discriminate Hsig.
    + by apply elem_of_nil in Ho.
Qed.

(** X13: end to end, with the utilities of the repository: if the error
    level is not below zero, the sensor-noise score is at most 1 and the
    measured smoothness is a number, then the final confidence lies in
    [[0,1]]. *)
Theorem shipped_confidence_in_unit_interval st elapsed path mid r :
  detect (register_detection_methods ext) st elapsed path mid = Return r ->
  (forall s q, ela_measure path = Return (s, q) -> (0 <=? s)%float = true) ->
  (np_mean (extract_prnu_features prnu_statistics path) <=? 1)%float = true ->
  (forall s, texture_measure path = Return s -> is_nan s = false) ->
  (0 <=? confidence_score r)%float = true
  /\ (confidence_score r <=? 1)%float = true.
Proof.
  intros Hr Hela Hprnu Htex. apply detect_fused in Hr as ->.
  rewrite fused_confidence, recorded_run
    by apply register_detection_methods_distinct.
  apply weighted_average_unit.
  - intros o [Ho Hnf]%non_failed_elem.
    rewrite outcomes_register_detection_methods in Ho.
    rewrite invoke_analyze_metadata, invoke_analyze_ela, invoke_analyze_prnu,
      invoke_analyze_texture in Ho.
    unfold utilities in Ho.
    cbn [exif_metadata ela_features prnu_features texture_smoothness] in Ho.
    repeat (apply elem_of_cons in Ho as [->|Ho]); [..|by apply elem_of_nil in Ho];
      (split; [reflexivity|]); cbn [snd] in *.
    + destruct (read_exif path) as [exif_tags|e]; [|discriminate Hnf].
      cbn [mbind outcome_bind mret outcome_ret].
      pose proof (exif_confidence_unit re_search exif_tags) as Hunit.
      by destruct (analyze_exif_metadata re_search exif_tags) as [[s c] a].
    + destruct (ela_measure path) as [[s q]|e] eqn:Hm; [|discriminate Hnf].
      cbn [mr_confidence_score]. apply capped_confidence_unit. by eapply Hela.
    + cbn [mbind outcome_bind mret outcome_ret mr_confidence_score].
      by apply prnu_confidence_unit.
    + cbn [mbind outcome_bind mret outcome_ret mr_confidence_score].
      apply capped_confidence_unit. unfold analyze_texture_smoothness.
      destruct (texture_measure path) as [s|e]; [|reflexivity].
      cbn. by apply clamp_unit, Htex.
    + unfold predict_with_vit. cbn.
      by destruct (contains "generated" (lower path)).
    + unfold predict_with_resnet. cbn.
      by destruct (contains "generated" (lower path)).
  - rewrite outcomes_register_detection_methods.
    apply default_total_weight_finite.
Qed.

End WithUtilities.

Lemma metadata_factor_needs_four_anomalies_witness :
  (exists c, c ∈ contributing_factors
                   (fused (register_detection_methods Uploads.scan) 0 "scan.png")
             /\ cf_factor c = "metadata_analysis")
  <-> Uploads.scanner_tags = ∅
      \/ is_Some (ai_software Uploads.no_match Uploads.scanner_tags)
      \/ (4 <= length (analyze_exif_metadata Uploads.no_match
                                             Uploads.scanner_tags).2)%nat.
Proof.
  apply (metadata_factor_needs_four_anomalies
           Uploads.no_match Uploads.read_scan Uploads.ela_of_scan
           Uploads.noise_of_scan Uploads.sequential_mean Uploads.texture_of_scan
           Examples.no_store 0 "scan.png" None _ Uploads.scanner_tags
           eq_refl eq_refl).
Defined.

Lemma prnu_failure_reads_as_generated_witness :
  method_results
    (fused (register_detection_methods Uploads.not_an_image) 0 "notes.png")
    !! "prnu_analysis"
  = Some (MethodResult true 0.95 None None None None (Some 0%float) None None)
  /\ ContributingFactor "prnu_analysis" 0.2 0.95
     ∈ contributing_factors
         (fused (register_detection_methods Uploads.not_an_image) 0 "notes.png").
Proof.
  apply (prnu_failure_reads_as_generated
           Uploads.no_match Uploads.read_nothing Uploads.ela_of_scan
           Uploads.cannot_load Uploads.sequential_mean Uploads.cannot_load
           Examples.no_store 0 "notes.png" None _ "Could not load image"
           eq_refl eq_refl).
  vm_compute. reflexivity.
Defined.

Lemma texture_failure_reads_as_neutral_witness :
  method_results
    (fused (register_detection_methods Uploads.not_an_image) 0 "notes.png")
    !! "texture_analysis"
  = Some (MethodResult false 0.5 None None None None None (Some 0.5%float) None).
Proof.
  apply (texture_failure_reads_as_neutral
           Uploads.no_match Uploads.read_nothing Uploads.ela_of_scan
           Uploads.cannot_load Uploads.sequential_mean Uploads.cannot_load
           Examples.no_store 0 "notes.png" None _ "Could not load image"
           eq_refl eq_refl).
Defined.

Lemma shipped_confidence_in_unit_interval_witness :
  (0 <=? confidence_score
           (fused (register_detection_methods Uploads.scan) 0 "scan.png"))%float
  = true
  /\ (confidence_score
        (fused (register_detection_methods Uploads.scan) 0 "scan.png")
      <=? 1)%float = true.
Proof.
  apply (shipped_confidence_in_unit_interval
           Uploads.no_match Uploads.read_scan Uploads.ela_of_scan
           Uploads.noise_of_scan Uploads.sequential_mean Uploads.texture_of_scan
           Examples.no_store 0 "scan.png" None _ eq_refl).
  - intros s q [= <- _]. reflexivity.
  - vm_compute. reflexivity.
  - intros s [= <-]. reflexivity.
Defined.

(** ** The document store *)

(** X14: without a metadata id ([None] or the empty string) [detect] does
    not call the store: it returns its result whatever the store would do.
    With a metadata id it hands the store the document built from the
    result it is about to return, once; it returns that result when the
    store returns (the boolean is ignored, also when no document was
    modified) and raises the store's exception when the store raises. *)
Theorem detect_and_the_document_store (ms : registry) st elapsed path :
  detect ms st elapsed path None = Return (fused ms elapsed path)
  /\ detect ms st elapsed path (Some "") = Return (fused ms elapsed path)
  /\ (forall id, id <> "" ->
        detect ms st elapsed path (Some id)
        = match st id (build_update_data (fused ms elapsed path)) with
          | Return _ => Return (fused ms elapsed path)
          | Raise e => Raise e
          end).
Proof.
  split; [done|]. split; [done|].
  intros id Hid. unfold detect. fold (fused ms elapsed path).
  assert (Ht : truthy_id (Some id) = Some id).
  { destruct id as [|c s]; [done|reflexivity]. }
  rewrite Ht. cbv [update_metadata mbind outcome_bind mret outcome_ret].
  by destruct (st id _).
Qed.

(** A store that is down is not noticed without an id and fails the
    detection with one; a store that modifies nothing goes unnoticed. *)
Lemma detect_and_the_document_store_examples :
  detect Stubs.metadata_raises Stores.unreachable 0 "photo.jpg" (Some "")
  = Return (fused Stubs.metadata_raises 0 "photo.jpg")
  /\ detect Stubs.metadata_raises Stores.unreachable 0 "photo.jpg"
            (Some "doc-1")
     = Raise "connection refused"
  /\ detect Stubs.metadata_raises Stores.unmodified 0 "photo.jpg" (Some "doc-1")
     = Return (fused Stubs.metadata_raises 0 "photo.jpg").
Proof. by repeat split. Qed.

(** ** The order of the contributing factors *)

Lemma filter_sublist_of {A} (f : A -> bool) (l : list A) :
  List.filter f l `sublist_of` l.
Proof.
  induction l as [|x l IH]; cbn [List.filter]; [done|].
  destruct (f x); [by apply sublist_skip|by apply sublist_cons].
Qed.

Lemma significant_factors_sublist (ms : registry) path :
  (fun c => (cf_factor c, cf_weight c)) <$> significant_factors (outcomes ms path)
  `sublist_of` (fun entry => (fst entry, weight (snd entry))) <$> ms.
Proof.
  unfold significant_factors.
  change (map factor_of) with (fmap (M:=list) factor_of).
  rewrite <- list_fmap_compose.
  assert (Hms : (fun entry : string * method_info =>
                   (fst entry, weight (snd entry))) <$> ms
                = ((fun c => (cf_factor c, cf_weight c)) ∘ factor_of)
                    <$> outcomes ms path).
  { unfold outcomes. change (map ?f ms) with (f <$> ms).
    rewrite <- list_fmap_compose. by apply list_fmap_ext. }
  rewrite Hms. apply fmap_sublist.
  etrans; [apply filter_sublist_of|]. apply filter_sublist_of.
Qed.

(** X15: the contributing factors name registered detectors, in registry
    order and each at most once, with the detector's registered weight. *)
Theorem contributing_factors_follow_registry
    (ms : registry) st elapsed path mid r :
  NoDup ms.*1 ->
  detect ms st elapsed path mid = Return r ->
  (fun c => (cf_factor c, cf_weight c)) <$> contributing_factors r
    `sublist_of` (fun entry => (fst entry, weight (snd entry))) <$> ms
  /\ NoDup (cf_factor <$> contributing_factors r)
  /\ length (contributing_factors r) <= length ms.
Proof.
  intros Hnd Hr. apply detect_fused in Hr as ->.
  rewrite fused_factors, recorded_run by done.
  pose proof (significant_factors_sublist ms path) as Hsub.
  split; [exact Hsub|]. split.
  - apply (fmap_sublist fst) in Hsub. rewrite <- !list_fmap_compose in Hsub.
    by apply (sublist_NoDup _ _ Hnd).
  - apply sublist_length in Hsub. by rewrite !length_fmap in Hsub.
Qed.

Lemma contributing_factors_follow_registry_witness :
  NoDup (cf_factor <$>
           contributing_factors (fused Stubs.metadata_raises 0 "photo.jpg")).
Proof.
  apply (contributing_factors_follow_registry Stubs.metadata_raises
           Examples.no_store 0 "photo.jpg" None _
           (registry_of_distinct _ _ _ _ _ _) eq_refl).
Defined.

(** ** The persisted document *)

(** X16: with the names of [register_detection_methods] the document is
    complete: it carries the verdict and the confidence of each of the four
    analyses, the two model predictors in the order Vision Transformer,
    ResNet50, and the verdict, confidence and factors of the result. *)
Theorem default_document_is_complete
    f1 f2 f3 f4 f5 f6 st elapsed path mid r :
  detect (registry_of f1 f2 f3 f4 f5 f6) st elapsed path mid = Return r ->
  let doc := build_update_data r in
  let m1 := try_except (f1 path) error_result in
  let m2 := try_except (f2 path) error_result in
  let m3 := try_except (f3 path) error_result in
  let m4 := try_except (f4 path) error_result in
  let m5 := try_except (f5 path) error_result in
  let m6 := try_except (f6 path) error_result in
  aggregated_results doc
  = Aggregated (is_ai_generated r) (confidence_score r) (contributing_factors r)
  /\ exif_data doc
     = Some (AnalysisResult (mr_is_ai_generated m1) (mr_confidence_score m1)
                            (default [] (mr_anomalies m1)))
  /\ pixel_ela_results doc
     = Some (ElaResults (default 0%float (mr_error_level_score m2))
                        (mr_is_ai_generated m2) (mr_confidence_score m2)
                        (default "" (mr_ela_image_path m2)))
  /\ pixel_prnu_results doc
     = Some (PrnuResults (default 0%float (mr_pattern_score m3))
                         (mr_is_ai_generated m3) (mr_confidence_score m3))
  /\ pixel_texture_analysis doc
     = Some (TextureAnalysis (default 0%float (mr_smoothness_score m4))
                             (mr_is_ai_generated m4) (mr_confidence_score m4))
  /\ model_results doc
     = Some [ModelResult "Vision Transformer" "1.0" (mr_is_ai_generated m5)
                         (mr_confidence_score m5)
                         (default 0%float (mr_processing_time m5));
             ModelResult "ResNet50 NoDown" "1.0" (mr_is_ai_generated m6)
                         (mr_confidence_score m6)
                         (default 0%float (mr_processing_time m6))].
Proof.
  intros Hr. apply detect_fused in Hr as ->. cbn zeta.
  pose proof (registry_of_distinct f1 f2 f3 f4 f5 f6) as Hnd.
  unfold build_update_data. rewrite fused_method_results.
  rewrite (run_methods_lookup path _ "metadata_analysis" (MethodInfo f1 0.15) Hnd)
    by (unfold registry_of; set_solver).
  rewrite (run_methods_lookup path _ "ela_analysis" (MethodInfo f2 0.2) Hnd)
    by (unfold registry_of; set_solver).
  rewrite (run_methods_lookup path _ "prnu_analysis" (MethodInfo f3 0.2) Hnd)
    by (unfold registry_of; set_solver).
  rewrite (run_methods_lookup path _ "texture_analysis" (MethodInfo f4 0.15) Hnd)
    by (unfold registry_of; set_solver).
  rewrite (run_methods_lookup path _ "vit_model" (MethodInfo f5 0.15) Hnd)
    by (unfold registry_of; set_solver).
  rewrite (run_methods_lookup path _ "resnet_model" (MethodInfo f6 0.15) Hnd)
    by (unfold registry_of; set_solver).
  done.
Qed.

Lemma default_document_is_complete_witness :
  model_results
    (build_update_data
       (fused (register_detection_methods Examples.camera_photo) 0.25
              "photo.jpg"))
  = Some [ModelResult "Vision Transformer" "1.0" false 0.25 0.5;
          ModelResult "ResNet50 NoDown" "1.0" false 0.2 0.3].
Proof.
  pose proof (default_document_is_complete
                (analyze_metadata Examples.camera_photo)
                (analyze_ela Examples.camera_photo)
                (analyze_prnu Examples.camera_photo)
                (analyze_texture Examples.camera_photo)
                predict_with_vit predict_with_resnet
                Examples.no_store 0.25 "photo.jpg" None _ eq_refl) as H.
  exact (proj2 (proj2 (proj2 (proj2 (proj2 H))))).
Defined.

Lemma slot_is_registered (ms : registry) path name :
  is_Some (run_methods ms path !! name) <-> name ∈ ms.*1.
Proof.
  rewrite <- elem_of_dom, run_methods_dom. by rewrite elem_of_list_to_set.
Qed.

(** X17: for any registry, the document has a detector's part exactly when
    the detector is registered under the name [update_metadata] looks for,
    and the list of model results exactly when one of the two model names
    is registered; the aggregated part is always there. *)
Theorem document_omits_unregistered_detectors
    (ms : registry) st elapsed path mid r :
  detect ms st elapsed path mid = Return r ->
  let doc := build_update_data r in
  (is_Some (exif_data doc) <-> "metadata_analysis" ∈ ms.*1)
  /\ (is_Some (pixel_ela_results doc) <-> "ela_analysis" ∈ ms.*1)
  /\ (is_Some (pixel_prnu_results doc) <-> "prnu_analysis" ∈ ms.*1)
  /\ (is_Some (pixel_texture_analysis doc) <-> "texture_analysis" ∈ ms.*1)
  /\ (is_Some (model_results doc)
      <-> "vit_model" ∈ ms.*1 \/ "resnet_model" ∈ ms.*1).
Proof.
  intros Hr. apply detect_fused in Hr as ->. cbn zeta.
  unfold build_update_data. rewrite fused_method_results.
  cbn [exif_data pixel_ela_results pixel_prnu_results pixel_texture_analysis
       model_results].
  rewrite <- !(slot_is_registered ms path).
  repeat split; try (by rewrite fmap_is_Some); try (by intros ?%fmap_is_Some).
  - destruct (run_methods ms path !! "vit_model") as [m5|];
      destruct (run_methods ms path !! "resnet_model") as [m6|]; cbn;
      intros [x Hx]; try discriminate Hx; eauto.
  - destruct (run_methods ms path !! "vit_model") as [m5|];
      destruct (run_methods ms path !! "resnet_model") as [m6|]; cbn;
      intros [[x Hx]|[x Hx]]; try discriminate Hx; by eexists.
Qed.

Lemma document_omits_unregistered_detectors_witness :
  is_Some (exif_data
             (build_update_data
                (fused (without "metadata_analysis" Stubs.metadata_raises)
                       0 "photo.jpg")))
  <-> "metadata_analysis" ∈ (without "metadata_analysis" Stubs.metadata_raises).*1.
Proof.
  apply (document_omits_unregistered_detectors
           (without "metadata_analysis" Stubs.metadata_raises)
           Examples.no_store 0 "photo.jpg" None _ eq_refl).
Defined.

(** ** The indicators of the summary *)

Lemma describe_factor_value percent c :
  describe_factor percent (factor_value c)
  = Return (option_list (factor_description percent c)).
Proof.
  unfold describe_factor, factor_value, factor_description, indicator.
  cbn -[append].
  destruct (String.eqb (cf_factor c) "metadata_analysis"); [done|].
  destruct (String.eqb (cf_factor c) "ela_analysis"); [done|].
  destruct (String.eqb (cf_factor c) "prnu_analysis"); [done|].
  destruct (String.eqb (cf_factor c) "texture_analysis"); [done|].
  destruct (String.eqb (cf_factor c) "vit_model"); [done|].
  destruct (String.eqb (cf_factor c) "resnet_model"); done.
Qed.

Lemma describe_factors_values percent cs descriptions :
  describe_factors percent (map factor_value cs) descriptions
  = Return (descriptions ++ omap (factor_description percent) cs)%list.
Proof.
  revert descriptions. induction cs as [|c cs IH]; intros descriptions.
  - cbn. by rewrite app_nil_r.
  - cbn [map describe_factors]. rewrite describe_factor_value.
    cbn [mbind outcome_bind]. rewrite IH. cbn [omap list_omap].
    destruct (factor_description percent c); cbn [option_list].
    + by rewrite <- app_assoc.
    + by rewrite app_nil_r.
Qed.

(** The summary of any result of the engine, in closed form. *)
Lemma summary_of_results percent (r : results) :
  generate_result_summary percent (results_dict r)
  = if is_ai_generated r then
      if contributing_factors r is [] then
        "This image is likely AI-generated with "
        ++ percent (confidence_score r) ++ " confidence. "
      else
        "This image is likely AI-generated with "
        ++ percent (confidence_score r) ++ " confidence. "
        ++ "Key indicators include: "
        ++ String.concat ", "
             (omap (factor_description percent) (contributing_factors r))
        ++ "."
    else
      "This image appears to be authentic with "
      ++ percent (1 - confidence_score r)%float ++ " confidence. "
      ++ "No significant indicators of AI generation were detected.".
Proof.
  unfold generate_result_summary. rewrite render_results_dict.
  destruct (is_ai_generated r); [|done].
  destruct (contributing_factors r) as [|c cs]; [done|].
  by rewrite describe_factors_values.
Qed.

(** X18: for a result with the verdict "AI-generated" and at least one
    contributing factor, the summary names the factors in the order of the
    list, each with the wording of its detector and its own contribution as
    a percentage; a factor of an unknown detector is left out without an
    error. *)
Theorem summary_lists_indicators percent (r : results) :
  is_ai_generated r = true ->
  contributing_factors r <> [] ->
  generate_result_summary percent (results_dict r)
  = "This image is likely AI-generated with "
    ++ percent (confidence_score r) ++ " confidence. "
    ++ "Key indicators include: "
    ++ String.concat ", "
         (omap (factor_description percent) (contributing_factors r))
    ++ ".".
Proof.
  intros Hv Hf. rewrite summary_of_results, Hv.
  by destruct (contributing_factors r).
Qed.

Lemma summary_lists_indicators_witness :
  generate_result_summary percent1
    (results_dict (fused Stubs.metadata_raises 0 "photo.jpg"))
  = "This image is likely AI-generated with 76.2% confidence. Key indicators include: error level analysis (90.0% confidence), photo response non-uniformity (80.0% confidence), Vision Transformer model detection (85.0% confidence), ResNet model detection (90.0% confidence).".
Proof.
  rewrite (summary_lists_indicators percent1
             (fused Stubs.metadata_raises 0 "photo.jpg")).
  - vm_compute. reflexivity.
  - vm_compute. reflexivity.
  - vm_compute. discriminate.
Defined.

(** X19: rendering the summary never raises on the dictionary [detect]
    returns, so the summary of a result of the engine is never the fallback
    sentence. *)
Theorem summary_of_results_never_falls_back percent (r : results) :
  (exists s, render_summary percent (results_dict r) = Return s)
  /\ generate_result_summary percent (results_dict r)
     <> "Detection completed, but summary generation failed.".
Proof.
  split.
  - rewrite render_results_dict.
    destruct (is_ai_generated r); [|by eexists].
    destruct (contributing_factors r) as [|c cs]; [by eexists|].
    rewrite describe_factors_values. by eexists.
  - rewrite summary_of_results.
    destruct (is_ai_generated r); [destruct (contributing_factors r)|];
      intros H; inversion H.
Qed.

(** X20: every contributing factor of a detection over the names of
    [register_detection_methods] has a wording, so the summary describes
    each of them: as many descriptions as factors. *)
Theorem detected_factors_are_all_described
    percent f1 f2 f3 f4 f5 f6 st elapsed path mid r :
  detect (registry_of f1 f2 f3 f4 f5 f6) st elapsed path mid = Return r ->
  Forall (fun c => is_Some (indicator (cf_factor c))) (contributing_factors r)
  /\ length (omap (factor_description percent) (contributing_factors r))
     = length (contributing_factors r).
Proof.
  intros Hr. apply detect_fused in Hr as ->.
  rewrite fused_factors, recorded_run by apply registry_of_distinct.
  pose proof (significant_factors_sublist (registry_of f1 f2 f3 f4 f5 f6) path)
    as Hsub.
  apply (fmap_sublist fst) in Hsub. rewrite <- !list_fmap_compose in Hsub.
  set (cs := significant_factors _) in *.
  assert (Hall : Forall (fun c => is_Some (indicator (cf_factor c))) cs).
  { apply Forall_forall. intros c Hc.
    assert (Hin : cf_factor c ∈ (registry_of f1 f2 f3 f4 f5 f6).*1).
    { eapply elem_of_sublist; [|exact Hsub].
      apply list_elem_of_fmap. by exists c. }
    rewrite registry_of_names in Hin.
    repeat (apply elem_of_cons in Hin as [->|Hin]; [by eexists|]).
    by apply elem_of_nil in Hin. }
  split; [exact Hall|]. clear Hsub.
  induction Hall as [|c cs' [w Hw] _ IH]; [done|].
  cbn [omap list_omap]. unfold factor_description at 1. rewrite Hw.
  cbn [fmap option_fmap option_map length]. by rewrite IH.
Qed.

Lemma detected_factors_are_all_described_witness :
  length (omap (factor_description percent1)
               (contributing_factors (fused Stubs.metadata_raises 0 "photo.jpg")))
  = length (contributing_factors (fused Stubs.metadata_raises 0 "photo.jpg")).
Proof.
  apply (detected_factors_are_all_described percent1
           (Stubs.raises "no EXIF reader") (Stubs.says true 0.9)
           (Stubs.says true 0.8) (Stubs.says false 0.3)
           (Stubs.says true 0.85) (Stubs.says true 0.9)
           Examples.no_store 0 "photo.jpg" None _ eq_refl).
Defined.

(** ** The factors in terms of the measurements *)

(** What lies above a non-negative number is the positive infinity or a
    larger non-negative number. *)
Lemma ltb_nonneg_cases b vb s :
  nonneg b vb -> (b <? s)%float = true ->
  Prim2SF s = S754_infinity false \/ exists vs, nonneg s vs /\ (vb < vs)%R.
Proof.
  intros Hb Hlt.
  pose proof (Prim2SF_valid s) as Hv.
  destruct (Prim2SF s) as [sg|sg| |sg m e] eqn:Hs.
  - right. exists 0%R.
    assert (Hz : nonneg s 0) by (unfold nonneg; rewrite Hs; constructor).
    split; [done|]. by apply (ltb_nonneg b s vb 0 Hb Hz).
  - destruct sg; [|by left]. exfalso.
    rewrite ltb_spec, Hs in Hlt. unfold nonneg in Hb.
    destruct Hb; discriminate Hlt.
  - exfalso. rewrite ltb_spec, Hs in Hlt. unfold nonneg in Hb.
    destruct Hb; discriminate Hlt.
  - destruct sg.
    + exfalso. rewrite ltb_spec, Hs in Hlt. unfold nonneg in Hb.
      destruct Hb; discriminate Hlt.
    + right. exists (IZR (Z.pos m) * pow2 e)%R.
      assert (Hn : nonneg s (IZR (Z.pos m) * pow2 e))
        by (unfold nonneg; rewrite Hs; by constructor).
      split; [done|]. by apply (ltb_nonneg b s vb _ Hb Hn).
Qed.

Lemma ltb_above a b s va vb :
  nonneg a va -> nonneg b vb -> (va <= vb)%R ->
  (b <? s)%float = true -> (a <? s)%float = true.
Proof.
  intros Ha Hb Hle Hlt.
  destruct (ltb_nonneg_cases b vb s Hb Hlt) as [Hinf|(vs & Hs & Hvs)].
  - rewrite ltb_spec, Hinf. unfold nonneg in Ha. by destruct Ha.
  - apply (ltb_nonneg a s va vs Ha Hs). lra.
Qed.

(** The error-level analysis is above the factor threshold exactly when
    its score is above 0.6: a score between 0.5 and 0.6 gives the verdict
    "AI-generated" without a factor. *)
Lemma ela_listed s :
  (0.5 <? s)%float && (0.6 <? py_min s 0.95)%float = (0.6 <? s)%float.
Proof.
  destruct (unit_interval_nonneg 0.6 eq_refl eq_refl) as (v06 & H06 & _).
  destruct (unit_interval_nonneg 0.95 eq_refl eq_refl) as (v95 & H95 & _).
  assert (H56 : (/ 2 <= v06)%R).
  { left. by apply (ltb_nonneg 0.5 0.6 (/ 2) v06 nonneg_half H06). }
  assert (H69 : (v06 <= v95)%R).
  { left. by apply (ltb_nonneg 0.6 0.95 v06 v95 H06 H95). }
  unfold py_min. destruct (0.95 <? s)%float eqn:Hcap.
  - rewrite (ltb_above 0.6 0.95 s v06 v95 H06 H95 H69 Hcap).
    rewrite (ltb_above 0.5 0.95 s (/ 2) v95 nonneg_half H95 ltac:(lra) Hcap).
    reflexivity.
  - destruct (0.6 <? s)%float eqn:H6; [|by rewrite andb_false_r].
    by rewrite (ltb_above 0.5 0.6 s (/ 2) v06 nonneg_half H06 H56 H6).
Qed.

(** X22: when the four measurements are there, the contributing factors are
    read off them: the metadata verdict with a confidence above 0.6, an
    error level above 0.6, a sensor-noise score below 0.3, a smoothness
    above 0.6, and a path containing "generated" for the two predictors. *)
Theorem contributing_factors_by_measurement
    ext st elapsed path mid r is_suspicious confidence anomalies
    error_level_score ela_image_path pattern_score smoothness_score :
  detect (register_detection_methods ext) st elapsed path mid = Return r ->
  exif_metadata ext path = Return (is_suspicious, confidence, anomalies) ->
  ela_features ext path = Return (error_level_score, ela_image_path) ->
  prnu_features ext path = Return pattern_score ->
  texture_smoothness ext path = Return smoothness_score ->
  contributing_factors r
  = ((if is_suspicious && (0.6 <? confidence)%float
      then [ContributingFactor "metadata_analysis" 0.15 confidence] else [])
     ++ (if (0.6 <? error_level_score)%float
         then [ContributingFactor "ela_analysis" 0.2
                                  (py_min error_level_score 0.95)] else [])
     ++ (if (pattern_score <? 0.3)%float
         then [ContributingFactor "prnu_analysis" 0.2
                                  (py_min (1 - pattern_score) 0.95)] else [])
     ++ (if (0.6 <? smoothness_score)%float
         then [ContributingFactor "texture_analysis" 0.15
                                  (py_min smoothness_score 0.95)] else [])
     ++ (if contains "generated" (lower path)
         then [ContributingFactor "vit_model" 0.15 0.85;
               ContributingFactor "resnet_model" 0.15 0.9] else []))%list.
Proof.
  intros Hr Hmeta Hela Hprnu Htex. apply detect_fused in Hr as ->.
  rewrite fused_factors, recorded_run by apply register_detection_methods_distinct.
  rewrite outcomes_register_detection_methods.
  rewrite invoke_analyze_metadata, invoke_analyze_ela, invoke_analyze_prnu,
    invoke_analyze_texture, Hmeta, Hela, Hprnu, Htex.
  unfold significant_factors, non_failed, predict_with_vit, predict_with_resnet.
  cbn [List.filter snd failed mr_error negb try_except mret outcome_ret].
  unfold significant.
  cbn [snd mr_is_ai_generated mr_confidence_score List.filter].
  rewrite ela_listed.
  assert (Hp : (pattern_score <? 0.3)%float
               && (0.6 <? py_min (1 - pattern_score) 0.95)%float
               = (pattern_score <? 0.3)%float).
  { destruct (pattern_score <? 0.3)%float eqn:H; [|done].
    by rewrite prnu_confident. }
  assert (Ht : (0.6 <? smoothness_score)%float
               && (0.6 <? py_min smoothness_score 0.95)%float
               = (0.6 <? smoothness_score)%float).
  { destruct (0.6 <? smoothness_score)%float eqn:H; [|done].
    by rewrite texture_confident. }
  rewrite Hp, Ht.
  destruct (is_suspicious && (0.6 <? confidence)%float),
    (0.6 <? error_level_score)%float, (pattern_score <? 0.3)%float,
    (0.6 <? smoothness_score)%float, (contains "generated" (lower path));
    reflexivity.
Qed.

Lemma contributing_factors_by_measurement_witness :
  contributing_factors
    (fused (register_detection_methods Examples.camera_photo) 0 "photo.jpg")
  = [ContributingFactor "ela_analysis" 0.2 0.9].
Proof.
  apply (contributing_factors_by_measurement Examples.camera_photo
           Examples.no_store 0 "photo.jpg" None _ false 0.1 [] 0.9 "ela.png"
           0.3 0.1 eq_refl eq_refl eq_refl eq_refl eq_refl).
Defined.

(** ** Scores that are not numbers *)

Lemma is_nan_spec x : is_nan x = true <-> Prim2SF x = S754_nan.
Proof.
  unfold is_nan. rewrite negb_true_iff, FloatAxioms.eqb_spec.
  pose proof (Prim2SF_valid x) as Hv.
  destruct (Prim2SF x) as [s|s| |s m e]; split; try done.
  - by destruct s.
  - unfold SFeqb. cbn [SFcompare].
    destruct s; rewrite Z.compare_refl;
      change (Pos.compare_cont Eq m m) with (Pos.compare m m);
      by rewrite Pos.compare_refl.
Qed.

Lemma mul_nan w c : is_nan c = true -> is_nan (w * c) = true.
Proof.
  rewrite !is_nan_spec, mul_spec. intros ->. by destruct (Prim2SF w).
Qed.

Lemma add_nan_r s p : is_nan p = true -> is_nan (s + p) = true.
Proof.
  rewrite !is_nan_spec, add_spec. intros ->. by destruct (Prim2SF s).
Qed.

Lemma add_nan_l s p : is_nan s = true -> is_nan (s + p) = true.
Proof. rewrite !is_nan_spec, add_spec. by intros ->. Qed.

Lemma div_nan s t : is_nan s = true -> is_nan (s / t) = true.
Proof. rewrite !is_nan_spec, div_spec. by intros ->. Qed.

Lemma ltb_nan a x : is_nan x = true -> (a <? x)%float = false.
Proof.
  rewrite is_nan_spec, ltb_spec. intros ->. unfold SFltb.
  by destruct (Prim2SF a).
Qed.

(** Once a term of the weighted sum is not a number, the sum is not. *)
Lemma sum_weighted_nan (os : list (string * float * method_result)) s :
  is_nan s = true \/ (exists o, o ∈ os
                                /\ is_nan (mr_confidence_score (snd o)) = true) ->
  is_nan (fold_left
            (fun s o => (s + snd (fst o) * mr_confidence_score (snd o))%float)
            os s) = true.
Proof.
  revert s. induction os as [|o os IH]; intros s H; cbn [fold_left].
  - destruct H as [H|(o & Ho & _)]; [done|by apply elem_of_nil in Ho].
  - apply IH. destruct H as [H|(o' & Ho' & Hn)].
    + left. by apply add_nan_l.
    + apply elem_of_cons in Ho' as [->|Ho'].
      * left. by apply add_nan_r, mul_nan.
      * right. by exists o'.
Qed.

(** X23: a surviving detector whose confidence is not a number makes the final
    confidence not a number, and the verdict "authentic", whatever the
    other detectors report. *)
Theorem nan_confidence_poisons_fusion
    f1 f2 f3 f4 f5 f6 st elapsed path mid r :
  detect (registry_of f1 f2 f3 f4 f5 f6) st elapsed path mid = Return r ->
  (exists o, o ∈ outcomes (registry_of f1 f2 f3 f4 f5 f6) path
             /\ failed (snd o) = false
             /\ is_nan (mr_confidence_score (snd o)) = true) ->
  is_nan (confidence_score r) = true /\ is_ai_generated r = false.
Proof.
  intros Hr (o & Ho & Hnf & Hnan). apply detect_fused in Hr as ->.
  rewrite fused_verdict, fused_confidence, recorded_run
    by apply registry_of_distinct.
  assert (Hc : is_nan (weighted_average
                         (non_failed (outcomes (registry_of f1 f2 f3 f4 f5 f6)
                                               path))) = true).
  { unfold weighted_average.
    assert (Hpos : (0 <? sum_weights
                           (non_failed (outcomes (registry_of f1 f2 f3 f4 f5 f6)
                                                 path)))%float = true).
    { assert (Hsome : exists o, o ∈ outcomes (registry_of f1 f2 f3 f4 f5 f6) path
                                /\ failed (snd o) = false) by (by exists o).
      apply some_non_failed in Hsome. rewrite outcomes_registry_of in *.
      cbn [forallb snd] in Hsome. rewrite andb_true_r, !andb_assoc in Hsome.
      by apply default_total_weight_positive. }
    rewrite Hpos. apply div_nan. apply sum_weighted_nan. right.
    exists o. split; [by apply non_failed_elem|done]. }
  split; [exact Hc|]. by apply ltb_nan.
Qed.

Lemma nan_confidence_poisons_fusion_witness :
  is_nan (confidence_score
            (fused (registry_of (Stubs.says false 0.3) (Stubs.says true 0.9)
                                (Stubs.says true 0.8) (Stubs.says false nan)
                                (Stubs.says true 0.85) (Stubs.says true 0.9))
                   0 "photo.jpg")) = true
  /\ is_ai_generated
       (fused (registry_of (Stubs.says false 0.3) (Stubs.says true 0.9)
                           (Stubs.says true 0.8) (Stubs.says false nan)
                           (Stubs.says true 0.85) (Stubs.says true 0.9))
              0 "photo.jpg") = false.
Proof.
  apply (nan_confidence_poisons_fusion
           (Stubs.says false 0.3) (Stubs.says true 0.9) (Stubs.says true 0.8)
           (Stubs.says false nan) (Stubs.says true 0.85) (Stubs.says true 0.9)
           Examples.no_store 0 "photo.jpg" None _ eq_refl).
  eexists. split; [do 3 (apply elem_of_cons; right); apply elem_of_cons; by left|].
  by split.
Defined.

(** ** File names *)

Lemma contains_dot_cons c s :
  contains "." (String c s) = Ascii.eqb c "." || contains "." s.
Proof.
  unfold contains. cbn [String.index String.prefix].
  destruct (ascii_dec "." c) as [<-|Hne].
  - by destruct s.
  - assert (Hc : Ascii.eqb c "." = false) by (apply Ascii.eqb_neq; congruence).
    rewrite Hc. cbn [orb]. by destruct (String.index 0 "." s).
Qed.

Lemma contains_dot_empty : contains "." "" = false.
Proof. reflexivity. Qed.

(** [rsplit1] splits at the last dot, if there is one. *)
Lemma rsplit1_dot s :
  if contains "." s
  then exists stem extension,
         rsplit1 "." s = [stem; extension]
         /\ s = stem ++ "." ++ extension
         /\ contains "." extension = false
  else rsplit1 "." s = [s].
Proof.
  induction s as [|c s IH]; [done|].
  rewrite contains_dot_cons. cbn [rsplit1].
  destruct (contains "." s) eqn:Hs.
  - destruct IH as (stem & extension & -> & -> & Hext).
    rewrite orb_true_r. exists (String c stem), extension.
    split; [reflexivity|]. split; [reflexivity|exact Hext].
  - rewrite IH, orb_false_r. destruct (Ascii.eqb c ".") eqn:Hc; [|done].
    apply Ascii.eqb_eq in Hc as ->. exists "", s.
    split; [reflexivity|]. split; [reflexivity|exact Hs].
Qed.

Lemma contains_dot_app stem extension :
  contains "." (stem ++ "." ++ extension) = true.
Proof.
  induction stem as [|c stem IH].
  - change ("" ++ "." ++ extension) with (String "." extension).
    by rewrite contains_dot_cons.
  - change (String c stem ++ "." ++ extension)
      with (String c (stem ++ "." ++ extension)).
    by rewrite contains_dot_cons, IH, orb_true_r.
Qed.

Lemma rsplit1_app stem extension :
  contains "." extension = false ->
  rsplit1 "." (stem ++ "." ++ extension) = [stem; extension].
Proof.
  intros Hext. induction stem as [|c stem IH].
  - change ("" ++ "." ++ extension) with (String "." extension).
    cbn [rsplit1]. pose proof (rsplit1_dot extension) as H.
    rewrite Hext in H. by rewrite H.
  - change (String c stem ++ "." ++ extension)
      with (String c (stem ++ "." ++ extension)).
    cbn [rsplit1]. by rewrite IH.
Qed.

(** X21: [allowed_file] never raises.  It accepts exactly the names whose part
    after the last dot is, in lower case, an allowed extension: a name
    without a dot is rejected, and only the last extension counts. *)
Theorem allowed_file_by_last_extension allowed_extensions filename :
  (exists b, allowed_file allowed_extensions filename = Return b)
  /\ (allowed_file allowed_extensions filename = Return true
      <-> exists stem extension,
            filename = stem ++ "." ++ extension
            /\ contains "." extension = false
            /\ lower extension ∈ allowed_extensions).
Proof.
  unfold allowed_file. pose proof (rsplit1_dot filename) as H.
  destruct (contains "." filename) eqn:Hdot.
  - destruct H as (stem & extension & Hsplit & -> & Hext).
    rewrite Hsplit. cbn.
    split; [by eexists|]. split.
    + intros [= Hin%bool_decide_eq_true]. by exists stem, extension.
    + intros (stem' & extension' & Heq & Hext' & Hin).
      pose proof (rsplit1_app stem' extension' Hext') as Hsplit'.
      rewrite <- Heq, Hsplit in Hsplit'. injection Hsplit' as _ <-.
      f_equal. by apply bool_decide_eq_true.
  - split; [by eexists|]. split; [done|].
    intros (stem & extension & -> & _). by rewrite contains_dot_app in Hdot.
Qed.

(** With the configured extensions: upper case is accepted, a second
    extension hides the first, and a name that is only an extension
    passes. *)
Lemma allowed_file_examples :
  allowed_file ALLOWED_EXTENSIONS "holiday.JPG" = Return true
  /\ allowed_file ALLOWED_EXTENSIONS "holiday.jpg.exe" = Return false
  /\ allowed_file ALLOWED_EXTENSIONS "archive.tar.png" = Return true
  /\ allowed_file ALLOWED_EXTENSIONS "png" = Return false
  /\ allowed_file ALLOWED_EXTENSIONS ".png" = Return true
  /\ allowed_file ALLOWED_EXTENSIONS "holiday." = Return false.
Proof. repeat split; vm_compute; reflexivity. Qed.
